(** * enumhelper: named enumerations and bit-flag sets

    A shallow embedding of the Go package [enumhelper]
    (chronos-tachyon/enumhelper): the enum table helper of
    [enumhelper.go], the bitfield engine ([BitfieldType] and its methods)
    and the error values shared by both.

    Conventions of the embedding.
    - A Go [string] and a Go [[]byte] are byte sequences: both are Rocq
      [string]s (a [string] is a list of 8-bit [ascii] bytes).  A [[]byte]
      that may be [nil] is an [option string].
    - [uint] and [uint64] are [Z]; the package never does arithmetic that
      can wrap, the range [0 <= v < 2^64] is a hypothesis where it matters.
      [uint] is taken to be 64 bits wide.
    - A Go [error] that may be [nil] is an [option error].
    - A call that may panic returns an [outcome].
    - The Go map [ByName] is a [gmap string _]; the pointers stored in it
      and in [Data] point to values never mutated after construction, so
      the pointee stands for the pointer, and [None] in [Data] is the nil
      pointer.
    - Functions of the Go standard library ([strings], [strconv],
      [encoding/json]) are modelled in the module [Go]; case mapping
      ([strings.ToLower], [strings.EqualFold]) is modelled by its ASCII
      path, which is what Go computes on ASCII strings, and bytes above
      0x7f are left alone. *)

From Stdlib Require Import ZArith Ascii String List Bool Lia.
From stdpp Require Import base option list gmap strings.

Local Open Scope Z_scope.

(* ===================================================================== *)
(** * Part I: the Go standard library functions the package calls        *)
(* ===================================================================== *)

Module Go.

(** ** Bytes *)

Definition byte_val (c : ascii) : Z := Z.of_N (N_of_ascii c).

Definition byte_of (z : Z) : ascii := ascii_of_N (Z.to_N z).

(** [c - 'A' < 26], the test for an upper-case ASCII letter. *)
Definition is_upper (c : ascii) : bool :=
  (65 <=? byte_val c) && (byte_val c <=? 90).

(** One byte of [strings.ToLower] on the ASCII range. *)
Definition lower_byte (c : ascii) : ascii :=
  if is_upper c then byte_of (byte_val c + 32) else c.

(** ** package strings *)

(** A string of ASCII bytes only: every byte is below [utf8.RuneSelf]. *)
Fixpoint is_ascii (s : string) : bool :=
  match s with
  | EmptyString => true
  | String c s' => (byte_val c <? 128) && is_ascii s'
  end.

(** [strings.ToLower] on an ASCII string ([is_ascii]), where Go maps the
    bytes ['A'..'Z'] and keeps the others.  On a string that holds a
    byte of 128 or more Go maps the letters of Unicode as well, which
    this byte map does not do: a statement that depends on the case
    mapping of a string says that the string is ASCII. *)
Fixpoint ToLower (s : string) : string :=
  match s with
  | EmptyString => EmptyString
  | String c s' => String (lower_byte c) (ToLower s')
  end.

(** [strings.EqualFold] on two ASCII strings ([is_ascii]): equality up
    to the case of the letters ['A'..'Z'].  When one of the strings
    holds a byte of 128 or more Go compares under the simple case
    folding of Unicode (which also folds U+212A to [k] and U+017F to
    [s]); a statement that depends on such a comparison says that both
    strings are ASCII. *)
Fixpoint EqualFold (s t : string) : bool :=
  match s, t with
  | EmptyString, EmptyString => true
  | String a s', String b t' =>
      Ascii.eqb (lower_byte a) (lower_byte b) && EqualFold s' t'
  | _, _ => false
  end.

(** [strings.HasPrefix(s, prefix)]. *)
Fixpoint HasPrefix (s prefix : string) : bool :=
  match prefix, s with
  | EmptyString, _ => true
  | String p prefix', String c s' => Ascii.eqb c p && HasPrefix s' prefix'
  | String _ _, EmptyString => false
  end.

(** The slice expression [s[i:j]] for [i <= j <= len(s)]. *)
Definition slice (s : string) (i j : nat) : string :=
  String.substring i (j - i) s.

(** [strings.HasSuffix(s, suffix)]:
    [len(s) >= len(suffix) && s[len(s)-len(suffix):] == suffix]. *)
Definition HasSuffix (s suffix : string) : bool :=
  (String.length suffix <=? String.length s)%nat
  && String.eqb
       (slice s (String.length s - String.length suffix) (String.length s))
       suffix.

(** [strings.Split(s, sep)] for a separator of one byte: the pieces of [s]
    between the occurrences of [sep]; one more piece than occurrences. *)
Fixpoint Split (s : string) (sep : ascii) : list string :=
  match s with
  | EmptyString => [EmptyString]
  | String c s' =>
      if Ascii.eqb c sep then EmptyString :: Split s' sep
      else match Split s' sep with
           | p :: ps => String c p :: ps
           | [] => [String c EmptyString]
           end
  end.

(** [strings.Join(elems, sep)]. *)
Fixpoint Join (elems : list string) (sep : string) : string :=
  match elems with
  | [] => EmptyString
  | [p] => p
  | p :: ps => p +:+ sep +:+ Join ps sep
  end.

(** ** package strconv *)

(** The digit characters of [strconv.FormatUint]:
    ["0123456789abcdefghijklmnopqrstuvwxyz"]. *)
Definition digit_char (d : Z) : ascii :=
  if d <? 10 then byte_of (48 + d) else byte_of (97 + (d - 10)).

Fixpoint format_loop (fuel : nat) (base x : Z) (acc : string) : string :=
  match fuel with
  | O => acc
  | S fuel' =>
      let acc' := String (digit_char (x mod base)) acc in
      if x / base =? 0 then acc' else format_loop fuel' base (x / base) acc'
  end.

(** [strconv.FormatUint(x, base)] for [0 <= x < 2^64] and [2 <= base <= 36]:
    at most 64 digits, no leading zero, lower-case letters. *)
Definition FormatUint (x : Z) (base : Z) : string :=
  format_loop 64 base x EmptyString.

(** [lower(c)] of strconv: [c | ('x' - 'X')]. *)
Definition lower (c : ascii) : Z := Z.lor (byte_val c) 32.

Definition maxUint64 : Z := 2 ^ 64 - 1.

(** The value of a digit of [strconv.ParseUint]: ['0'..'9'], then the
    letters in either case; [None] for any other byte. *)
Definition digit_value (c : ascii) : option Z :=
  if (48 <=? byte_val c) && (byte_val c <=? 57)
  then Some (byte_val c - 48)
  else if (97 <=? lower c) && (lower c <=? 122)
       then Some (lower c - 97 + 10)
       else None.

(** The digit loop of [strconv.ParseUint]: [None] is a syntax or range
    error; [base0] says that underscores are skipped. *)
Fixpoint parse_digits (base0 : bool) (base : Z) (s : string) (n : Z)
  : option Z :=
  match s with
  | EmptyString => Some n
  | String c s' =>
      if Ascii.eqb c "_" && base0 then parse_digits base0 base s' n
      else
        match digit_value c with
        | None => None
        | Some d =>
            if base <=? d then None
            else if maxUint64 / base + 1 <=? n then None
            else
              let n1 := n * base + d in
              if maxUint64 <? n1 then None
              else parse_digits base0 base s' n1
        end
  end.

Definition is_digit (c : ascii) : bool :=
  (48 <=? byte_val c) && (byte_val c <=? 57).

Definition is_hex_letter (c : ascii) : bool :=
  (97 <=? lower c) && (lower c <=? 102).

(** The state of [underscoreOK]: the kind of the previous byte. *)
Inductive us_state := us_start | us_digit | us_underscore | us_other.

Fixpoint underscore_loop (hex : bool) (i : us_state) (s : string) : bool :=
  match s with
  | EmptyString =>
      match i with us_underscore => false | _ => true end
  | String c s' =>
      if is_digit c || (hex && is_hex_letter c)
      then underscore_loop hex us_digit s'
      else if Ascii.eqb c "_"
           then match i with
                | us_digit => underscore_loop hex us_underscore s'
                | _ => false
                end
           else match i with
                | us_underscore => false
                | _ => underscore_loop hex us_other s'
                end
  end.

Definition is_base_letter (c : ascii) : bool :=
  (lower c =? 98) || (lower c =? 111) || (lower c =? 120).

(** [strconv.underscoreOK]: underscores only between digits, or between
    the base prefix and a digit. *)
Definition underscoreOK (s : string) : bool :=
  let s :=
    match s with
    | String c s' =>
        if Ascii.eqb c "-" || Ascii.eqb c "+" then s' else s
    | EmptyString => s
    end in
  match s with
  | String "0" (String c s') =>
      if is_base_letter c
      then underscore_loop (lower c =? 120) us_digit s'
      else underscore_loop false us_start s
  | _ => underscore_loop false us_start s
  end.

Fixpoint has_byte (c : ascii) (s : string) : bool :=
  match s with
  | EmptyString => false
  | String c' s' => Ascii.eqb c' c || has_byte c s'
  end.

(** [strconv.ParseUint(s, base, 64)] for [base = 0] or [2 <= base <= 36];
    [None] when Go returns an error. *)
Definition ParseUint (s : string) (base : Z) : option Z :=
  match s with
  | EmptyString => None
  | String c0 rest =>
      let base0 := base =? 0 in
      let '(b, digits) :=
        if base0 then
          if Ascii.eqb c0 "0" then
            match rest with
            | String c1 (String c2 rest') =>
                if lower c1 =? 98 then (2, String c2 rest')
                else if lower c1 =? 111 then (8, String c2 rest')
                else if lower c1 =? 120 then (16, String c2 rest')
                else (8, rest)
            | _ => (8, rest)
            end
          else (10, s)
        else (base, s) in
      match parse_digits base0 b digits 0 with
      | None => None
      | Some n =>
          if base0 && has_byte "_" digits && negb (underscoreOK s)
          then None else Some n
      end
  end.

(** ** package encoding/json *)

(** The white space of JSON: space, tab, line feed, carriage return. *)
Definition is_json_space (c : ascii) : bool :=
  (byte_val c =? 32) || (byte_val c =? 9)
  || (byte_val c =? 10) || (byte_val c =? 13).

Fixpoint trim_left (s : string) : string :=
  match s with
  | String c s' => if is_json_space c then trim_left s' else s
  | EmptyString => EmptyString
  end.

Fixpoint trim_right (s : string) : string :=
  match s with
  | EmptyString => EmptyString
  | String c s' =>
      match trim_right s' with
      | EmptyString => if is_json_space c then EmptyString
                       else String c EmptyString
      | t => String c t
      end
  end.

(** The JSON value inside its optional surrounding white space. *)
Definition json_trim (raw : string) : string := trim_right (trim_left raw).

Fixpoint all_digits (s : string) : bool :=
  match s with
  | EmptyString => true
  | String c s' => is_digit c && all_digits s'
  end.

(** A JSON number without sign, fraction and exponent: ["0"], or digits
    that do not start with ["0"]. *)
Definition is_json_uint_literal (s : string) : bool :=
  match s with
  | EmptyString => false
  | String "0" EmptyString => true
  | String "0" _ => false
  | String _ _ => all_digits s
  end.

(** [json.Unmarshal(raw, &u64)] into a zero [uint64]: [null] leaves the
    zero; an unsigned integer literal within 64 bits is stored; every other
    input (invalid JSON, another kind of value, a number with a sign, a
    fraction or an exponent, a number out of range) is an error, [None]. *)
Definition Unmarshal_uint64 (raw : string) : option Z :=
  let t := json_trim raw in
  if String.eqb t "null" then Some 0
  else if is_json_uint_literal t then ParseUint t 10
  else None.

(** The double quote that opens a JSON string. *)
Definition dquote : ascii := "034"%char.

Section StringDecoder.

(** The scanner and [unquote] of encoding/json on a token that starts
    with a double quote: the decoded text of a well-formed JSON string
    literal (escapes resolved, invalid UTF-8 replaced), [None] for
    anything else.  The package only passes the result on, so the
    development is parametric in it. *)
Variable string_literal : string -> option string.

(** [json.Unmarshal(raw, &str)] into an empty [string]: [null] leaves the
    empty string; a string literal is decoded; every other input is an
    error, [None]. *)
Definition Unmarshal_string (raw : string) : option string :=
  let t := json_trim raw in
  if String.eqb t "null" then Some EmptyString
  else match t with
       | String c _ => if Ascii.eqb c dquote then string_literal t else None
       | EmptyString => None
       end.

End StringDecoder.

End Go.

(* ===================================================================== *)
(** * Part II: the package                                                *)
(* ===================================================================== *)

(** ** Error values (the error types of the package, and the two foreign
       errors it returns) *)

#[warnings="-register-all"]
Inductive error : Type :=
| IsNullError
| InvalidEnumNameError (Type_ Name : string) (Allowed : list string)
| InvalidEnumValueError (Type_ : string) (Value Limit : Z)
| InvalidBitfieldNameError (Type_ Name : string) (Allowed : list string)
| InvalidBitfieldIndexError (Type_ : string) (Index Limit : Z)
| MultiError (Errors : list error)
    (* &multierror.Error{Errors: errors} *)
| JSONStringError (raw : string)
    (* the error of json.Unmarshal(raw, &str) *)
| NilBytesError.
    (* errors.New("[]byte is nil") *)

(** [IsNull]: [errors.As(err, &IsNullError{})].  No error built by the
    package wraps an [IsNullError], so only the error itself is tested. *)
Definition IsNull (err : option error) : bool :=
  match err with
  | Some IsNullError => true
  | _ => false
  end.

(** What a panicking call panics with: an error value of the package, or
    a run-time error of Go (index out of range, nil dereference). *)
Inductive panic_value : Type :=
| PanicError (e : error)
| RuntimeError.

Inductive outcome (A : Type) : Type :=
| Returns (a : A)
| Panics (p : panic_value).

Arguments Returns {A} a.
Arguments Panics {A} p.

Definition bind {A B} (m : outcome A) (k : A -> outcome B) : outcome B :=
  match m with
  | Returns a => k a
  | Panics p => Panics p
  end.

Notation "'do' x <- m ; k" := (bind m (fun x => k))
  (at level 10, x name, m at level 100, k at level 200).

(** [for index := uint(0); index < 64; index++]. *)
Definition indices64 : list Z := seqZ 0 64.

(** [nullBytes]. *)
Definition nullBytes : string := "null".

(* --------------------------------------------------------------------- *)
(** ** enumhelper.go: the enum table helper *)

Module Enum.

Record EnumData : Type := {
  GoName : string;
  Name : string;
  JSON : option string;
  Aliases : list string
}.

(** [MakeAllowedEnumNames]. *)
Definition MakeAllowedEnumNames (enumData : list EnumData) : list string :=
  map Name enumData.

(** [DereferenceEnumData]. *)
Definition DereferenceEnumData (enumName : string)
    (enumData : list EnumData) (value : Z) : outcome EnumData :=
  let limit := Z.of_nat (length enumData) in
  if limit <=? value then
    Panics (PanicError (InvalidEnumValueError enumName value limit))
  else
    match enumData !! Z.to_nat value with
    | Some row => Returns row
    | None => Panics RuntimeError
    end.

(** [json.Marshal] of a string is left abstract here: [quote] is its
    result. *)
Definition MarshalEnumToJSON (quote : string -> string) (enumName : string)
    (enumData : list EnumData) (value : Z)
  : outcome (string * option error) :=
  do row <- DereferenceEnumData enumName enumData value;
  match JSON row with
  | None => Returns (quote (Name row), None)
  | Some j => Returns (j, None)
  end.

(** The body of the loop of [ParseEnum] for one row. *)
Definition row_matches (str : string) (row : EnumData) : bool :=
  Go.EqualFold str (Name row) || Go.EqualFold str (GoName row)
  || existsb (fun alias => Go.EqualFold str alias) (Aliases row).

(** The loop of [ParseEnum], from row [index] on. *)
Fixpoint ParseEnum_loop (index : Z) (rows : list EnumData) (str : string)
  : option Z :=
  match rows with
  | [] => None
  | row :: rows' =>
      if row_matches str row then Some index
      else ParseEnum_loop (index + 1) rows' str
  end.

(** [ParseEnum]. *)
Definition ParseEnum (enumName : string) (enumData : list EnumData)
    (str : string) : Z * option error :=
  match ParseEnum_loop 0 enumData str with
  | Some index => (index, None)
  | None =>
      (0, Some (InvalidEnumNameError enumName str
                  (MakeAllowedEnumNames enumData)))
  end.

(** The first loop of [UnmarshalEnumFromJSON]: the first row whose
    explicit JSON literal is byte-equal to [raw]. *)
Fixpoint json_literal_loop (index : Z) (rows : list EnumData) (raw : string)
  : option Z :=
  match rows with
  | [] => None
  | row :: rows' =>
      match JSON row with
      | Some j =>
          if String.eqb raw j then Some index
          else json_literal_loop (index + 1) rows' raw
      | None => json_literal_loop (index + 1) rows' raw
      end
  end.

Section FromJSON.

Variable string_literal : string -> option string.

(** [UnmarshalEnumFromJSON]. *)
Definition UnmarshalEnumFromJSON (enumName : string)
    (enumData : list EnumData) (raw : option string)
  : outcome (Z * option error) :=
  match raw with
  | None => Panics (PanicError NilBytesError)
  | Some raw =>
      if String.eqb raw nullBytes then Returns (0, Some IsNullError)
      else
        match json_literal_loop 0 enumData raw with
        | Some index => Returns (index, None)
        | None =>
            match Go.Unmarshal_string string_literal raw with
            | Some str => Returns (ParseEnum enumName enumData str)
            | None =>
                let err1 := Go.Unmarshal_uint64 raw in
                let limit := Z.of_nat (length enumData) in
                match err1 with
                | Some num =>
                    if limit <=? num then
                      Returns (0, Some (InvalidEnumValueError
                                          enumName num limit))
                    else Returns (num, None)
                | None => Returns (0, Some (JSONStringError raw))
                end
            end
        end
  end.

End FromJSON.

End Enum.

(* --------------------------------------------------------------------- *)
(** ** The bitfield engine *)

Module Bitfield.

Record BitfieldData : Type := {
  GoName : string;
  Name : string;
  Aliases : list string
}.

(** [bitfieldData] is the embedded [BitfieldData]. *)
Record AnnotatedBitfieldData : Type := {
  bitfieldData : BitfieldData;
  Index : Z;
  Bit : Z
}.

Record BitfieldType : Type := {
  Type_ : string;
  Data : list (option AnnotatedBitfieldData);
  Names : list string;
  ByName : gmap string AnnotatedBitfieldData
}.

Definition is_empty (s : string) : bool :=
  match s with
  | EmptyString => true
  | String _ _ => false
  end.

(** The zero value [var data BitfieldData]. *)
Definition zero_data : BitfieldData :=
  {| GoName := ""; Name := ""; Aliases := [] |}.

(** [out.ByName[key] = ptr; out.ByName[strings.ToLower(key)] = ptr]. *)
Definition put_name (ptr : AnnotatedBitfieldData) (key : string)
    (byName : gmap string AnnotatedBitfieldData)
  : gmap string AnnotatedBitfieldData :=
  <[Go.ToLower key := ptr]> (<[key := ptr]> byName).

(** The body of the loop of [MakeBitfieldType]. *)
Definition MakeBitfieldType_step (in_ : list BitfieldData) (length_ : Z)
    (out : BitfieldType) (index : Z) : BitfieldType :=
  let data :=
    if index <? length_ then default zero_data (in_ !! Z.to_nat index)
    else zero_data in
  let ptr :=
    {| bitfieldData := data; Index := index; Bit := Z.shiftl 1 index |} in
  let data' := <[Z.to_nat index := Some ptr]> (Data out) in
  if is_empty (GoName data) && is_empty (Name data) then
    {| Type_ := Type_ out; Data := data';
       Names := Names out; ByName := ByName out |}
  else
    let name := if is_empty (Name data) then GoName data else Name data in
    let byName1 :=
      if negb (is_empty (GoName data))
      then put_name ptr (GoName data) (ByName out) else ByName out in
    let byName2 :=
      if negb (is_empty (Name data))
      then put_name ptr (Name data) byName1 else byName1 in
    let byName3 :=
      fold_left (fun m alias => put_name ptr alias m) (Aliases data)
        byName2 in
    {| Type_ := Type_ out; Data := data';
       Names := Names out ++ [name]; ByName := byName3 |}.

(** [MakeBitfieldType]. *)
Definition MakeBitfieldType (typeName : string) (in_ : list BitfieldData)
  : BitfieldType :=
  let length_ := Z.of_nat (length in_) in
  let length_ := if 64 <? length_ then 64 else length_ in
  fold_left (MakeBitfieldType_step in_ length_) indices64
    {| Type_ := typeName; Data := replicate 64 None;
       Names := []; ByName := ∅ |}.

(** [*bitfield.Data[index]]. *)
Definition deref (bitfield : BitfieldType) (index : Z)
  : outcome AnnotatedBitfieldData :=
  match Data bitfield !! Z.to_nat index with
  | Some (Some data) => Returns data
  | _ => Panics RuntimeError
  end.

(** [Get]. *)
Definition Get (bitfield : BitfieldType) (index : Z)
  : outcome AnnotatedBitfieldData :=
  if 64 <=? index then
    Panics (PanicError
              (InvalidBitfieldIndexError (Type_ bitfield) index 64))
  else deref bitfield index.

Fixpoint ForEach_loop {S : Type} (bitfield : BitfieldType)
    (fn : AnnotatedBitfieldData -> S -> S) (idx : list Z) (st : S)
  : outcome S :=
  match idx with
  | [] => Returns st
  | index :: rest =>
      do data <- deref bitfield index;
      ForEach_loop bitfield fn rest (fn data st)
  end.

(** [ForEach]: the callback is a closure over the variables of its
    caller; [S] is the state it updates.  The callback is one that
    returns on every entry, as the closure of [toStringImpl] does; a
    callback that panics ends the loop with its own panic and is not
    described here. *)
Definition ForEach {S : Type} (bitfield : BitfieldType)
    (fn : AnnotatedBitfieldData -> S -> S) (st : S) : outcome S :=
  ForEach_loop bitfield fn indices64 st.

(** The callback of [toStringImpl]; the state is [(pieces, remnant)]. *)
Definition toString_visit (value : Z)
    (fn1 : AnnotatedBitfieldData -> string)
    (data : AnnotatedBitfieldData) (st : list string * Z)
  : list string * Z :=
  let '(pieces, remnant) := st in
  if negb (Z.land value (Bit data) =? 0) then
    let str := fn1 data in
    if is_empty str then (pieces, Z.lor remnant (Bit data))
    else (pieces ++ [str], remnant)
  else (pieces, remnant).

(** [toStringImpl]. *)
Definition toStringImpl (bitfield : BitfieldType) (value : Z)
    (fn1 : AnnotatedBitfieldData -> string) (fn2 : Z -> string)
  : outcome string :=
  do st <- ForEach bitfield (toString_visit value fn1) ([], 0);
  let '(pieces, remnant) := st in
  let pieces :=
    if negb (remnant =? 0) || (length pieces =? 0)%nat then
      let str := fn2 remnant in
      if negb (is_empty str) then pieces ++ [str] else pieces
    else pieces in
  Returns (Go.Join pieces "|").

(** The two closures of [ToGoString]. *)
Definition ToGoString_fn1 (data : AnnotatedBitfieldData) : string :=
  GoName (bitfieldData data).

Definition ToGoString_fn2 (bitfield : BitfieldType) (remnant : Z) : string :=
  if remnant =? 0 then Type_ bitfield +:+ "(0)"
  else Type_ bitfield +:+ "(0x" +:+ Go.FormatUint remnant 16 +:+ ")".

(** [ToGoString]. *)
Definition ToGoString (bitfield : BitfieldType) (value : Z)
  : outcome string :=
  toStringImpl bitfield value ToGoString_fn1 (ToGoString_fn2 bitfield).

(** The two closures of [ToString]. *)
Definition ToString_fn1 (data : AnnotatedBitfieldData) : string :=
  Name (bitfieldData data).

Definition ToString_fn2 (remnant : Z) : string :=
  if remnant =? 0 then "0"
  else "0x" +:+ Go.FormatUint remnant 16.

(** [ToString]. *)
Definition ToString (bitfield : BitfieldType) (value : Z)
  : outcome string :=
  toStringImpl bitfield value ToString_fn1 ToString_fn2.

(** [ToJSON]; [quote] is [json.Marshal] of a string. *)
Definition ToJSON (quote : string -> string) (bitfield : BitfieldType)
    (value : Z) : outcome (string * option error) :=
  do str <- ToString bitfield value;
  Returns (quote str, None).

(** The first statement of [parseItem]: the string the lookups run on. *)
Definition parseItem_unwrap (bitfield : BitfieldType) (str : string)
  : string :=
  let strPrefix := Type_ bitfield +:+ "(" in
  let strSuffix := ")" in
  if Go.HasPrefix str strPrefix && Go.HasSuffix str strSuffix then
    let i := String.length strSuffix in
    let j := (String.length str - String.length strSuffix)%nat in
    Go.slice str i j
  else str.

(** The rest of [parseItem]: the lookups. *)
Definition parseItem_lookup (bitfield : BitfieldType) (str : string)
  : Z * bool :=
  match ByName bitfield !! str with
  | Some data => (Bit data, true)
  | None =>
      let strLower := Go.ToLower str in
      match ByName bitfield !! strLower with
      | Some data => (Bit data, true)
      | None =>
          if String.eqb str "0" then (0, true)
          else match Go.ParseUint str 0 with
               | Some u64 => (u64, true)
               | None => (0, false)
               end
      end
  end.

(** [parseItem]. *)
Definition parseItem (bitfield : BitfieldType) (str : string) : Z * bool :=
  let str := parseItem_unwrap bitfield str in
  parseItem_lookup bitfield str.

(** The loop of [FromString] over the pieces. *)
Fixpoint FromString_loop (bitfield : BitfieldType) (pieces : list string)
    (accum : Z) (errors : list error) : Z * list error :=
  match pieces with
  | [] => (accum, errors)
  | piece :: rest =>
      let '(u64, ok) := parseItem bitfield piece in
      if ok then FromString_loop bitfield rest (Z.lor accum u64) errors
      else
        FromString_loop bitfield rest accum
          (errors ++ [InvalidBitfieldNameError (Type_ bitfield) piece
                        (Names bitfield)])
  end.

(** [FromString]. *)
Definition FromString (bitfield : BitfieldType) (str : string)
  : Z * option error :=
  let '(u64, ok) := parseItem bitfield str in
  if ok then (u64, None)
  else
    let pieces := Go.Split str "|" in
    let '(accum, errors) := FromString_loop bitfield pieces 0 [] in
    match errors with
    | [] => (accum, None)
    | [e] => (0, Some e)
    | _ => (0, Some (MultiError errors))
    end.

Section FromJSON.

Variable string_literal : string -> option string.

(** [FromJSON]. *)
Definition FromJSON (bitfield : BitfieldType) (raw : option string)
  : outcome (Z * option error) :=
  match raw with
  | None => Panics (PanicError NilBytesError)
  | Some raw =>
      if String.eqb raw nullBytes then Returns (0, Some IsNullError)
      else
        match Go.Unmarshal_string string_literal raw with
        | Some str => Returns (FromString bitfield str)
        | None =>
            match Go.Unmarshal_uint64 raw with
            | Some u64 => Returns (u64, None)
            | None => Returns (0, Some (JSONStringError raw))
            end
        end
  end.

End FromJSON.

End Bitfield.


(* ===================================================================== *)
(** * Part III: tables used in the examples                               *)
(* ===================================================================== *)

Module Examples.

Import Bitfield.

(** The bitfield type of the package documentation: three permission
    bits, bit 3 and up unnamed. *)
Definition perm_bits : list BitfieldData :=
  [ {| GoName := "PermRead"; Name := "read"; Aliases := ["r"] |};
    {| GoName := "PermWrite"; Name := "write"; Aliases := [] |};
    {| GoName := "PermExec"; Name := "exec"; Aliases := ["x"; "Execute"] |} ].

Definition perm : BitfieldType := MakeBitfieldType "Perm" perm_bits.

(** Two bits that share their symbolic name. *)
Definition twins : BitfieldType :=
  MakeBitfieldType "Twin"
    [ {| GoName := "A"; Name := "first"; Aliases := [] |};
      {| GoName := "A"; Name := "second"; Aliases := [] |} ].

(** A bit that has a symbolic name and no display name. *)
Definition half_bits : list BitfieldData :=
  [ {| GoName := "HalfX"; Name := ""; Aliases := [] |} ].

Definition half_named : BitfieldType := MakeBitfieldType "Half" half_bits.

(** An enum of three colours without explicit JSON literals. *)
Definition color : list Enum.EnumData :=
  [ {| Enum.GoName := "ColorRed"; Enum.Name := "red";
       Enum.JSON := None; Enum.Aliases := [] |};
    {| Enum.GoName := "ColorGreen"; Enum.Name := "green";
       Enum.JSON := None; Enum.Aliases := ["verde"] |};
    {| Enum.GoName := "ColorBlue"; Enum.Name := "blue";
       Enum.JSON := None; Enum.Aliases := [] |} ].

(** An enum whose rows carry numbers as their explicit JSON literals. *)
Definition level : list Enum.EnumData :=
  [ {| Enum.GoName := "LevelHigh"; Enum.Name := "high";
       Enum.JSON := Some "1"; Enum.Aliases := [] |};
    {| Enum.GoName := "LevelLow"; Enum.Name := "low";
       Enum.JSON := Some "0"; Enum.Aliases := [] |} ].

Fixpoint plain_body (s : string) : option string :=
  match s with
  | EmptyString => None
  | String c s' =>
      if Ascii.eqb c Go.dquote then
        match s' with EmptyString => Some EmptyString | _ => None end
      else if Ascii.eqb c "\" || (Go.byte_val c <? 32) || (127 <? Go.byte_val c)
           then None
           else match plain_body s' with
                | Some t => Some (String c t)
                | None => None
                end
  end.

(** An instance of the string decoder, used in the examples only: on a
    JSON string literal of printable ASCII without escapes it gives the
    text between the quotes, as [json.Unmarshal] does.  It refuses every
    other input, also the literals with escapes that [json.Unmarshal]
    accepts; the examples do not use such literals. *)
Definition plain_string_literal (t : string) : option string :=
  match t with
  | String c body => if Ascii.eqb c Go.dquote then plain_body body else None
  | EmptyString => None
  end.

(** An instance of the string encoder, used in the examples only: the
    text between two quotes, which is what [json.Marshal] writes for a
    string of printable ASCII without quote, backslash, [<], [>] and
    [&] (it escapes those); the examples encode letters, digits and
    bars only. *)
Definition plain_quote (s : string) : string :=
  String Go.dquote (s +:+ String Go.dquote "").

(** An enum with one explicit literal. *)
Definition mode_off : Enum.EnumData :=
  {| Enum.GoName := "ModeOff"; Enum.Name := "off";
     Enum.JSON := Some "false"; Enum.Aliases := [] |}.

Definition mode_on : Enum.EnumData :=
  {| Enum.GoName := "ModeOn"; Enum.Name := "on";
     Enum.JSON := None; Enum.Aliases := ["enabled"] |}.

Definition mode : list Enum.EnumData := [mode_off; mode_on].

(** The table of [twins]. *)
Definition twin_bits : list BitfieldData :=
  [ {| GoName := "A"; Name := "first"; Aliases := [] |};
    {| GoName := "A"; Name := "second"; Aliases := [] |} ].

End Examples.

(* ===================================================================== *)
(** * Part IV: what the constructor builds, stated on the input table    *)
(* ===================================================================== *)

Module Spec.

Import Bitfield.

(** [length] in [MakeBitfieldType]: the length of the table, at most 64. *)
Definition table_length (in_ : list BitfieldData) : Z :=
  if 64 <? Z.of_nat (length in_) then 64 else Z.of_nat (length in_).

(** The descriptor of bit [index]: the entry of the input table, the zero
    descriptor past its end. *)
Definition slot (in_ : list BitfieldData) (index : Z) : BitfieldData :=
  default zero_data (in_ !! Z.to_nat index).

(** The annotated descriptor of bit [index]. *)
Definition entry (in_ : list BitfieldData) (index : Z)
  : AnnotatedBitfieldData :=
  {| bitfieldData := slot in_ index; Index := index;
     Bit := Z.shiftl 1 index |}.

(** A descriptor is named when it has a symbolic or a display name. *)
Definition named (d : BitfieldData) : bool :=
  negb (is_empty (GoName d) && is_empty (Name d)).

(** The canonical name: the display name, else the symbolic name. *)
Definition display (d : BitfieldData) : string :=
  if is_empty (Name d) then GoName d else Name d.


(** The names a named descriptor is registered under: the symbolic name
    and the display name when they are set, and every alias. *)
Definition registered (d : BitfieldData) : list string :=
  (if is_empty (GoName d) then [] else [GoName d])
  ++ (if is_empty (Name d) then [] else [Name d])
  ++ Aliases d.

(** The keys written for a descriptor: each registered name as given and
    in lower case, in the order of the writes. *)
Definition keys (d : BitfieldData) : list string :=
  flat_map (fun n => [n; Go.ToLower n]) (registered d).

Definition names_at (in_ : list BitfieldData) (index : Z) : list string :=
  if named (slot in_ index) then [display (slot in_ index)] else [].

Definition bindings_at (in_ : list BitfieldData) (index : Z)
  : list (string * AnnotatedBitfieldData) :=
  if named (slot in_ index)
  then map (fun k => (k, entry in_ index)) (keys (slot in_ index))
  else [].

(** All writes to [ByName], in the order the constructor makes them. *)
Definition bindings (in_ : list BitfieldData)
  : list (string * AnnotatedBitfieldData) :=
  flat_map (bindings_at in_) indices64.

Definition write (m : gmap string AnnotatedBitfieldData)
    (b : string * AnnotatedBitfieldData)
  : gmap string AnnotatedBitfieldData :=
  <[b.1 := b.2]> m.

(** A string without its first byte. *)
Definition tail (s : string) : string :=
  match s with
  | EmptyString => EmptyString
  | String _ s' => s'
  end.

(** Two strings are equal up to the case of their letters. *)
Definition case_equal (s t : string) : bool :=
  String.eqb (Go.ToLower s) (Go.ToLower t).

(** [str] is, up to case, a registered name of the named descriptor [d]. *)
Definition slot_registers (d : BitfieldData) (str : string) : bool :=
  named d && existsb (case_equal str) (registered d).

(** [str] is, up to case, a registered name of some slot of the table. *)
Definition is_registered (in_ : list BitfieldData) (str : string) : bool :=
  existsb (fun i => slot_registers (slot in_ i) str) indices64.

(** The names of an enum row: display name, symbolic name, aliases. *)
Definition enum_names (row : Enum.EnumData) : list string :=
  Enum.Name row :: Enum.GoName row :: Enum.Aliases row.

(** [str] is, up to case, a name of the enum row. *)
Definition row_registers (row : Enum.EnumData) (str : string) : bool :=
  existsb (case_equal str) (enum_names row).

(** Bit [i] has the non-empty name [g i], without a bar, that
    [parseItem] resolves to the bit. *)
Definition good_name (bitfield : BitfieldType) (g : Z -> string) (i : Z)
  : Prop :=
  g i <> "" /\ Go.has_byte "|" (g i) = false
  /\ parseItem bitfield (g i) = (Z.shiftl 1 i, true).

(** Whether a piece parses as a single token, and its value. *)
Definition piece_ok (bitfield : BitfieldType) (piece : string) : bool :=
  snd (parseItem bitfield piece).

Definition piece_value (bitfield : BitfieldType) (piece : string) : Z :=
  fst (parseItem bitfield piece).

(** The error of [FromString] for a piece that does not parse. *)
Definition name_error (bitfield : BitfieldType) (piece : string) : error :=
  InvalidBitfieldNameError (Type_ bitfield) piece (Names bitfield).

(** The pieces of [str] that do not parse, in input order. *)
Definition bad_pieces (bitfield : BitfieldType) (str : string)
  : list string :=
  List.filter (fun p => negb (piece_ok bitfield p)) (Go.Split str "|").

(** The pieces of [str] that parse, in input order. *)
Definition good_pieces (bitfield : BitfieldType) (str : string)
  : list string :=
  List.filter (piece_ok bitfield) (Go.Split str "|").

(** A [BitfieldType] whose [Data] has its 64 entries, none of them nil:
    what [ForEach] needs to run to its end. *)
Definition data_ok (bitfield : BitfieldType) : Prop :=
  exists ds : list AnnotatedBitfieldData,
    length ds = 64%nat /\ Data bitfield = map Some ds.

(** [(value & data.Bit) != 0]. *)
Definition bit_set (value : Z) (data : AnnotatedBitfieldData) : bool :=
  negb (Z.land value (Bit data) =? 0).

Definition is_nil {A : Type} (l : list A) : bool :=
  match l with
  | [] => true
  | _ :: _ => false
  end.

(** The rendering as the specification words it, over the entries [ds] in
    index order: every set bit whose slot [has_name] gives the piece
    [fn1]; the other set bits are ORed into the remnant; the remnant token
    [fn2] is appended when the remnant is not zero or there is no piece;
    the pieces are joined with a bar. *)
Definition render (has_name : AnnotatedBitfieldData -> bool)
    (fn1 : AnnotatedBitfieldData -> string) (fn2 : Z -> string)
    (value : Z) (ds : list AnnotatedBitfieldData) : string :=
  let set := List.filter (bit_set value) ds in
  let pieces := map fn1 (List.filter has_name set) in
  let remnant :=
    fold_right Z.lor 0
      (map Bit (List.filter (fun d => negb (has_name d)) set)) in
  let token := if negb (remnant =? 0) || is_nil pieces
               then [fn2 remnant] else [] in
  Go.Join (pieces ++ token) "|".

(** A slot is named, in the sense of the constructor. *)
Definition slot_named (data : AnnotatedBitfieldData) : bool :=
  named (bitfieldData data).

(** A slot has the name that the rendering [fn1] prints. *)
Definition has_piece (fn1 : AnnotatedBitfieldData -> string)
    (data : AnnotatedBitfieldData) : bool :=
  negb (is_empty (fn1 data)).

(** The 64 entries of a constructed type. *)
Definition entries (in_ : list BitfieldData) : list AnnotatedBitfieldData :=
  map (entry in_) indices64.

(** The indices of the bits set in [value], ascending. *)
Definition set_bits (value : Z) : list Z :=
  List.filter (Z.testbit value) indices64.

(** The pieces of a rendering that prints the field [name]: the names of
    the set bits that have one, in ascending index order. *)
Definition pieces_of (name : BitfieldData -> string)
    (in_ : list BitfieldData) (value : Z) : list string :=
  map (fun i => name (slot in_ i))
    (List.filter (fun i => negb (is_empty (name (slot in_ i))))
       (set_bits value)).

(** Its remnant: the set bits without such a name. *)
Definition remnant_of (name : BitfieldData -> string)
    (in_ : list BitfieldData) (value : Z) : Z :=
  fold_right Z.lor 0
    (map (Z.shiftl 1)
       (List.filter (fun i => is_empty (name (slot in_ i)))
          (set_bits value))).

(** The pieces with the remnant token appended when the remnant is not
    zero or there is no piece. *)
Definition with_token (pieces : list string) (remnant : Z)
    (fn2 : Z -> string) : list string :=
  pieces ++ (if negb (remnant =? 0) || is_nil pieces
             then [fn2 remnant] else []).

(** The digit character of [d] reads back as [d]. *)
Definition digit_ok (d : Z) : bool :=
  negb (Ascii.eqb (Go.digit_char d) "_")
  && match Go.digit_value (Go.digit_char d) with
     | Some d' => d' =? d
     | None => false
     end.

(** The digit character of [d] is a decimal digit, and is not the zero
    digit unless [d] is zero. *)
Definition decimal_ok (d : Z) : bool :=
  Go.is_digit (Go.digit_char d)
  && ((d =? 0) || negb (Ascii.eqb (Go.digit_char d) "0")).

(** [raw] is a bare JSON unsigned-integer literal that denotes [n]: a
    JSON number without sign, fraction and exponent, whose digits read
    [n] in base ten within 64 bits. *)
Definition uint_literal (raw : string) (n : Z) : Prop :=
  Go.is_json_uint_literal raw = true /\ Go.ParseUint raw 10 = Some n.

(** No registered name of a named slot of the table holds a bar. *)
Definition bar_free (in_ : list BitfieldData) : bool :=
  forallb
    (fun i =>
       negb (named (slot in_ i))
       || forallb (fun n => negb (Go.has_byte "|" n))
            (registered (slot in_ i)))
    indices64.

(** Bit [i] has a symbolic name, and [parseItem] resolves that name to
    the bit. *)
Definition resolves (typeName : string) (in_ : list BitfieldData) (i : Z)
  : bool :=
  let g := GoName (slot in_ i) in
  let r := parseItem (MakeBitfieldType typeName in_) g in
  negb (is_empty g) && (fst r =? Z.shiftl 1 i) && snd r.

(** Every bit set in [value] has a symbolic name that resolves to it. *)
Definition symbolic_ok (typeName : string) (in_ : list BitfieldData)
    (value : Z) : bool :=
  forallb (resolves typeName in_) (set_bits value).

(** A piece with its value: not empty, without a bar, and parsed by
    [parseItem] to the value. *)
Definition good_piece (bitfield : BitfieldType) (pu : string * Z) : Prop :=
  fst pu <> "" /\ Go.has_byte "|" (fst pu) = false
  /\ parseItem bitfield (fst pu) = (snd pu, true).

(** No digit character below [base] is the byte [c]. *)
Definition digit_avoids (c : ascii) (base : Z) : bool :=
  forallb (fun d => negb (Ascii.eqb (Go.digit_char d) c)) (seqZ 0 base).

(** If bit [i] has a display name, [parseItem] resolves that name to the
    bit. *)
Definition display_resolves (typeName : string) (in_ : list BitfieldData)
    (i : Z) : bool :=
  let n := Name (slot in_ i) in
  let r := parseItem (MakeBitfieldType typeName in_) n in
  is_empty n || ((fst r =? Z.shiftl 1 i) && snd r).

(** Every display name of a bit set in [value] resolves to its bit. *)
Definition display_ok (typeName : string) (in_ : list BitfieldData)
    (value : Z) : bool :=
  forallb (display_resolves typeName in_) (set_bits value).

(** The display rendering of [value] ends with the remnant token. *)
Definition token_needed (in_ : list BitfieldData) (value : Z) : bool :=
  negb (remnant_of Name in_ value =? 0)
  || is_nil (pieces_of Name in_ value).

(** The remnant token of the display rendering of [value], when there is
    one, is no registered name. *)
Definition token_free (in_ : list BitfieldData) (value : Z) : bool :=
  negb (token_needed in_ value)
  || negb (is_registered in_ (ToString_fn2 (remnant_of Name in_ value))).

(** What [MarshalEnumToJSON] writes for a row: its explicit literal, or
    its display name as a JSON string. *)
Definition enum_json (quote : string -> string) (row : Enum.EnumData)
  : string :=
  match Enum.JSON row with
  | Some j => j
  | None => quote (Enum.Name row)
  end.

(** The row has the explicit JSON literal [raw]. *)
Definition has_literal (raw : string) (row : Enum.EnumData) : bool :=
  match Enum.JSON row with
  | Some j => String.eqb raw j
  | None => false
  end.

(** The OR of the set bits that have the name a rendering prints. *)
Definition named_mask (name : BitfieldData -> string)
    (in_ : list BitfieldData) (value : Z) : Z :=
  fold_right Z.lor 0
    (map (Z.shiftl 1)
       (List.filter (fun i => negb (is_empty (name (slot in_ i))))
          (set_bits value))).

(** Every registered name of the first 64 descriptors of the table is an
    ASCII string: the tables on which [Go.ToLower] is [strings.ToLower]. *)
Definition ascii_table (in_ : list BitfieldData) : bool :=
  forallb (fun d => forallb Go.is_ascii (registered d)) (take 64 in_).

(** Every name of every row is an ASCII string: the enum tables on which
    [Go.EqualFold] is [strings.EqualFold] for an ASCII input. *)
Definition ascii_rows (rows : list Enum.EnumData) : bool :=
  forallb (fun row => forallb Go.is_ascii (enum_names row)) rows.

(** Every bit set in [value] has the name a rendering prints. *)
Definition all_named (name : BitfieldData -> string)
    (in_ : list BitfieldData) (value : Z) : bool :=
  forallb (fun i => negb (is_empty (name (slot in_ i)))) (set_bits value).

End Spec.

(* ===================================================================== *)
(** * Part V: facts about the constructor                                *)
(* ===================================================================== *)

Lemma indices64_range : Forall (fun i => 0 <= i < 64) indices64.
Proof.
  apply list.Forall_forall. intros i Hi. unfold indices64 in Hi.
  apply elem_of_seqZ in Hi. lia.
Qed.

Section Construction.

Import Bitfield Spec.

Variable typeName : string.
Variable in_ : list BitfieldData.

Lemma step_data (index : Z) :
  0 <= index < 64 ->
  (if index <? table_length in_
   then default zero_data (in_ !! Z.to_nat index)
   else zero_data) = slot in_ index.
Proof.
  intros Hi. unfold slot, table_length.
  destruct (index <? _) eqn:E; [reflexivity|].
  apply Z.ltb_ge in E.
  destruct (64 <? Z.of_nat (length in_)) eqn:E64; [lia|].
  rewrite lookup_ge_None_2; [reflexivity | lia].
Qed.

Lemma fold_aliases (ptr : AnnotatedBitfieldData) (aliases : list string)
    (m : gmap string AnnotatedBitfieldData) :
  fold_left (fun m alias => put_name ptr alias m) aliases m
  = fold_left write
      (map (fun k => (k, ptr))
         (flat_map (fun n => [n; Go.ToLower n]) aliases)) m.
Proof.
  revert m. induction aliases as [|a l IH]; intros m; simpl; [reflexivity|].
  rewrite IH. reflexivity.
Qed.

(** One turn of the loop, on the four fields. *)
Lemma step_spec (out : BitfieldType) (index : Z) :
  0 <= index < 64 ->
  MakeBitfieldType_step in_ (table_length in_) out index
  = {| Type_ := Type_ out;
       Data := <[Z.to_nat index := Some (entry in_ index)]> (Data out);
       Names := Names out ++ names_at in_ index;
       ByName := fold_left write (bindings_at in_ index) (ByName out) |}.
Proof.
  intros Hi. unfold MakeBitfieldType_step.
  rewrite (step_data index Hi).
  unfold names_at, bindings_at, named, entry.
  destruct (is_empty (GoName (slot in_ index))
            && is_empty (Name (slot in_ index))) eqn:E; simpl.
  - rewrite app_nil_r. reflexivity.
  - f_equal. unfold keys, registered.
    rewrite fold_aliases.
    rewrite !flat_map_app, !map_app, !fold_left_app.
    destruct (is_empty (GoName (slot in_ index)));
      destruct (is_empty (Name (slot in_ index))); reflexivity.
Qed.

Lemma fold_step_spec (idx : list Z) (out : BitfieldType) :
  Forall (fun i => 0 <= i < 64) idx ->
  fold_left (MakeBitfieldType_step in_ (table_length in_)) idx out
  = {| Type_ := Type_ out;
       Data := fold_left
                 (fun ds i => <[Z.to_nat i := Some (entry in_ i)]> ds)
                 idx (Data out);
       Names := Names out ++ flat_map (names_at in_) idx;
       ByName := fold_left write (flat_map (bindings_at in_) idx)
                   (ByName out) |}.
Proof.
  revert out. induction idx as [|i idx IH]; intros out Hidx.
  - simpl. rewrite app_nil_r. destruct out; reflexivity.
  - inversion Hidx as [|? ? Hi Hrest]; subst.
    cbn [fold_left]. rewrite (step_spec out i Hi), (IH _ Hrest).
    cbn [Type_ Data Names ByName flat_map].
    rewrite fold_left_app, <- app_assoc. reflexivity.
Qed.

(** The four fields of a constructed type. *)
Lemma MakeBitfieldType_spec :
  MakeBitfieldType typeName in_
  = {| Type_ := typeName;
       Data := map (fun i => Some (entry in_ i)) indices64;
       Names := flat_map (names_at in_) indices64;
       ByName := fold_left write (bindings in_) ∅ |}.
Proof.
  unfold MakeBitfieldType. fold (table_length in_).
  rewrite (fold_step_spec _ _ indices64_range).
  reflexivity.
Qed.

End Construction.

(* ===================================================================== *)
(** * Part VI: Get, ForEach and the two renderings                       *)
(* ===================================================================== *)

Section Rendering.

Import Bitfield Spec.

Lemma indices64_seq : indices64 = map Z.of_nat (seq 0 64).
Proof. reflexivity. Qed.

Lemma MakeBitfieldType_Data (typeName : string) (in_ : list BitfieldData) :
  Data (MakeBitfieldType typeName in_) = map Some (entries in_).
Proof.
  rewrite MakeBitfieldType_spec. cbn [Data]. unfold entries.
  rewrite map_map. reflexivity.
Qed.

Lemma MakeBitfieldType_data_ok (typeName : string)
    (in_ : list BitfieldData) :
  data_ok (MakeBitfieldType typeName in_).
Proof.
  exists (entries in_). split.
  - unfold entries. rewrite length_map. reflexivity.
  - apply MakeBitfieldType_Data.
Qed.

Lemma entries_lookup (in_ : list BitfieldData) (index : Z) :
  0 <= index < 64 ->
  entries in_ !! Z.to_nat index = Some (entry in_ index).
Proof.
  intros Hi. unfold entries, indices64.
  rewrite list_lookup_fmap.
  rewrite (lookup_seqZ_lt 0 64 (Z.to_nat index)) by lia.
  simpl. f_equal. f_equal. lia.
Qed.

Variable bitfield : BitfieldType.
Variable ds : list AnnotatedBitfieldData.
Hypothesis Hlen : length ds = 64%nat.
Hypothesis Hdata : Data bitfield = map Some ds.

Lemma deref_ok (k : nat) (d : AnnotatedBitfieldData) :
  ds !! k = Some d -> deref bitfield (Z.of_nat k) = Returns d.
Proof.
  intros Hk. unfold deref. rewrite Hdata, Nat2Z.id.
  change (map Some ds) with (Some <$> ds).
  rewrite list_lookup_fmap, Hk. reflexivity.
Qed.

Lemma ForEach_loop_seq {S : Type} (fn : AnnotatedBitfieldData -> S -> S)
    (n k : nat) (st : S) :
  (k + n <= length ds)%nat ->
  ForEach_loop bitfield fn (map Z.of_nat (seq k n)) st
  = Returns (fold_left (fun st d => fn d st) (take n (drop k ds)) st).
Proof.
  revert k st. induction n as [|n IH]; intros k st Hk.
  - reflexivity.
  - destruct (lookup_lt_is_Some_2 ds k) as [d Hd]; [lia|].
    cbn [seq map ForEach_loop].
    rewrite (deref_ok k d Hd). cbn [bind].
    rewrite IH by lia.
    rewrite (drop_S ds d k Hd). reflexivity.
Qed.

(** [ForEach] visits the 64 entries in ascending index order and does
    not panic. *)
Lemma ForEach_fold {S : Type} (fn : AnnotatedBitfieldData -> S -> S)
    (st : S) :
  ForEach bitfield fn st = Returns (fold_left (fun st d => fn d st) ds st).
Proof.
  unfold ForEach. rewrite indices64_seq.
  rewrite ForEach_loop_seq by lia.
  rewrite drop_0, firstn_all2 by lia. reflexivity.
Qed.

End Rendering.

(** ** Strings: append, join *)

Section StringFacts.

Lemma append_nil_l (s : string) : "" +:+ s = s.
Proof. reflexivity. Qed.

Lemma append_cons (c : ascii) (s t : string) :
  String c s +:+ t = String c (s +:+ t).
Proof. reflexivity. Qed.

Lemma append_nil_r (s : string) : s +:+ "" = s.
Proof.
  induction s as [|c s IH]; [reflexivity|].
  rewrite append_cons, IH. reflexivity.
Qed.

Lemma append_assoc (s t u : string) : (s +:+ t) +:+ u = s +:+ (t +:+ u).
Proof.
  induction s as [|c s IH]; [reflexivity|].
  rewrite !append_cons, IH. reflexivity.
Qed.

Lemma length_append (s t : string) :
  String.length (s +:+ t) = (String.length s + String.length t)%nat.
Proof.
  induction s as [|c s IH]; [reflexivity|].
  rewrite append_cons. simpl. rewrite IH. reflexivity.
Qed.

Lemma append_not_empty_r (s t : string) : t <> "" -> s +:+ t <> "".
Proof.
  intros Ht H. apply (f_equal String.length) in H.
  rewrite length_append in H. destruct t; [congruence|].
  simpl in H. lia.
Qed.

Lemma is_empty_true (s : string) : Bitfield.is_empty s = true <-> s = "".
Proof. destruct s; simpl; split; congruence. Qed.

Lemma is_empty_false (s : string) : Bitfield.is_empty s = false <-> s <> "".
Proof. destruct s; simpl; split; congruence. Qed.

Lemma Join_cons (p : string) (ps : list string) (sep : string) :
  Go.Join (p :: ps) sep
  = match ps with
    | [] => p
    | _ :: _ => p +:+ sep +:+ Go.Join ps sep
    end.
Proof. reflexivity. Qed.

(** A join whose first piece is not empty is not empty. *)
Lemma Join_not_empty (p : string) (ps : list string) (sep : string) :
  p <> "" -> Go.Join (p :: ps) sep <> "".
Proof.
  intros Hp. rewrite Join_cons.
  destruct p as [|c p]; [congruence|].
  destruct ps; [discriminate|]. rewrite append_cons. discriminate.
Qed.

End StringFacts.

(** ** The scan of [toStringImpl] *)

Section Scan.

Import Bitfield Spec.

Variable value : Z.
Variable fn1 : AnnotatedBitfieldData -> string.

Lemma fold_lor (l : list Z) (r : Z) :
  fold_left Z.lor l r = Z.lor r (fold_right Z.lor 0 l).
Proof.
  revert r. induction l as [|x l IH]; intros r; simpl.
  - rewrite Z.lor_0_r. reflexivity.
  - rewrite IH, Z.lor_assoc. reflexivity.
Qed.

Lemma visit_step (d : AnnotatedBitfieldData) (pieces : list string)
    (remnant : Z) :
  toString_visit value fn1 d (pieces, remnant)
  = if bit_set value d
    then if has_piece fn1 d then (pieces ++ [fn1 d], remnant)
         else (pieces, Z.lor remnant (Bit d))
    else (pieces, remnant).
Proof.
  unfold toString_visit, bit_set, has_piece.
  destruct (negb _); [|reflexivity].
  destruct (is_empty (fn1 d)); reflexivity.
Qed.

Lemma visit_fold (ds : list AnnotatedBitfieldData)
    (pieces : list string) (remnant : Z) :
  fold_left (fun st d => toString_visit value fn1 d st) ds
    (pieces, remnant)
  = (pieces
     ++ map fn1 (List.filter (has_piece fn1)
                   (List.filter (bit_set value) ds)),
     fold_left Z.lor
       (map Bit (List.filter (fun d => negb (has_piece fn1 d))
                   (List.filter (bit_set value) ds)))
       remnant).
Proof.
  revert pieces remnant.
  induction ds as [|d ds IH]; intros pieces remnant.
  - simpl. rewrite app_nil_r. reflexivity.
  - cbn [fold_left List.filter]. rewrite visit_step.
    destruct (bit_set value d); [|apply IH].
    cbn [List.filter].
    destruct (has_piece fn1 d); cbn [negb map fold_left]; rewrite IH.
    + rewrite <- app_assoc. reflexivity.
    + reflexivity.
Qed.

(** [toStringImpl] on a type whose [Data] is complete: it returns, and
    what it returns is the rendering of the specification where a slot
    counts as named when [fn1] gives a name for it. *)
Lemma toStringImpl_render (bitfield : BitfieldType)
    (ds : list AnnotatedBitfieldData) (fn2 : Z -> string) :
  length ds = 64%nat ->
  Data bitfield = map Some ds ->
  (forall r, fn2 r <> "") ->
  toStringImpl bitfield value fn1 fn2
  = Returns (render (has_piece fn1) fn1 fn2 value ds).
Proof.
  intros Hlen Hdata Hfn2. unfold toStringImpl.
  rewrite (ForEach_fold bitfield ds Hlen Hdata). cbn [bind].
  rewrite visit_fold, fold_lor, Z.lor_0_l, app_nil_l.
  unfold render. f_equal. f_equal.
  set (pieces := map fn1 _). set (remnant := fold_right Z.lor 0 _).
  replace (length pieces =? 0)%nat with (is_nil pieces)
    by (destruct pieces; reflexivity).
  destruct (negb (remnant =? 0) || is_nil pieces);
    [|rewrite app_nil_r; reflexivity].
  destruct (is_empty (fn2 remnant)) eqn:E; [|reflexivity].
  apply is_empty_true in E. destruct (Hfn2 _ E).
Qed.

(** On the entries of a constructed type, a bit is set in [value] when
    [Z.testbit] says so. *)
Lemma bit_set_entry (in_ : list BitfieldData) (index : Z) :
  0 <= index -> bit_set value (entry in_ index) = Z.testbit value index.
Proof.
  intros Hi. unfold bit_set, entry. cbn [Bit].
  rewrite Z.shiftl_1_l.
  destruct (Z.testbit value index) eqn:Et.
  - apply negb_true_iff, Z.eqb_neq. intros H0.
    apply (f_equal (fun z => Z.testbit z index)) in H0.
    rewrite Z.land_spec, Et, Z.pow2_bits_true, Z.bits_0 in H0 by lia.
    discriminate.
  - apply negb_false_iff, Z.eqb_eq. apply Z.bits_inj'. intros n Hn.
    rewrite Z.land_spec, Z.bits_0, Z.pow2_bits_eqb by lia.
    destruct (Z.eqb_spec index n); subst.
    + rewrite Et. reflexivity.
    + apply andb_false_r.
Qed.

Lemma filter_map_entry (in_ : list BitfieldData) (l : list Z) :
  Forall (fun i => 0 <= i < 64) l ->
  List.filter (bit_set value) (map (entry in_) l)
  = map (entry in_) (List.filter (Z.testbit value) l).
Proof.
  induction l as [|i l IH]; intros H; [reflexivity|].
  inversion H as [|? ? Hi Hl]; subst.
  cbn [map List.filter]. rewrite bit_set_entry by lia.
  destruct (Z.testbit value i); cbn [map]; rewrite IH by assumption;
    reflexivity.
Qed.

Lemma filter_entries (in_ : list BitfieldData) :
  List.filter (bit_set value) (entries in_)
  = map (entry in_) (List.filter (Z.testbit value) indices64).
Proof. unfold entries. apply filter_map_entry. exact indices64_range. Qed.

End Scan.

(** ** The renderings of a constructed type *)

Section Renderings.

Import Bitfield Spec.

Variable typeName : string.
Variable in_ : list BitfieldData.

Lemma MakeBitfieldType_Type :
  Type_ (MakeBitfieldType typeName in_) = typeName.
Proof. rewrite MakeBitfieldType_spec. reflexivity. Qed.

Lemma filter_map {A B : Type} (f : B -> bool) (g : A -> B) (l : list A) :
  List.filter f (map g l) = map g (List.filter (fun a => f (g a)) l).
Proof.
  induction l as [|a l IH]; [reflexivity|]. cbn [map List.filter].
  destruct (f (g a)); cbn [map]; rewrite IH; reflexivity.
Qed.

Lemma filter_negb_is_empty (name : BitfieldData -> string) (l : list Z) :
  List.filter (fun i => negb (negb (is_empty (name (slot in_ i))))) l
  = List.filter (fun i => is_empty (name (slot in_ i))) l.
Proof.
  apply filter_ext. intros i. apply negb_involutive.
Qed.

(** The rendering of the entries of a constructed type, on the table. *)
Lemma render_entries (name : BitfieldData -> string) (fn2 : Z -> string)
    (value : Z) :
  render (has_piece (fun d => name (bitfieldData d)))
    (fun d => name (bitfieldData d)) fn2 value (entries in_)
  = Go.Join (with_token (pieces_of name in_ value)
               (remnant_of name in_ value) fn2) "|".
Proof.
  unfold render, with_token, pieces_of, remnant_of, set_bits.
  rewrite filter_entries, !filter_map, !map_map.
  unfold has_piece. cbn [entry bitfieldData Bit].
  rewrite filter_negb_is_empty. reflexivity.
Qed.

Lemma ToGoString_fn2_not_empty (bitfield : BitfieldType) (r : Z) :
  ToGoString_fn2 bitfield r <> "".
Proof.
  unfold ToGoString_fn2.
  destruct (r =? 0); apply append_not_empty_r; discriminate.
Qed.

Lemma ToString_fn2_not_empty (r : Z) : ToString_fn2 r <> "".
Proof. unfold ToString_fn2. destruct (r =? 0); discriminate. Qed.

Lemma ToGoString_Make (value : Z) :
  ToGoString (MakeBitfieldType typeName in_) value
  = Returns
      (Go.Join
         (with_token (pieces_of GoName in_ value)
            (remnant_of GoName in_ value)
            (ToGoString_fn2 (MakeBitfieldType typeName in_))) "|").
Proof.
  unfold ToGoString.
  rewrite (toStringImpl_render value ToGoString_fn1 _ (entries in_)).
  - unfold ToGoString_fn1. rewrite render_entries. reflexivity.
  - unfold entries. rewrite length_map. reflexivity.
  - apply MakeBitfieldType_Data.
  - apply ToGoString_fn2_not_empty.
Qed.

Lemma ToString_Make (value : Z) :
  ToString (MakeBitfieldType typeName in_) value
  = Returns
      (Go.Join
         (with_token (pieces_of Name in_ value)
            (remnant_of Name in_ value) ToString_fn2) "|").
Proof.
  unfold ToString.
  rewrite (toStringImpl_render value ToString_fn1 _ (entries in_)).
  - unfold ToString_fn1. rewrite render_entries. reflexivity.
  - unfold entries. rewrite length_map. reflexivity.
  - apply MakeBitfieldType_Data.
  - apply ToString_fn2_not_empty.
Qed.

End Renderings.

(** ** Split and Join *)

Section SplitJoin.

Variable sep : ascii.

Lemma Split_not_nil (s : string) : Go.Split s sep <> [].
Proof.
  destruct s as [|c s]; simpl; [discriminate|].
  destruct (Ascii.eqb c sep); [discriminate|].
  destruct (Go.Split s sep); discriminate.
Qed.

(** Joining the pieces of a split gives the string back. *)
Lemma Join_Split (s : string) :
  Go.Join (Go.Split s sep) (String sep "") = s.
Proof.
  induction s as [|c s IH]; [reflexivity|].
  cbn [Go.Split].
  destruct (Ascii.eqb_spec c sep) as [->|Hne].
  - rewrite Join_cons.
    destruct (Go.Split s sep) eqn:E; [destruct (Split_not_nil s E)|].
    rewrite IH. reflexivity.
  - destruct (Go.Split s sep) as [|p ps] eqn:E;
      [destruct (Split_not_nil s E)|].
    rewrite Join_cons in IH. rewrite Join_cons.
    destruct ps; rewrite <- IH; reflexivity.
Qed.

(** No piece of a split holds the separator. *)
Lemma Split_no_sep (s : string) :
  Forall (fun p => Go.has_byte sep p = false) (Go.Split s sep).
Proof.
  induction s as [|c s IH]; [repeat constructor|].
  cbn [Go.Split].
  destruct (Ascii.eqb_spec c sep) as [->|Hne].
  - constructor; [reflexivity | exact IH].
  - destruct (Go.Split s sep) as [|p ps]; [inversion IH|].
    + repeat constructor. simpl.
      apply Ascii.eqb_neq in Hne. rewrite Hne. reflexivity.
    + inversion IH as [|? ? Hp Hps]; subst.
      constructor; [|exact Hps]. simpl.
      apply Ascii.eqb_neq in Hne. rewrite Hne, Hp. reflexivity.
Qed.

(** Splitting a join of separator-free pieces gives the pieces back. *)
Lemma Split_Join (ps : list string) :
  ps <> [] ->
  Forall (fun p => Go.has_byte sep p = false) ps ->
  Go.Split (Go.Join ps (String sep "")) sep = ps.
Proof.
  induction ps as [|p ps IH]; intros Hne Hall; [congruence|].
  inversion Hall as [|? ? Hp Hps]; subst. clear Hne Hall.
  rewrite Join_cons. destruct ps as [|q qs].
  - clear IH Hps. induction p as [|c p IHp]; [reflexivity|].
    simpl in Hp. apply orb_false_iff in Hp as [Hc Hp].
    cbn [Go.Split]. rewrite Hc, (IHp Hp). reflexivity.
  - specialize (IH ltac:(discriminate) Hps).
    induction p as [|c p IHp].
    + rewrite append_nil_l, append_cons, append_nil_l.
      cbn [Go.Split]. rewrite Ascii.eqb_refl, IH. reflexivity.
    + simpl in Hp. apply orb_false_iff in Hp as [Hc Hp].
      rewrite append_cons. cbn [Go.Split]. rewrite Hc, (IHp Hp).
      reflexivity.
Qed.

End SplitJoin.

(** ** FromString *)

Section FromStringFacts.

Import Bitfield Spec.

Variable bitfield : BitfieldType.

(** The loop of [FromString]: the values of the pieces that parse are
    ORed into the accumulator, the others give one error each, in the
    order of the pieces. *)
Lemma FromString_loop_spec (pieces : list string) (accum : Z)
    (errors : list error) :
  FromString_loop bitfield pieces accum errors
  = (Z.lor accum
       (fold_right Z.lor 0
          (map (piece_value bitfield)
             (List.filter (piece_ok bitfield) pieces))),
     errors
     ++ map (name_error bitfield)
          (List.filter (fun p => negb (piece_ok bitfield p)) pieces)).
Proof.
  revert accum errors.
  induction pieces as [|p ps IH]; intros accum errors.
  - simpl. rewrite Z.lor_0_r, app_nil_r. reflexivity.
  - cbn [FromString_loop List.filter].
    assert (Hok : piece_ok bitfield p = snd (parseItem bitfield p))
      by reflexivity.
    assert (Hval : piece_value bitfield p = fst (parseItem bitfield p))
      by reflexivity.
    destruct (parseItem bitfield p) as [u64 [|]];
      cbn [fst snd] in Hok, Hval; rewrite Hok; cbn [negb]; rewrite IH.
    + cbn [map fold_right]. rewrite Hval, Z.lor_assoc. reflexivity.
    + cbn [map]. rewrite <- app_assoc. reflexivity.
Qed.

Lemma FromString_ok (str : string) (u64 : Z) :
  parseItem bitfield str = (u64, true) ->
  FromString bitfield str = (u64, None).
Proof. intros H. unfold FromString. rewrite H. reflexivity. Qed.

Lemma FromString_split (str : string) :
  snd (parseItem bitfield str) = false ->
  FromString bitfield str
  = match bad_pieces bitfield str with
    | [] =>
        (fold_right Z.lor 0
           (map (piece_value bitfield) (good_pieces bitfield str)), None)
    | [p] => (0, Some (name_error bitfield p))
    | bad => (0, Some (MultiError (map (name_error bitfield) bad)))
    end.
Proof.
  intros H. unfold FromString.
  destruct (parseItem bitfield str) as [u64 b]. simpl in H. subst b.
  rewrite FromString_loop_spec, Z.lor_0_l, app_nil_l.
  unfold bad_pieces, good_pieces.
  destruct (List.filter (fun p => negb (piece_ok bitfield p))
              (Go.Split str "|")) as [|p [|q l]]; reflexivity.
Qed.

Lemma FromString_error_zero (str : string) (v : Z) (e : error) :
  FromString bitfield str = (v, Some e) -> v = 0.
Proof.
  destruct (parseItem bitfield str) as [u64 [|]] eqn:E.
  - rewrite (FromString_ok str u64 E). discriminate.
  - rewrite FromString_split by (rewrite E; reflexivity).
    destruct (bad_pieces bitfield str) as [|p [|q l]]; intros H;
      inversion H; reflexivity.
Qed.

End FromStringFacts.

(** ** Renderings are not empty *)

Section NotEmpty.

Import Bitfield Spec.

Lemma render_not_empty (fn1 : AnnotatedBitfieldData -> string)
    (fn2 : Z -> string) (value : Z) (ds : list AnnotatedBitfieldData) :
  (forall r, fn2 r <> "") ->
  render (has_piece fn1) fn1 fn2 value ds <> "".
Proof.
  intros Hfn2. unfold render.
  set (named := List.filter (has_piece fn1) _).
  set (remnant := fold_right Z.lor 0 _).
  assert (Hnamed : forall d, In d named -> fn1 d <> "").
  { intros d Hd. apply filter_In in Hd as [_ Hd].
    unfold has_piece in Hd. apply negb_true_iff in Hd.
    apply is_empty_false, Hd. }
  destruct named as [|d l]; cbn [map is_nil].
  - rewrite orb_true_r. cbn [app Go.Join]. apply Hfn2.
  - rewrite <- app_comm_cons. apply Join_not_empty.
    apply Hnamed. left. reflexivity.
Qed.

Lemma toStringImpl_not_empty (bitfield : BitfieldType) (value : Z)
    (fn1 : AnnotatedBitfieldData -> string) (fn2 : Z -> string) :
  data_ok bitfield ->
  (forall r, fn2 r <> "") ->
  exists s, toStringImpl bitfield value fn1 fn2 = Returns s /\ s <> "".
Proof.
  intros (ds & Hlen & Hdata) Hfn2.
  exists (render (has_piece fn1) fn1 fn2 value ds). split.
  - apply toStringImpl_render; assumption.
  - apply render_not_empty, Hfn2.
Qed.

End NotEmpty.

(** ** Get and DereferenceEnumData *)

Section Lookup.

Import Bitfield Spec.

Lemma Get_out_of_range (bitfield : BitfieldType) (index : Z) :
  64 <= index ->
  Get bitfield index
  = Panics (PanicError
              (InvalidBitfieldIndexError (Type_ bitfield) index 64)).
Proof.
  intros H. unfold Get.
  destruct (Z.leb_spec 64 index); [reflexivity | lia].
Qed.

Lemma Get_stored (bitfield : BitfieldType) (index : Z)
    (data : AnnotatedBitfieldData) :
  index < 64 ->
  Data bitfield !! Z.to_nat index = Some (Some data) ->
  Get bitfield index = Returns data.
Proof.
  intros H Hd. unfold Get, deref.
  destruct (Z.leb_spec 64 index); [lia|]. rewrite Hd. reflexivity.
Qed.

Lemma Get_Make (typeName : string) (in_ : list BitfieldData)
    (index : Z) :
  0 <= index < 64 ->
  Get (MakeBitfieldType typeName in_) index = Returns (entry in_ index).
Proof.
  intros H. apply Get_stored; [lia|].
  rewrite MakeBitfieldType_Data.
  change (map Some (entries in_)) with (Some <$> entries in_).
  rewrite list_lookup_fmap, entries_lookup by lia. reflexivity.
Qed.

Lemma Dereference_out_of_range (enumName : string)
    (enumData : list Enum.EnumData) (value : Z) :
  Z.of_nat (length enumData) <= value ->
  Enum.DereferenceEnumData enumName enumData value
  = Panics (PanicError
              (InvalidEnumValueError enumName value
                 (Z.of_nat (length enumData)))).
Proof.
  intros H. unfold Enum.DereferenceEnumData.
  destruct (Z.leb_spec (Z.of_nat (length enumData)) value);
    [reflexivity | lia].
Qed.

Lemma Dereference_stored (enumName : string)
    (enumData : list Enum.EnumData) (value : Z) :
  0 <= value < Z.of_nat (length enumData) ->
  exists row,
    enumData !! Z.to_nat value = Some row
    /\ Enum.DereferenceEnumData enumName enumData value = Returns row.
Proof.
  intros H. unfold Enum.DereferenceEnumData.
  destruct (Z.leb_spec (Z.of_nat (length enumData)) value); [lia|].
  destruct (lookup_lt_is_Some_2 enumData (Z.to_nat value)) as [row Hrow];
    [lia|].
  exists row. rewrite Hrow. split; reflexivity.
Qed.

End Lookup.

(** ** The JSON entry points *)

Section JSONFacts.

Import Bitfield.

Variable string_literal : string -> option string.

Lemma ParseEnum_error_zero (enumName : string)
    (enumData : list Enum.EnumData) (str : string) (v : Z) (e : error) :
  Enum.ParseEnum enumName enumData str = (v, Some e) -> v = 0.
Proof.
  unfold Enum.ParseEnum.
  destruct (Enum.ParseEnum_loop 0 enumData str); intros H; inversion H;
    reflexivity.
Qed.

Lemma FromJSON_error_zero (bitfield : BitfieldType) (raw : option string)
    (v : Z) (e : error) :
  FromJSON string_literal bitfield raw = Returns (v, Some e) -> v = 0.
Proof.
  unfold FromJSON. destruct raw as [raw|]; [|discriminate].
  destruct (String.eqb raw nullBytes); [intros H; inversion H; reflexivity|].
  destruct (Go.Unmarshal_string string_literal raw) as [str|].
  - intros H. inversion H as [H']. eapply FromString_error_zero, H'.
  - destruct (Go.Unmarshal_uint64 raw); intros H; inversion H; reflexivity.
Qed.

Lemma UnmarshalEnumFromJSON_error_zero (enumName : string)
    (enumData : list Enum.EnumData) (raw : option string)
    (v : Z) (e : error) :
  Enum.UnmarshalEnumFromJSON string_literal enumName enumData raw
  = Returns (v, Some e) ->
  v = 0.
Proof.
  unfold Enum.UnmarshalEnumFromJSON. destruct raw as [raw|]; [|discriminate].
  destruct (String.eqb raw nullBytes); [intros H; inversion H; reflexivity|].
  destruct (Enum.json_literal_loop 0 enumData raw); [discriminate|].
  destruct (Go.Unmarshal_string string_literal raw) as [str|].
  - intros H. inversion H as [H']. eapply ParseEnum_error_zero, H'.
  - destruct (Go.Unmarshal_uint64 raw) as [num|].
    + destruct (Z.of_nat (length enumData) <=? num); intros H;
        inversion H; reflexivity.
    + intros H; inversion H; reflexivity.
Qed.

End JSONFacts.

(** ** Case mapping *)

Section CaseFacts.

Lemma lower_byte_idem (c : ascii) :
  Go.lower_byte (Go.lower_byte c) = Go.lower_byte c.
Proof. destruct c as [[] [] [] [] [] [] [] []]; reflexivity. Qed.

Lemma ToLower_idem (s : string) : Go.ToLower (Go.ToLower s) = Go.ToLower s.
Proof.
  induction s as [|c s IH]; [reflexivity|].
  simpl. rewrite lower_byte_idem, IH. reflexivity.
Qed.

(** [EqualFold] is equality of the lower-case forms. *)
Lemma EqualFold_ToLower (s t : string) :
  Go.EqualFold s t = true <-> Go.ToLower s = Go.ToLower t.
Proof.
  revert t. induction s as [|a s IH]; intros [|b t]; simpl;
    try (split; [discriminate | discriminate]); [tauto|].
  rewrite andb_true_iff, Ascii.eqb_eq, IH. split.
  - intros [-> ->]. reflexivity.
  - intros H. inversion H. split; reflexivity.
Qed.

Lemma lower_byte_bar (c : ascii) :
  Ascii.eqb (Go.lower_byte c) "|" = Ascii.eqb c "|".
Proof. destruct c as [[] [] [] [] [] [] [] []]; reflexivity. Qed.

(** Lower-casing neither adds nor removes a bar. *)
Lemma has_bar_ToLower (s : string) :
  Go.has_byte "|" (Go.ToLower s) = Go.has_byte "|" s.
Proof.
  induction s as [|c s IH]; [reflexivity|].
  simpl. rewrite lower_byte_bar, IH. reflexivity.
Qed.

End CaseFacts.

(** ** The name index *)

Section NameIndex.

Import Bitfield Spec.

Lemma fold_write_Some (l : list (string * AnnotatedBitfieldData))
    (m : gmap string AnnotatedBitfieldData) (k : string)
    (v : AnnotatedBitfieldData) :
  fold_left write l m !! k = Some v -> In (k, v) l \/ m !! k = Some v.
Proof.
  revert m. induction l as [|[k' v'] l IH]; intros m H; [right; exact H|].
  cbn [fold_left] in H. apply IH in H as [H|H]; [left; right; exact H|].
  unfold write in H. cbn [fst snd] in H.
  destruct (decide (k' = k)) as [->|Hne].
  - rewrite lookup_insert_eq in H. inversion H. left. left. reflexivity.
  - rewrite lookup_insert_ne in H by exact Hne. right. exact H.
Qed.

Lemma fold_write_is_Some (l : list (string * AnnotatedBitfieldData))
    (m : gmap string AnnotatedBitfieldData) (k : string) :
  (is_Some (m !! k) \/ exists v, In (k, v) l) ->
  is_Some (fold_left write l m !! k).
Proof.
  revert m. induction l as [|[k' v'] l IH]; intros m H.
  - destruct H as [H|[v []]]. exact H.
  - cbn [fold_left]. apply IH.
    destruct H as [H|[v [H|H]]].
    + left. unfold write. cbn [fst snd].
      destruct (decide (k' = k)) as [->|Hne].
      * rewrite lookup_insert_eq. eexists. reflexivity.
      * rewrite lookup_insert_ne by exact Hne. exact H.
    + inversion H; subst. left. unfold write. cbn [fst snd].
      rewrite lookup_insert_eq. eexists. reflexivity.
    + right. exists v. exact H.
Qed.

Variable typeName : string.
Variable in_ : list BitfieldData.

Lemma In_keys (d : BitfieldData) (k : string) :
  In k (keys d)
  <-> exists n, In n (registered d) /\ (k = n \/ k = Go.ToLower n).
Proof.
  unfold keys. rewrite in_flat_map. split.
  - intros (n & Hn & Hk). exists n. split; [exact Hn|].
    destruct Hk as [Hk|[Hk|[]]]; [left | right]; congruence.
  - intros (n & Hn & Hk). exists n. split; [exact Hn|].
    destruct Hk as [->| ->]; [left | right; left]; reflexivity.
Qed.

Lemma In_indices64 (i : Z) : In i indices64 <-> 0 <= i < 64.
Proof.
  unfold indices64. rewrite <- list_elem_of_In, elem_of_seqZ. lia.
Qed.

Lemma In_bindings (k : string) (p : AnnotatedBitfieldData) :
  In (k, p) (bindings in_)
  <-> exists i n,
        0 <= i < 64 /\ named (slot in_ i) = true
        /\ In n (registered (slot in_ i))
        /\ (k = n \/ k = Go.ToLower n) /\ p = entry in_ i.
Proof.
  unfold bindings. rewrite in_flat_map. split.
  - intros (i & Hi & Hb). apply In_indices64 in Hi.
    unfold bindings_at in Hb.
    destruct (named (slot in_ i)) eqn:En; [|destruct Hb].
    apply in_map_iff in Hb as (k' & Heq & Hk). inversion Heq; subst.
    apply In_keys in Hk as (n & Hn & Hk).
    exists i, n. repeat split; try assumption; lia.
  - intros (i & n & Hi & En & Hn & Hk & ->).
    exists i. split; [apply In_indices64, Hi|].
    unfold bindings_at. rewrite En. apply in_map_iff.
    exists k. split; [reflexivity|]. apply In_keys. exists n. tauto.
Qed.

(** Every entry of the index is the bit of a named slot, under one of
    its registered names as given or in lower case. *)
Lemma ByName_Some (k : string) (p : AnnotatedBitfieldData) :
  ByName (MakeBitfieldType typeName in_) !! k = Some p ->
  exists i n,
    0 <= i < 64 /\ named (slot in_ i) = true
    /\ In n (registered (slot in_ i))
    /\ (k = n \/ k = Go.ToLower n) /\ p = entry in_ i.
Proof.
  rewrite MakeBitfieldType_spec. cbn [ByName]. intros H.
  apply fold_write_Some in H as [H|H].
  - apply In_bindings, H.
  - rewrite lookup_empty in H. discriminate.
Qed.

(** Every registered name of a named slot is in the index, as given
    and in lower case. *)
Lemma ByName_registered (i : Z) (n : string) :
  0 <= i < 64 -> named (slot in_ i) = true ->
  In n (registered (slot in_ i)) ->
  is_Some (ByName (MakeBitfieldType typeName in_) !! n)
  /\ is_Some (ByName (MakeBitfieldType typeName in_) !! Go.ToLower n).
Proof.
  intros Hi En Hn. rewrite MakeBitfieldType_spec. cbn [ByName].
  split; apply fold_write_is_Some; right; exists (entry in_ i);
    apply In_bindings; exists i, n; tauto.
Qed.

End NameIndex.

(** ** Lookup in the name index *)

Section LookupFacts.

Import Bitfield Spec.

Variable typeName : string.
Variable in_ : list BitfieldData.

Lemma case_equal_spec (s t : string) :
  case_equal s t = true <-> Go.ToLower s = Go.ToLower t.
Proof. unfold case_equal. apply String.eqb_eq. Qed.

Lemma is_registered_spec (str : string) :
  is_registered in_ str = true
  <-> exists i n,
        0 <= i < 64 /\ named (slot in_ i) = true
        /\ In n (registered (slot in_ i))
        /\ Go.ToLower str = Go.ToLower n.
Proof.
  unfold is_registered, slot_registers. rewrite existsb_exists. split.
  - intros (i & Hi & H). apply In_indices64 in Hi.
    apply andb_true_iff in H as [En H].
    apply existsb_exists in H as (n & Hn & H).
    apply case_equal_spec in H. exists i, n. tauto.
  - intros (i & n & Hi & En & Hn & H). exists i.
    split; [apply In_indices64, Hi|]. rewrite En. simpl.
    apply existsb_exists. exists n. split; [exact Hn|].
    apply case_equal_spec, H.
Qed.

Lemma key_case (k n str : string) :
  (k = n \/ k = Go.ToLower n) ->
  (k = str \/ k = Go.ToLower str) ->
  Go.ToLower str = Go.ToLower n.
Proof.
  intros [-> | ->] [H | H].
  - congruence.
  - rewrite H, ToLower_idem. reflexivity.
  - rewrite <- H, ToLower_idem. reflexivity.
  - congruence.
Qed.


(** For a string that is no registered name, the lookups fall through
    to the zero test and the integer parse. *)
Lemma lookup_unregistered (str : string) :
  is_registered in_ str = false ->
  parseItem_lookup (MakeBitfieldType typeName in_) str
  = if String.eqb str "0" then (0, true)
    else match Go.ParseUint str 0 with
         | Some u64 => (u64, true)
         | None => (0, false)
         end.
Proof.
  intros H. unfold parseItem_lookup.
  destruct (ByName _ !! str) as [p|] eqn:E1.
  { apply ByName_Some in E1 as (j & m & Hj & Ej & Hm & Hk & _).
    assert (Hr : is_registered in_ str = true).
    { apply is_registered_spec. exists j, m. repeat split; try tauto.
      eapply key_case; [exact Hk | left; reflexivity]. }
    congruence. }
  destruct (ByName _ !! Go.ToLower str) as [p|] eqn:E2.
  { apply ByName_Some in E2 as (j & m & Hj & Ej & Hm & Hk & _).
    assert (Hr : is_registered in_ str = true).
    { apply is_registered_spec. exists j, m. repeat split; try tauto.
      eapply key_case; [exact Hk | right; reflexivity]. }
    congruence. }
  reflexivity.
Qed.

(** ** The list of names *)






End LookupFacts.

(** ** ParseEnum *)

Section ParseEnumFacts.

Import Spec.

Lemma EqualFold_case_equal (s t : string) :
  Go.EqualFold s t = case_equal s t.
Proof.
  apply eq_true_iff_eq.
  rewrite EqualFold_ToLower. unfold case_equal.
  rewrite String.eqb_eq. reflexivity.
Qed.

(** The test of [ParseEnum] on a row: the string is, up to case, the
    display name, the symbolic name or an alias of the row. *)
Lemma row_matches_spec (str : string) (row : Enum.EnumData) :
  Enum.row_matches str row = row_registers row str.
Proof.
  unfold Enum.row_matches, row_registers, enum_names. cbn [existsb].
  rewrite !EqualFold_case_equal, <- orb_assoc. do 2 f_equal.
  induction (Enum.Aliases row) as [|a l IH]; [reflexivity|].
  cbn [existsb]. rewrite EqualFold_case_equal, IH. reflexivity.
Qed.

(** The scan stops at the first row that matches. *)
Lemma ParseEnum_loop_spec (rows : list Enum.EnumData) (str : string)
    (k : Z) :
  match Enum.ParseEnum_loop k rows str with
  | Some i =>
      exists pre row post,
        rows = pre ++ row :: post
        /\ i = k + Z.of_nat (length pre)
        /\ row_registers row str = true
        /\ Forall (fun r => row_registers r str = false) pre
  | None => Forall (fun r => row_registers r str = false) rows
  end.
Proof.
  revert k. induction rows as [|row rows IH]; intros k; [constructor|].
  cbn [Enum.ParseEnum_loop]. rewrite row_matches_spec.
  destruct (row_registers row str) eqn:E.
  - exists [], row, rows. repeat split; [simpl; lia | exact E | constructor].
  - specialize (IH (k + 1)).
    destruct (Enum.ParseEnum_loop (k + 1) rows str) as [i|].
    + destruct IH as (pre & r & post & -> & -> & Hr & Hpre).
      exists (row :: pre), r, post.
      repeat split; [simpl length; lia | exact Hr |].
      constructor; assumption.
    + constructor; assumption.
Qed.

(** A string that is, up to case, a name of some row parses to the
    ordinal of the first such row. *)
Lemma ParseEnum_registered (enumName : string)
    (rows : list Enum.EnumData) (str : string) :
  existsb (fun row => row_registers row str) rows = true ->
  exists pre row post,
    rows = pre ++ row :: post
    /\ row_registers row str = true
    /\ Forall (fun r => row_registers r str = false) pre
    /\ Enum.ParseEnum enumName rows str
       = (Z.of_nat (length pre), None).
Proof.
  intros H. unfold Enum.ParseEnum.
  assert (Hspec := ParseEnum_loop_spec rows str 0).
  destruct (Enum.ParseEnum_loop 0 rows str) as [i|].
  - destruct Hspec as (pre & row & post & Hrows & -> & Hr & Hpre).
    exists pre, row, post. repeat split; assumption.
  - apply existsb_exists in H as (row & Hin & Hrow).
    rewrite List.Forall_forall in Hspec. rewrite (Hspec row Hin) in Hrow.
    discriminate.
Qed.


End ParseEnumFacts.

(** ** The unwrapping of parseItem *)

Section Unwrap.

Import Bitfield Spec.

Lemma HasPrefix_app (p x : string) : Go.HasPrefix (p +:+ x) p = true.
Proof.
  induction p as [|c p IH]; [destruct x; reflexivity|].
  rewrite append_cons. simpl. rewrite Ascii.eqb_refl, IH. reflexivity.
Qed.

Lemma substring_skip (a b : string) (m : nat) :
  String.substring (String.length a) m (a +:+ b) = String.substring 0 m b.
Proof.
  induction a as [|c a IH]; [reflexivity|].
  rewrite append_cons. simpl. exact IH.
Qed.

Lemma substring_prefix (a b : string) :
  String.substring 0 (String.length a) (a +:+ b) = a.
Proof.
  induction a as [|c a IH]; [destruct b; reflexivity|].
  rewrite append_cons. simpl. rewrite IH. reflexivity.
Qed.

Lemma HasSuffix_app (x suffix : string) :
  Go.HasSuffix (x +:+ suffix) suffix = true.
Proof.
  unfold Go.HasSuffix, Go.slice. rewrite length_append.
  apply andb_true_iff. split; [apply Nat.leb_le; lia|].
  replace (String.length x + String.length suffix
           - String.length suffix)%nat with (String.length x) by lia.
  replace (String.length x + String.length suffix - String.length x)%nat
    with (String.length suffix) by lia.
  rewrite substring_skip.
  rewrite <- (append_nil_r suffix) at 2.
  rewrite substring_prefix. apply String.eqb_refl.
Qed.

(** On a string of the form [x ++ ")"] that starts with the prefix,
    the slice [str[1 : len(str)-1]] is [x] without its first byte. *)
Lemma unwrap_slice (x : string) :
  x <> "" ->
  Go.slice (x +:+ ")") 1 (String.length (x +:+ ")") - 1) = tail x.
Proof.
  intros Hx. destruct x as [|c w]; [congruence|].
  unfold Go.slice. rewrite append_cons.
  cbn [String.length String.substring]. rewrite length_append.
  replace (S (String.length w + String.length ")") - 1 - 1)%nat
    with (String.length w) by (simpl; lia).
  apply substring_prefix.
Qed.

(** What [parseItem] looks up for [T(inner)]: the type name without
    its first byte, the parenthesis and [inner]; that is [inner] only
    for the empty type name. *)
Lemma unwrap_wrapper (bitfield : BitfieldType) (inner : string) :
  parseItem_unwrap bitfield (Type_ bitfield +:+ "(" +:+ inner +:+ ")")
  = tail (Type_ bitfield +:+ "(" +:+ inner).
Proof.
  unfold parseItem_unwrap.
  rewrite <- (append_assoc (Type_ bitfield) "(" (inner +:+ ")")).
  rewrite HasPrefix_app.
  rewrite <- (append_assoc (Type_ bitfield +:+ "(") inner ")").
  rewrite HasSuffix_app. cbn [andb String.length].
  rewrite unwrap_slice.
  - rewrite append_assoc. reflexivity.
  - intros H. apply (f_equal String.length) in H.
    rewrite !length_append in H. simpl in H. lia.
Qed.

Lemma unwrap_wrapper_empty (bitfield : BitfieldType) (inner : string) :
  Type_ bitfield = "" ->
  parseItem_unwrap bitfield (Type_ bitfield +:+ "(" +:+ inner +:+ ")")
  = inner.
Proof. intros H. rewrite unwrap_wrapper, H. reflexivity. Qed.

Lemma unwrap_wrapper_named (bitfield : BitfieldType) (inner : string) :
  Type_ bitfield <> "" ->
  parseItem_unwrap bitfield (Type_ bitfield +:+ "(" +:+ inner +:+ ")")
  <> inner.
Proof.
  intros H. rewrite unwrap_wrapper.
  destruct (Type_ bitfield) as [|c t]; [congruence|].
  rewrite append_cons. cbn [tail]. intros E.
  apply (f_equal String.length) in E.
  rewrite !length_append in E. simpl in E. lia.
Qed.

End Unwrap.

(** ** Strings that hold a bar *)

Section Bars.

Import Bitfield Spec.

Lemma has_byte_app (c : ascii) (a b : string) :
  Go.has_byte c (a +:+ b) = Go.has_byte c a || Go.has_byte c b.
Proof.
  induction a as [|x a IH]; [reflexivity|].
  rewrite append_cons. simpl. rewrite IH, orb_assoc. reflexivity.
Qed.

Lemma bar_not_digit (c : ascii) :
  Ascii.eqb c "|" = true ->
  Ascii.eqb c "_" = false
  /\ Go.digit_value c = None
  /\ Ascii.eqb c "0" = false
  /\ (Go.lower c =? 98) = false /\ (Go.lower c =? 111) = false
  /\ (Go.lower c =? 120) = false.
Proof.
  intros H. apply Ascii.eqb_eq in H. subst c. repeat split; reflexivity.
Qed.

(** The digit loop of [ParseUint] refuses a string that holds a bar. *)
Lemma parse_digits_bar (base0 : bool) (base : Z) (s : string) (n : Z) :
  Go.has_byte "|" s = true -> Go.parse_digits base0 base s n = None.
Proof.
  revert n. induction s as [|c s IH]; intros n H; [discriminate|].
  simpl in H. cbn [Go.parse_digits].
  destruct (Ascii.eqb c "|") eqn:Ec.
  - destruct (bar_not_digit c Ec) as (H1 & H2 & _).
    rewrite H1, H2. reflexivity.
  - simpl in H.
    destruct (Ascii.eqb c "_" && base0); [apply IH, H|].
    destruct (Go.digit_value c) as [d|]; [|reflexivity].
    destruct (base <=? d); [reflexivity|].
    destruct (Go.maxUint64 / base + 1 <=? n); [reflexivity|].
    destruct (Go.maxUint64 <? n * base + d); [reflexivity|].
    apply IH, H.
Qed.

(** [ParseUint] refuses a string that holds a bar. *)
Lemma ParseUint_bar (s : string) (base : Z) :
  Go.has_byte "|" s = true -> Go.ParseUint s base = None.
Proof.
  intros H. unfold Go.ParseUint.
  destruct s as [|c0 rest]; [reflexivity|].
  assert (Hd : forall b0 b digits,
             Go.has_byte "|" digits = true ->
             match Go.parse_digits b0 b digits 0 with
             | Some n =>
                 if b0 && Go.has_byte "_" digits
                    && negb (Go.underscoreOK (String c0 rest))
                 then None else Some n
             | None => None
             end = None).
  { intros b0 b digits Hb. rewrite parse_digits_bar by exact Hb.
    reflexivity. }
  destruct (base =? 0); [|apply Hd, H].
  destruct (Ascii.eqb c0 "0") eqn:E0; [|apply Hd, H].
  simpl in H. destruct (Ascii.eqb c0 "|") eqn:Ec0.
  { destruct (bar_not_digit c0 Ec0) as (_ & _ & H0 & _). congruence. }
  simpl in H.
  destruct rest as [|c1 [|c2 rest']]; try (apply Hd, H).
  assert (Hrest : Go.has_byte "|" (String c1 (String c2 rest')) = true)
    by exact H.
  destruct (Ascii.eqb c1 "|") eqn:Ec1.
  - destruct (bar_not_digit c1 Ec1) as (_ & _ & _ & Hb & Ho & Hx).
    rewrite Hb, Ho, Hx. apply Hd, Hrest.
  - assert (H2 : Go.has_byte "|" (String c2 rest') = true).
    { cbn [Go.has_byte] in H. rewrite Ec1 in H. exact H. }
    destruct (Go.lower c1 =? 98); [apply Hd, H2|].
    destruct (Go.lower c1 =? 111); [apply Hd, H2|].
    destruct (Go.lower c1 =? 120); [apply Hd, H2|].
    apply Hd, Hrest.
Qed.

End Bars.

(** ** Tokens and bars *)

Section Tokens.

Import Bitfield Spec.

Lemma Split_single (s : string) (sep : ascii) :
  Go.has_byte sep s = false -> Go.Split s sep = [s].
Proof.
  intros H. apply (Split_Join sep [s]); [discriminate|].
  constructor; [exact H | constructor].
Qed.

(** A string without a bar that does not parse as a token gives the
    single error for that string. *)
Lemma FromString_single_token (bitfield : BitfieldType) (str : string) :
  Go.has_byte "|" str = false ->
  snd (parseItem bitfield str) = false ->
  FromString bitfield str = (0, Some (name_error bitfield str)).
Proof.
  intros Hbar Hfail. rewrite FromString_split by exact Hfail.
  unfold bad_pieces. rewrite (Split_single str "|" Hbar).
  cbn [List.filter]. unfold piece_ok. rewrite Hfail. reflexivity.
Qed.

Lemma last_byte (s : string) :
  s <> "" -> exists s' e, s = s' +:+ String e "".
Proof.
  induction s as [|c s IH]; [congruence|]. intros _.
  destruct s as [|d s].
  - exists "", c. reflexivity.
  - destruct IH as (s' & e & Hs); [discriminate|].
    exists (String c s'), e. rewrite append_cons, <- Hs. reflexivity.
Qed.

Lemma slice_inner (x : string) (e : ascii) :
  x <> "" ->
  Go.slice (x +:+ String e "") 1 (String.length (x +:+ String e "") - 1)
  = tail x.
Proof.
  intros Hx. destruct x as [|c w]; [congruence|].
  unfold Go.slice. rewrite append_cons.
  cbn [String.length String.substring]. rewrite length_append.
  replace (S (String.length w + String.length (String e "")) - 1 - 1)%nat
    with (String.length w) by (simpl; lia).
  apply substring_prefix.
Qed.

(** Whatever [parseItem] strips from a string with a bar between two
    non-empty parts, the bar stays. *)
Lemma unwrap_keeps_bar (bitfield : BitfieldType) (p r : string) :
  p <> "" -> r <> "" ->
  Go.has_byte "|" (parseItem_unwrap bitfield (p +:+ "|" +:+ r)) = true.
Proof.
  intros Hp Hr. unfold parseItem_unwrap.
  destruct (Go.HasPrefix _ _ && Go.HasSuffix _ _).
  - destruct (last_byte r Hr) as (r' & e & ->).
    rewrite <- (append_assoc "|" r'), <- (append_assoc p).
    cbn [String.length]. rewrite slice_inner.
    + destruct p as [|c p']; [congruence|].
      rewrite append_cons. cbn [tail].
      rewrite has_byte_app. apply orb_true_iff. right. reflexivity.
    + intros H. apply (f_equal String.length) in H.
      rewrite !length_append in H. simpl in H. lia.
  - rewrite has_byte_app. apply orb_true_iff. right. reflexivity.
Qed.

Variable typeName : string.
Variable in_ : list BitfieldData.

Lemma bar_free_spec (i : Z) (n : string) :
  bar_free in_ = true ->
  0 <= i < 64 -> named (slot in_ i) = true ->
  In n (registered (slot in_ i)) ->
  Go.has_byte "|" n = false.
Proof.
  unfold bar_free. rewrite forallb_forall. intros H Hi En Hn.
  specialize (H i (proj2 (In_indices64 i) Hi)).
  rewrite En in H. cbn [negb orb] in H.
  rewrite forallb_forall in H. apply negb_true_iff, H, Hn.
Qed.

Lemma key_bar_free (k : string) (p : AnnotatedBitfieldData) :
  bar_free in_ = true ->
  ByName (MakeBitfieldType typeName in_) !! k = Some p ->
  Go.has_byte "|" k = false.
Proof.
  intros Hfree H.
  apply ByName_Some in H as (i & n & Hi & En & Hn & Hk & _).
  assert (Hb := bar_free_spec i n Hfree Hi En Hn).
  destruct Hk as [-> | ->]; [exact Hb|].
  rewrite has_bar_ToLower. exact Hb.
Qed.

(** With a table free of bars, a string that holds a bar fails every
    lookup of [parseItem]. *)
Lemma lookup_bar (str : string) :
  bar_free in_ = true ->
  Go.has_byte "|" str = true ->
  parseItem_lookup (MakeBitfieldType typeName in_) str = (0, false).
Proof.
  intros Hfree Hbar. unfold parseItem_lookup.
  destruct (ByName _ !! str) as [p|] eqn:E1.
  { apply (key_bar_free _ _ Hfree) in E1. congruence. }
  destruct (ByName _ !! Go.ToLower str) as [p|] eqn:E2.
  { apply (key_bar_free _ _ Hfree) in E2.
    rewrite has_bar_ToLower in E2. congruence. }
  destruct (String.eqb_spec str "0") as [->|_]; [discriminate|].
  rewrite ParseUint_bar by exact Hbar. reflexivity.
Qed.

End Tokens.

(** ** A value is the OR of its set bits *)

Section Bits.

Import Bitfield Spec.

Lemma testbit_fold_lor (l : list Z) (n : Z) :
  0 <= n -> Forall (fun i => 0 <= i < 64) l ->
  Z.testbit (fold_right Z.lor 0 (map (Z.shiftl 1) l)) n
  = existsb (Z.eqb n) l.
Proof.
  intros Hn. induction l as [|i l IH]; intros Hl.
  - simpl. apply Z.bits_0.
  - inversion Hl as [|? ? Hi Hl']; subst.
    cbn [map fold_right existsb]. rewrite Z.lor_spec, (IH Hl').
    rewrite Z.shiftl_1_l, Z.pow2_bits_eqb by lia.
    rewrite (Z.eqb_sym i n). reflexivity.
Qed.

Lemma filter_range (f : Z -> bool) (l : list Z) :
  Forall (fun i => 0 <= i < 64) l ->
  Forall (fun i => 0 <= i < 64) (List.filter f l).
Proof.
  intros H. apply List.Forall_forall. intros i Hi.
  apply filter_In in Hi as [Hi _].
  rewrite List.Forall_forall in H. apply H, Hi.
Qed.

Lemma set_bits_range (value : Z) :
  Forall (fun i => 0 <= i < 64) (set_bits value).
Proof. apply filter_range, indices64_range. Qed.

Lemma testbit_above (value n : Z) :
  0 <= value < 2 ^ 64 -> 64 <= n -> Z.testbit value n = false.
Proof.
  intros Hv Hn. destruct (Z.eq_dec value 0) as [->|Hne].
  - apply Z.bits_0.
  - apply Z.bits_above_log2; [lia|].
    assert (Z.log2 value < 64) by (apply Z.log2_lt_pow2; lia). lia.
Qed.

Lemma In_set_bits (value i : Z) :
  In i (set_bits value) <-> 0 <= i < 64 /\ Z.testbit value i = true.
Proof. unfold set_bits. rewrite filter_In, In_indices64. reflexivity. Qed.

(** A 64-bit value is the OR of the masks of its set bits. *)
Lemma set_bits_value (value : Z) :
  0 <= value < 2 ^ 64 ->
  fold_right Z.lor 0 (map (Z.shiftl 1) (set_bits value)) = value.
Proof.
  intros Hv. apply Z.bits_inj'. intros n Hn.
  rewrite (testbit_fold_lor (set_bits value) n Hn (set_bits_range value)).
  destruct (Z.testbit value n) eqn:Et.
  - apply existsb_exists. exists n. split; [|apply Z.eqb_refl].
    apply In_set_bits. split; [|exact Et].
    destruct (Z.lt_ge_cases n 64) as [Hlt|Hge]; [lia|].
    rewrite (testbit_above value n Hv Hge) in Et. discriminate.
  - destruct (existsb (Z.eqb n) (set_bits value)) eqn:Ee; [|reflexivity].
    exfalso. apply existsb_exists in Ee. destruct Ee as (i & Hi & Heq).
    apply Z.eqb_eq in Heq. subst i.
    apply In_set_bits in Hi. destruct Hi as [_ Hi].
    rewrite Hi in Et. discriminate.
Qed.

Lemma set_bits_not_nil (value : Z) :
  0 < value < 2 ^ 64 -> set_bits value <> [].
Proof.
  intros Hv E. assert (H := set_bits_value value ltac:(lia)).
  rewrite E in H. simpl in H. lia.
Qed.

End Bits.

(** ** Parsing a rendering made of symbolic names *)

Section SymbolicPieces.

Import Bitfield Spec.

Variable bitfield : BitfieldType.
Variable g : Z -> string.

Lemma piece_ok_eq (p : string) (u : Z) (b : bool) :
  parseItem bitfield p = (u, b) ->
  piece_ok bitfield p = b /\ piece_value bitfield p = u.
Proof. intros H. unfold piece_ok, piece_value. rewrite H. tauto. Qed.

Lemma pieces_resolve (l : list Z) :
  Forall (good_name bitfield g) l ->
  Forall (fun p => Go.has_byte "|" p = false) (map g l)
  /\ List.filter (fun p => negb (piece_ok bitfield p)) (map g l) = []
  /\ map (piece_value bitfield) (List.filter (piece_ok bitfield) (map g l))
     = map (Z.shiftl 1) l.
Proof.
  induction l as [|i l IH]; intros Hl.
  - repeat split; constructor.
  - inversion Hl as [|? ? Hi Hl']; subst.
    destruct (IH Hl') as (IH1 & IH2 & IH3).
    destruct Hi as (Hg & Hbar & Hp).
    destruct (piece_ok_eq _ _ _ Hp) as [Hok Hval].
    cbn [map List.filter]. rewrite Hok. cbn [negb map].
    rewrite Hval, IH2, IH3.
    repeat split. constructor; assumption.
Qed.

Hypothesis Hlookup_bar :
  forall s, Go.has_byte "|" s = true ->
            parseItem_lookup bitfield s = (0, false).

(** [FromString] on the join of the names of a non-empty list of good
    bits gives the OR of the bits. *)
Lemma FromString_symbolic (l : list Z) :
  l <> [] ->
  Forall (good_name bitfield g) l ->
  FromString bitfield (Go.Join (map g l) "|")
  = (fold_right Z.lor 0 (map (Z.shiftl 1) l), None).
Proof.
  intros Hne Hl.
  destruct (pieces_resolve l Hl) as (Hbar & Hbad & Hgood).
  destruct l as [|i [|j l]]; [congruence| |].
  - cbn [map Go.Join fold_right].
    inversion Hl as [|? ? (_ & _ & Hp) _]; subst.
    rewrite Z.lor_0_r. apply FromString_ok, Hp.
  - assert (Hfail : snd (parseItem bitfield
                            (Go.Join (map g (i :: j :: l)) "|")) = false).
    { inversion Hl as [|? ? (Hgi & _ & _) Hl']; subst.
      inversion Hl' as [|? ? (Hgj & _ & _) _]; subst.
      cbn [map]. rewrite Join_cons. unfold parseItem.
      rewrite Hlookup_bar; [reflexivity|].
      apply unwrap_keeps_bar; [exact Hgi|].
      apply Join_not_empty, Hgj. }
    rewrite FromString_split by exact Hfail.
    unfold bad_pieces, good_pieces.
    rewrite (Split_Join "|" (map g (i :: j :: l)) ltac:(discriminate) Hbar).
    rewrite Hbad, Hgood. reflexivity.
Qed.

End SymbolicPieces.

Section AllNamed.

Import Bitfield Spec.

Variable name : BitfieldData -> string.
Variable in_ : list BitfieldData.
Variable fn2 : Z -> string.

(** When every listed bit has a name, the pieces are the names and no
    remnant token is appended. *)
Lemma all_named_pieces (l : list Z) :
  l <> [] ->
  (forall i, In i l -> is_empty (name (slot in_ i)) = false) ->
  with_token
    (map (fun i => name (slot in_ i))
       (List.filter (fun i => negb (is_empty (name (slot in_ i)))) l))
    (fold_right Z.lor 0
       (map (Z.shiftl 1)
          (List.filter (fun i => is_empty (name (slot in_ i))) l)))
    fn2
  = map (fun i => name (slot in_ i)) l.
Proof.
  intros Hne Hall.
  assert (H1 : List.filter (fun i => negb (is_empty (name (slot in_ i))))
                 l = l).
  { clear Hne. induction l as [|i l IH]; [reflexivity|].
    cbn [List.filter]. rewrite (Hall i) by (left; reflexivity).
    cbn [negb]. f_equal. apply IH. intros k Hk. apply Hall. right. exact Hk. }
  assert (H2 : List.filter (fun i => is_empty (name (slot in_ i))) l = []).
  { clear Hne H1. induction l as [|i l IH]; [reflexivity|].
    cbn [List.filter]. rewrite (Hall i) by (left; reflexivity).
    apply IH. intros k Hk. apply Hall. right. exact Hk. }
  rewrite H1, H2. unfold with_token. cbn [map fold_right].
  destruct l as [|i l]; [congruence|].
  cbn [map is_nil]. cbn [Z.eqb negb orb]. apply app_nil_r.
Qed.

End AllNamed.

Lemma with_token_all_named (name : Bitfield.BitfieldData -> string)
    (in_ : list Bitfield.BitfieldData) (l : list Z) (fn2 : Z -> string)
    (value : Z) :
  l = Spec.set_bits value ->
  l <> [] ->
  (forall i, In i l ->
             Bitfield.is_empty (name (Spec.slot in_ i)) = false) ->
  Spec.with_token (Spec.pieces_of name in_ value)
    (Spec.remnant_of name in_ value) fn2
  = map (fun i => name (Spec.slot in_ i)) l.
Proof.
  intros -> Hne Hall. unfold Spec.pieces_of, Spec.remnant_of.
  apply all_named_pieces; assumption.
Qed.

Section RoundTrip.

Import Bitfield Spec.

Variable typeName : string.
Variable in_ : list BitfieldData.

Lemma resolves_spec (i : Z) :
  resolves typeName in_ i = true ->
  GoName (slot in_ i) <> ""
  /\ parseItem (MakeBitfieldType typeName in_) (GoName (slot in_ i))
     = (Z.shiftl 1 i, true).
Proof.
  unfold resolves.
  destruct (parseItem _ _) as [u b]. cbn [fst snd].
  rewrite !andb_true_iff, negb_true_iff, Z.eqb_eq.
  intros [[He ->] ->]. split; [apply is_empty_false, He | reflexivity].
Qed.

Lemma symbolic_ok_spec (value : Z) :
  symbolic_ok typeName in_ value = true
  <-> forall i, In i (set_bits value) -> resolves typeName in_ i = true.
Proof. unfold symbolic_ok. apply forallb_forall. Qed.

Lemma symbolic_name_bar_free (i : Z) :
  bar_free in_ = true -> 0 <= i < 64 -> GoName (slot in_ i) <> "" ->
  Go.has_byte "|" (GoName (slot in_ i)) = false.
Proof.
  intros Hfree Hi Hg. apply is_empty_false in Hg.
  apply (bar_free_spec in_ i); [exact Hfree | exact Hi | |].
  - unfold named. rewrite Hg. reflexivity.
  - unfold registered. rewrite Hg. left. reflexivity.
Qed.

(** The symbolic rendering of a value whose set bits all resolve is
    the join of their symbolic names. *)
Lemma ToGoString_symbolic (value : Z) :
  0 < value < 2 ^ 64 ->
  symbolic_ok typeName in_ value = true ->
  ToGoString (MakeBitfieldType typeName in_) value
  = Returns
      (Go.Join (map (fun i => GoName (slot in_ i)) (set_bits value)) "|").
Proof.
  intros Hv Hok. rewrite ToGoString_Make.
  rewrite (with_token_all_named GoName in_ (set_bits value)).
  - reflexivity.
  - reflexivity.
  - apply set_bits_not_nil, Hv.
  - intros i Hi. apply is_empty_false.
    apply (resolves_spec i), (proj1 (symbolic_ok_spec value) Hok i Hi).
Qed.

End RoundTrip.

(** ** Integer literals *)

Section Literals.

Import Spec.

Variable string_literal : string -> option string.

Lemma digit_not_space (c : ascii) :
  Go.is_digit c = true ->
  Go.is_json_space c = false /\ Ascii.eqb c Go.dquote = false
  /\ Ascii.eqb c "n" = false.
Proof.
  destruct c as [[] [] [] [] [] [] [] []]; intros H;
    try discriminate H; repeat split; reflexivity.
Qed.

Lemma trim_right_digits (s : string) :
  Go.all_digits s = true -> Go.trim_right s = s.
Proof.
  induction s as [|c s IH]; [reflexivity|]. simpl.
  intros H. apply andb_true_iff in H as [Hc Hs].
  rewrite (IH Hs). destruct s; [|reflexivity].
  destruct (digit_not_space c Hc) as [-> _]. reflexivity.
Qed.

Lemma literal_digits (raw : string) :
  Go.is_json_uint_literal raw = true ->
  exists c s, raw = String c s /\ Go.is_digit c = true
              /\ Go.all_digits raw = true.
Proof.
  destruct raw as [|c s]; [discriminate|]. intros H.
  exists c, s. split; [reflexivity|].
  assert (Hd : Go.all_digits (String c s) = true).
  { unfold Go.is_json_uint_literal in H.
    destruct (Ascii.eqb_spec c "0") as [->|Hne].
    - destruct s; [reflexivity | discriminate].
    - destruct c as [[] [] [] [] [] [] [] []]; try exact H;
        congruence. }
  split; [|exact Hd]. simpl in Hd.
  apply andb_true_iff in Hd as [Hc _]. exact Hc.
Qed.

(** White space trimming leaves an integer literal alone. *)
Lemma json_trim_literal (raw : string) :
  Go.is_json_uint_literal raw = true -> Go.json_trim raw = raw.
Proof.
  intros H. destruct (literal_digits raw H) as (c & s & -> & Hc & Hd).
  unfold Go.json_trim. cbn [Go.trim_left].
  destruct (digit_not_space c Hc) as [-> _].
  apply trim_right_digits, Hd.
Qed.

Lemma literal_not_null (raw : string) :
  Go.is_json_uint_literal raw = true -> String.eqb raw "null" = false.
Proof.
  intros H. destruct (literal_digits raw H) as (c & s & -> & Hc & _).
  destruct (digit_not_space c Hc) as (_ & _ & Hn).
  simpl. rewrite Hn. reflexivity.
Qed.

(** An integer literal does not decode as a JSON string. *)
Lemma Unmarshal_string_literal (raw : string) :
  Go.is_json_uint_literal raw = true ->
  Go.Unmarshal_string string_literal raw = None.
Proof.
  intros H. unfold Go.Unmarshal_string.
  rewrite (json_trim_literal raw H), (literal_not_null raw H).
  destruct (literal_digits raw H) as (c & s & -> & Hc & _).
  destruct (digit_not_space c Hc) as (_ & -> & _). reflexivity.
Qed.

(** An integer literal decodes as the integer it denotes. *)
Lemma Unmarshal_uint64_literal (raw : string) (n : Z) :
  uint_literal raw n -> Go.Unmarshal_uint64 raw = Some n.
Proof.
  intros [H Hn]. unfold Go.Unmarshal_uint64.
  rewrite (json_trim_literal raw H), (literal_not_null raw H), H.
  exact Hn.
Qed.

Lemma FromJSON_literal (bitfield : Bitfield.BitfieldType) (raw : string)
    (n : Z) :
  uint_literal raw n ->
  Bitfield.FromJSON string_literal bitfield (Some raw)
  = Returns (n, None).
Proof.
  intros H. unfold Bitfield.FromJSON, nullBytes.
  rewrite (literal_not_null raw (proj1 H)).
  rewrite (Unmarshal_string_literal raw (proj1 H)).
  rewrite (Unmarshal_uint64_literal raw n H). reflexivity.
Qed.

Lemma UnmarshalEnum_literal (enumName : string)
    (rows : list Enum.EnumData) (raw : string) (n : Z) :
  uint_literal raw n ->
  Enum.UnmarshalEnumFromJSON string_literal enumName rows (Some raw)
  = match Enum.json_literal_loop 0 rows raw with
    | Some index => Returns (index, None)
    | None =>
        if Z.of_nat (length rows) <=? n
        then Returns (0, Some (InvalidEnumValueError enumName n
                                 (Z.of_nat (length rows))))
        else Returns (n, None)
    end.
Proof.
  intros H. unfold Enum.UnmarshalEnumFromJSON, nullBytes.
  rewrite (literal_not_null raw (proj1 H)).
  destruct (Enum.json_literal_loop 0 rows raw); [reflexivity|].
  rewrite (Unmarshal_string_literal raw (proj1 H)).
  rewrite (Unmarshal_uint64_literal raw n H). reflexivity.
Qed.

End Literals.

(** ** FormatUint and ParseUint *)

Section FormatParse.

Import Spec.

Lemma digit_char_value (d : Z) :
  0 <= d < 36 ->
  Ascii.eqb (Go.digit_char d) "_" = false
  /\ Go.digit_value (Go.digit_char d) = Some d.
Proof.
  intros Hd.
  assert (Hall : forallb digit_ok (seqZ 0 36) = true)
    by (vm_compute; reflexivity).
  rewrite forallb_forall in Hall.
  assert (Hin : In d (seqZ 0 36)).
  { apply list_elem_of_In, elem_of_seqZ. lia. }
  specialize (Hall d Hin). unfold digit_ok in Hall.
  apply andb_true_iff in Hall as [H1 H2].
  apply negb_true_iff in H1. split; [exact H1|].
  destruct (Go.digit_value (Go.digit_char d)) as [d'|]; [|discriminate].
  apply Z.eqb_eq in H2. subst d'. reflexivity.
Qed.

Variable base0 : bool.
Variable base : Z.
Hypothesis Hbase : 2 <= base <= 36.

(** One digit of the loop of [ParseUint]. *)
Lemma parse_digit (d n : Z) (s : string) :
  0 <= d < base -> 0 <= n -> n * base + d <= Go.maxUint64 ->
  Go.parse_digits base0 base (String (Go.digit_char d) s) n
  = Go.parse_digits base0 base s (n * base + d).
Proof.
  intros Hd Hn Hmax. cbn [Go.parse_digits].
  destruct (digit_char_value d ltac:(lia)) as [-> ->]. cbn [andb].
  destruct (Z.leb_spec base d); [lia|].
  destruct (Z.leb_spec (Go.maxUint64 / base + 1) n) as [Hc|_].
  { assert (Hgt := Z.mul_succ_div_gt Go.maxUint64 base ltac:(lia)).
    assert (base * Z.succ (Go.maxUint64 / base) <= base * n)
      by (apply Z.mul_le_mono_nonneg_l; lia).
    lia. }
  destruct (Z.ltb_spec Go.maxUint64 (n * base + d)); [lia|]. reflexivity.
Qed.

(** Parsing what [FormatUint] prints, in front of [acc]. *)
Lemma parse_format_loop (fuel : nat) (x : Z) (acc : string) :
  0 <= x <= Go.maxUint64 -> x < base ^ Z.of_nat fuel ->
  Go.parse_digits base0 base (Go.format_loop fuel base x acc) 0
  = Go.parse_digits base0 base acc x.
Proof.
  revert x acc. induction fuel as [|fuel IH]; intros x acc Hx Hlt.
  - simpl in Hlt. assert (x = 0) by lia. subst x. reflexivity.
  - cbn [Go.format_loop].
    assert (Hmod : 0 <= x mod base < base) by (apply Z.mod_pos_bound; lia).
    assert (Hdiv : 0 <= x / base) by (apply Z.div_pos; lia).
    assert (Heq : x = x / base * base + x mod base).
    { rewrite Z.mul_comm. apply Z.div_mod. lia. }
    destruct (Z.eqb_spec (x / base) 0) as [H0|Hne].
    + rewrite parse_digit; [|exact Hmod | lia | lia].
      f_equal. rewrite H0 in Heq. lia.
    + rewrite IH.
      * rewrite parse_digit; [|exact Hmod | lia | lia].
        f_equal. lia.
      * split; [lia|]. apply Z.le_trans with x; [|lia].
        apply Z.div_le_upper_bound; nia.
      * apply Z.div_lt_upper_bound; [lia|].
        rewrite Nat2Z.inj_succ, Z.pow_succ_r in Hlt; lia.
Qed.

Lemma FormatUint_parse (x : Z) :
  0 <= x < 2 ^ 64 ->
  Go.parse_digits base0 base (Go.FormatUint x base) 0 = Some x.
Proof.
  intros Hx. unfold Go.FormatUint. rewrite parse_format_loop.
  - reflexivity.
  - unfold Go.maxUint64. lia.
  - apply Z.lt_le_trans with (2 ^ 64); [lia|].
    apply Z.pow_le_mono_l. lia.
Qed.

End FormatParse.

Section Decimal.

Import Spec.

Lemma decimal_digit (d : Z) :
  0 <= d < 10 ->
  Go.is_digit (Go.digit_char d) = true
  /\ (d <> 0 -> Ascii.eqb (Go.digit_char d) "0" = false).
Proof.
  intros Hd.
  assert (Hall : forallb decimal_ok (seqZ 0 10) = true)
    by (vm_compute; reflexivity).
  rewrite forallb_forall in Hall.
  assert (Hin : In d (seqZ 0 10)).
  { apply list_elem_of_In, elem_of_seqZ. lia. }
  specialize (Hall d Hin). unfold decimal_ok in Hall.
  apply andb_true_iff in Hall as [H1 H2]. split; [exact H1|].
  intros Hne. apply orb_true_iff in H2 as [H2|H2].
  - apply Z.eqb_eq in H2. contradiction.
  - apply negb_true_iff, H2.
Qed.

Lemma format_loop_all_digits (fuel : nat) (x : Z) (acc : string) :
  Go.all_digits acc = true ->
  Go.all_digits (Go.format_loop fuel 10 x acc) = true.
Proof.
  revert x acc. induction fuel as [|fuel IH]; intros x acc Hacc;
    [exact Hacc|].
  cbn [Go.format_loop].
  assert (Hmod : 0 <= x mod 10 < 10) by (apply Z.mod_pos_bound; lia).
  assert (Hd : Go.all_digits (String (Go.digit_char (x mod 10)) acc)
               = true).
  { simpl. rewrite (proj1 (decimal_digit _ Hmod)), Hacc. reflexivity. }
  destruct (x / 10 =? 0); [exact Hd | apply IH, Hd].
Qed.

Lemma format_loop_head (fuel : nat) (x : Z) (acc : string) :
  0 < x < 10 ^ Z.of_nat fuel ->
  exists c s,
    Go.format_loop fuel 10 x acc = String c s
    /\ Ascii.eqb c "0" = false.
Proof.
  revert x acc. induction fuel as [|fuel IH]; intros x acc Hx.
  - simpl in Hx. lia.
  - cbn [Go.format_loop].
    assert (Hmod : 0 <= x mod 10 < 10) by (apply Z.mod_pos_bound; lia).
    assert (Heq : x = 10 * (x / 10) + x mod 10) by (apply Z.div_mod; lia).
    assert (Hdiv : 0 <= x / 10) by (apply Z.div_pos; lia).
    destruct (Z.eqb_spec (x / 10) 0) as [H0|Hne].
    + eexists _, _. split; [reflexivity|].
      apply (decimal_digit _ Hmod). lia.
    + apply IH. split; [lia|].
      apply Z.div_lt_upper_bound; [lia|].
      rewrite Nat2Z.inj_succ, Z.pow_succ_r in Hx; lia.
Qed.

Lemma is_json_uint_literal_cons (c : ascii) (s : string) :
  Go.is_json_uint_literal (String c s)
  = if Ascii.eqb c "0" then Bitfield.is_empty s
    else Go.all_digits (String c s).
Proof.
  destruct c as [[] [] [] [] [] [] [] []]; reflexivity.
Qed.

Lemma format_loop_not_empty (fuel : nat) (base x : Z) (acc : string) :
  (fuel = 0%nat -> acc <> "") -> Go.format_loop fuel base x acc <> "".
Proof.
  revert x acc. induction fuel as [|fuel IH]; intros x acc H.
  - apply H. reflexivity.
  - cbn [Go.format_loop]. destruct (x / base =? 0); [discriminate|].
    apply IH. intros _. discriminate.
Qed.

(** The decimal rendering of a 64-bit value is a bare JSON
    unsigned-integer literal that denotes the value. *)
Lemma decimal_literal (n : Z) :
  0 <= n < 2 ^ 64 -> uint_literal (Go.FormatUint n 10) n.
Proof.
  intros Hn. split.
  - destruct (Z.eq_dec n 0) as [->|Hne]; [reflexivity|].
    destruct (format_loop_head 64 n "") as (c & s & Hs & Hc).
    { split; [lia|]. apply Z.lt_le_trans with (2 ^ 64); [lia|].
      change (Z.of_nat 64) with 64. apply Z.pow_le_mono_l. lia. }
    assert (Hd := format_loop_all_digits 64 n "" eq_refl).
    unfold Go.FormatUint. rewrite Hs in Hd |- *.
    rewrite is_json_uint_literal_cons, Hc. exact Hd.
  - assert (Hp := FormatUint_parse false 10 ltac:(lia) n Hn).
    unfold Go.ParseUint.
    destruct (Go.FormatUint n 10) as [|c0 rest] eqn:E.
    { apply format_loop_not_empty in E; [destruct E | discriminate]. }
    cbn [Z.eqb]. rewrite Hp. reflexivity.
Qed.

End Decimal.

(** ** Enum rows and their names *)

Section EnumNames.

Import Spec.


Lemma set_bits_zero : set_bits 0 = [].
Proof. reflexivity. Qed.

End EnumNames.

(** ** The explicit JSON literals of the rows *)

Section LiteralRows.

Import Spec.

(** The first loop of [UnmarshalEnumFromJSON] stops at the first row
    whose explicit literal is the raw input. *)
Lemma json_literal_loop_spec (rows : list Enum.EnumData) (raw : string)
    (k : Z) :
  match Enum.json_literal_loop k rows raw with
  | Some i =>
      exists pre row post,
        rows = pre ++ row :: post
        /\ i = k + Z.of_nat (length pre)
        /\ has_literal raw row = true
        /\ Forall (fun r => has_literal raw r = false) pre
  | None => Forall (fun r => has_literal raw r = false) rows
  end.
Proof.
  revert k. induction rows as [|row rows IH]; intros k; [constructor|].
  cbn [Enum.json_literal_loop].
  assert (Hrow : has_literal raw row
                 = match Enum.JSON row with
                   | Some j => String.eqb raw j
                   | None => false
                   end) by reflexivity.
  specialize (IH (k + 1)).
  destruct (Enum.JSON row) as [j|].
  - destruct (String.eqb raw j).
    + exists [], row, rows.
      repeat split; [simpl; lia | exact Hrow | constructor].
    + destruct (Enum.json_literal_loop (k + 1) rows raw) as [i|].
      * destruct IH as (pre & r & post & -> & -> & Hr & Hpre).
        exists (row :: pre), r, post.
        repeat split; [simpl length; lia | exact Hr |].
        constructor; assumption.
      * constructor; assumption.
  - destruct (Enum.json_literal_loop (k + 1) rows raw) as [i|].
    + destruct IH as (pre & r & post & -> & -> & Hr & Hpre).
      exists (row :: pre), r, post.
      repeat split; [simpl length; lia | exact Hr |].
      constructor; assumption.
    + constructor; assumption.
Qed.

Lemma json_literal_loop_first (pre post : list Enum.EnumData)
    (row : Enum.EnumData) (raw : string) :
  Forall (fun r => has_literal raw r = false) pre ->
  has_literal raw row = true ->
  Enum.json_literal_loop 0 (pre ++ row :: post) raw
  = Some (Z.of_nat (length pre)).
Proof.
  intros Hpre Hrow.
  assert (H := json_literal_loop_spec (pre ++ row :: post) raw 0).
  destruct (Enum.json_literal_loop 0 (pre ++ row :: post) raw) as [i|].
  - destruct H as (pre' & row' & post' & Heq & -> & Hrow' & Hpre').
    assert (Hlen : length pre' = length pre); [|rewrite Hlen; f_equal; lia].
    destruct (Nat.lt_trichotomy (length pre) (length pre'))
      as [Hlt|[Heq'|Hgt]]; [| exact (eq_sym Heq') |]; exfalso.
    + assert (Hl : (pre' ++ row' :: post') !! length pre = Some row).
      { rewrite <- Heq, lookup_app_r by lia.
        rewrite Nat.sub_diag. reflexivity. }
      rewrite lookup_app_l in Hl by exact Hlt.
      rewrite List.Forall_forall in Hpre'.
      assert (Hin : In row pre')
        by (apply list_elem_of_In, list_elem_of_lookup; eauto).
      rewrite (Hpre' row Hin) in Hrow. discriminate.
    + assert (Hl : (pre ++ row :: post) !! length pre' = Some row').
      { rewrite Heq, lookup_app_r by lia.
        rewrite Nat.sub_diag. reflexivity. }
      rewrite lookup_app_l in Hl by exact Hgt.
      rewrite List.Forall_forall in Hpre.
      assert (Hin : In row' pre)
        by (apply list_elem_of_In, list_elem_of_lookup; eauto).
      rewrite (Hpre row' Hin) in Hrow'. discriminate.
  - rewrite List.Forall_forall in H.
    rewrite (H row) in Hrow; [discriminate|].
    apply in_or_app. right. left. reflexivity.
Qed.

(** Without a row whose explicit literal is the raw input the loop
    finds nothing. *)
Lemma json_literal_loop_none (rows : list Enum.EnumData) (raw : string) :
  Forall (fun r => has_literal raw r = false) rows ->
  Enum.json_literal_loop 0 rows raw = None.
Proof.
  intros Hrows.
  assert (H := json_literal_loop_spec rows raw 0).
  destruct (Enum.json_literal_loop 0 rows raw) as [i|]; [|reflexivity].
  destruct H as (pre & row & post & -> & _ & Hrow & _).
  rewrite List.Forall_forall in Hrows.
  rewrite (Hrows row) in Hrow; [discriminate|].
  apply in_or_app. right. left. reflexivity.
Qed.

End LiteralRows.

(* ===================================================================== *)
(** * Part VII: the claims                                               *)
(* ===================================================================== *)

Import Bitfield Spec.

(** A symbolic name resolves to its own bit when it does not have the
    shape of a wrapper and no other named slot writes it as a key. *)
Lemma symbolic_name_resolves (typeName : string)
    (in_ : list BitfieldData) (i : Z) :
  0 <= i < 64 ->
  GoName (slot in_ i) <> "" ->
  Go.HasPrefix (GoName (slot in_ i)) (typeName +:+ "(")
  && Go.HasSuffix (GoName (slot in_ i)) ")" = false ->
  (forall j, 0 <= j < 64 -> j <> i -> named (slot in_ j) = true ->
             ~ In (GoName (slot in_ i)) (keys (slot in_ j))) ->
  resolves typeName in_ i = true.
Proof.
  intros Hi Hg Hshape Hown.
  assert (He : is_empty (GoName (slot in_ i)) = false)
    by (apply is_empty_false, Hg).
  assert (En : named (slot in_ i) = true)
    by (unfold named; rewrite He; reflexivity).
  assert (Hn : In (GoName (slot in_ i)) (registered (slot in_ i)))
    by (unfold registered; rewrite He; left; reflexivity).
  assert (Hp : parseItem (MakeBitfieldType typeName in_)
                 (GoName (slot in_ i))
               = (Z.shiftl 1 i, true)).
  { unfold parseItem, parseItem_unwrap.
    rewrite MakeBitfieldType_Type, Hshape.
    unfold parseItem_lookup.
    destruct (ByName_registered typeName in_ i _ Hi En Hn) as [[p Hp] _].
    rewrite Hp.
    apply ByName_Some in Hp as (j & m & Hj & Ej & Hm & Hk & ->).
    destruct (Z.eq_dec j i) as [->|Hne]; [reflexivity|].
    destruct (Hown j Hj Hne Ej). apply In_keys. exists m. tauto. }
  unfold resolves. rewrite Hp, He. cbn [fst snd negb andb].
  rewrite Z.eqb_refl. reflexivity.
Qed.

(** C1, as amended.  For a type built by [MakeBitfieldType] from a table
    whose registered names hold no bar, and a value [0 < value < 2^64]
    whose set bits all carry a symbolic name that [parseItem] resolves to
    that bit, [ToGoString] returns a string that [FromString] parses back
    to the value, without error.  (Values that render with a remnant
    token are left out.) *)
Theorem symbolic_round_trip (typeName : string) (in_ : list BitfieldData)
    (value : Z) :
  0 < value < 2 ^ 64 ->
  bar_free in_ = true ->
  symbolic_ok typeName in_ value = true ->
  exists s,
    ToGoString (MakeBitfieldType typeName in_) value = Returns s
    /\ FromString (MakeBitfieldType typeName in_) s = (value, None).
Proof.
  intros Hv Hfree Hok. eexists. split.
  - apply ToGoString_symbolic; assumption.
  - rewrite (FromString_symbolic (MakeBitfieldType typeName in_)
               (fun i => GoName (slot in_ i))).
    + rewrite set_bits_value by lia. reflexivity.
    + intros s Hs. apply lookup_bar; assumption.
    + apply set_bits_not_nil, Hv.
    + apply List.Forall_forall. intros i Hi.
      destruct (resolves_spec typeName in_ i
                  (proj1 (symbolic_ok_spec typeName in_ value) Hok i Hi))
        as [Hg Hp].
      apply In_set_bits in Hi. destruct Hi as [Hi _].
      repeat split; [exact Hg | | exact Hp].
      apply symbolic_name_bar_free; assumption.
Qed.

(** C2, on the failing input.  For the type named ["Perm"], [parseItem]
    on ["Perm(0x8)"] does not look up the inner string ["0x8"] (which
    would give 8): it looks up ["erm(0x8"], and fails. *)
Theorem parseItem_wrapper_slip :
  parseItem_unwrap Examples.perm "Perm(0x8)" = "erm(0x8"
  /\ parseItem Examples.perm "Perm(0x8)" = (0, false)
  /\ parseItem_lookup Examples.perm "0x8" = (8, true).
Proof. vm_compute. repeat split. Qed.

(** C3, as amended.  Both renderings of a constructed type scan the bits
    0 to 63 in ascending order.  A set bit gives a piece when its slot
    has the name the rendering prints (the symbolic name for
    [ToGoString], the display name for [ToString]); every other set bit,
    also one whose slot has only the other name, is ORed into the
    remnant.  The remnant token is appended when the remnant is not zero
    or there is no piece, and the pieces are joined with a bar; for the
    value 0 the result is the token alone.  The last part states the
    same scan for any type whose [Data] holds its 64 entries [ds]. *)
Theorem rendering_scan (typeName : string) (in_ : list BitfieldData)
    (value : Z) :
  ToGoString (MakeBitfieldType typeName in_) value
  = Returns
      (Go.Join
         (with_token (pieces_of GoName in_ value)
            (remnant_of GoName in_ value)
            (ToGoString_fn2 (MakeBitfieldType typeName in_))) "|")
  /\ ToString (MakeBitfieldType typeName in_) value
     = Returns
         (Go.Join
            (with_token (pieces_of Name in_ value)
               (remnant_of Name in_ value) ToString_fn2) "|")
  /\ (forall r,
        ToGoString_fn2 (MakeBitfieldType typeName in_) r
        = if r =? 0 then typeName +:+ "(0)"
          else typeName +:+ "(0x" +:+ Go.FormatUint r 16 +:+ ")")
  /\ (forall r,
        ToString_fn2 r
        = if r =? 0 then "0" else "0x" +:+ Go.FormatUint r 16)
  /\ ToGoString (MakeBitfieldType typeName in_) 0
     = Returns (typeName +:+ "(0)")
  /\ ToString (MakeBitfieldType typeName in_) 0 = Returns "0"
  /\ (forall bitfield ds,
        length ds = 64%nat -> Data bitfield = map Some ds ->
        ToGoString bitfield value
        = Returns (render (has_piece ToGoString_fn1) ToGoString_fn1
                     (ToGoString_fn2 bitfield) value ds)
        /\ ToString bitfield value
           = Returns (render (has_piece ToString_fn1) ToString_fn1
                        ToString_fn2 value ds)).
Proof.
  split; [apply ToGoString_Make|].
  split; [apply ToString_Make|].
  split; [intros r; unfold ToGoString_fn2;
          rewrite MakeBitfieldType_Type; reflexivity|].
  split; [reflexivity|].
  split.
  { rewrite ToGoString_Make. unfold pieces_of, remnant_of.
    rewrite set_bits_zero. cbn. unfold ToGoString_fn2.
    rewrite MakeBitfieldType_Type. reflexivity. }
  split.
  { rewrite ToString_Make. unfold pieces_of, remnant_of.
    rewrite set_bits_zero. reflexivity. }
  intros bitfield ds Hlen Hdata. split.
  - apply toStringImpl_render;
      [exact Hlen | exact Hdata | apply ToGoString_fn2_not_empty].
  - apply toStringImpl_render;
      [exact Hlen | exact Hdata | apply ToString_fn2_not_empty].
Qed.

(** C4.  When the whole string does not parse as one token, [FromString]
    splits it at the bars, parses every piece, and: with no bad piece it
    returns the OR of the values of the pieces; with one bad piece it
    returns 0 and the [InvalidBitfieldNameError] of that piece (type
    name, piece, [Names]); with two or more it returns 0 and one combined
    error that holds the error of every bad piece in input order.  It
    fails exactly when some piece fails. *)
Theorem FromString_composite (bitfield : BitfieldType) (str : string) :
  snd (parseItem bitfield str) = false ->
  Go.Join (Go.Split str "|") "|" = str
  /\ Forall (fun p => Go.has_byte "|" p = false) (Go.Split str "|")
  /\ (bad_pieces bitfield str = [] ->
      FromString bitfield str
      = (fold_right Z.lor 0
           (map (piece_value bitfield) (good_pieces bitfield str)), None))
  /\ (forall p, bad_pieces bitfield str = [p] ->
      FromString bitfield str
      = (0, Some (InvalidBitfieldNameError (Type_ bitfield) p
                    (Names bitfield))))
  /\ ((2 <= length (bad_pieces bitfield str))%nat ->
      FromString bitfield str
      = (0, Some (MultiError
                    (map (fun p => InvalidBitfieldNameError
                                     (Type_ bitfield) p (Names bitfield))
                       (bad_pieces bitfield str)))))
  /\ (snd (FromString bitfield str) = None
      <-> bad_pieces bitfield str = []).
Proof.
  intros Hfail.
  split; [apply Join_Split|]. split; [apply Split_no_sep|].
  rewrite (FromString_split bitfield str Hfail).
  destruct (bad_pieces bitfield str) as [|p [|q l]].
  - repeat split; try reflexivity; try discriminate.
    cbn [length]. lia.
  - repeat split; try reflexivity; try discriminate.
    + intros p' H. inversion H. reflexivity.
    + cbn [length]. lia.
  - repeat split; try reflexivity; try discriminate.
Qed.


(** C6, as amended.  For [raw] a bare JSON unsigned-integer literal that
    denotes [n] within 64 bits: the bitfield [FromJSON] returns [n] and
    no error, whatever bits [n] sets.  [UnmarshalEnumFromJSON] returns
    the ordinal of the first row whose explicit JSON literal is
    byte-equal to [raw], when there is such a row; when no row has
    [raw] as its explicit literal it returns [n] for [n] below the row
    count, and 0 with [InvalidEnumValueError] (value [n], limit the row
    count) otherwise. *)
Theorem FromJSON_integer (string_literal : string -> option string)
    (bitfield : BitfieldType) (enumName : string)
    (rows : list Enum.EnumData) (raw : string) (n : Z) :
  uint_literal raw n ->
  FromJSON string_literal bitfield (Some raw) = Returns (n, None)
  /\ (Forall (fun r => has_literal raw r = false) rows ->
      n < Z.of_nat (length rows) ->
      Enum.UnmarshalEnumFromJSON string_literal enumName rows (Some raw)
      = Returns (n, None))
  /\ (Forall (fun r => has_literal raw r = false) rows ->
      Z.of_nat (length rows) <= n ->
      Enum.UnmarshalEnumFromJSON string_literal enumName rows (Some raw)
      = Returns (0, Some (InvalidEnumValueError enumName n
                            (Z.of_nat (length rows)))))
  /\ (forall pre row post,
        rows = pre ++ row :: post ->
        has_literal raw row = true ->
        Forall (fun r => has_literal raw r = false) pre ->
        Enum.UnmarshalEnumFromJSON string_literal enumName rows (Some raw)
        = Returns (Z.of_nat (length pre), None)).
Proof.
  intros H. split; [apply FromJSON_literal, H|].
  rewrite (UnmarshalEnum_literal string_literal enumName rows raw n H).
  repeat split.
  - intros Hnone Hn. rewrite (json_literal_loop_none rows raw Hnone).
    destruct (Z.leb_spec (Z.of_nat (length rows)) n);
      [lia | reflexivity].
  - intros Hnone Hn. rewrite (json_literal_loop_none rows raw Hnone).
    destruct (Z.leb_spec (Z.of_nat (length rows)) n);
      [reflexivity | lia].
  - intros pre row post -> Hrow Hpre.
    rewrite (json_literal_loop_first pre post row raw Hpre Hrow).
    reflexivity.
Qed.

(** C7.  On the raw input [null], the bitfield [FromJSON] and the enum
    [UnmarshalEnumFromJSON] return the value 0 together with
    [IsNullError], the error [IsNull] recognises. *)
Theorem FromJSON_null (string_literal : string -> option string)
    (bitfield : BitfieldType) (enumName : string)
    (enumData : list Enum.EnumData) :
  FromJSON string_literal bitfield (Some "null")
  = Returns (0, Some IsNullError)
  /\ Enum.UnmarshalEnumFromJSON string_literal enumName enumData
       (Some "null")
     = Returns (0, Some IsNullError)
  /\ IsNull (Some IsNullError) = true.
Proof. repeat split. Qed.

(** C8.  [Get] at an index of 64 or more panics with
    [InvalidBitfieldIndexError] carrying the index and the limit 64;
    below 64 it returns the stored entry, which for a constructed type
    is the annotated descriptor of that bit.  [DereferenceEnumData] at
    an ordinal of the row count or more panics with
    [InvalidEnumValueError] carrying the ordinal and the row count;
    below the row count it returns the row.  Both panic at the limit
    itself. *)
Theorem Get_Dereference_range :
  (forall bitfield index,
      64 <= index ->
      Get bitfield index
      = Panics (PanicError
                  (InvalidBitfieldIndexError (Type_ bitfield) index 64)))
  /\ (forall bitfield index data,
        index < 64 ->
        Data bitfield !! Z.to_nat index = Some (Some data) ->
        Get bitfield index = Returns data)
  /\ (forall typeName in_ index,
        0 <= index < 64 ->
        Get (MakeBitfieldType typeName in_) index
        = Returns {| bitfieldData := default zero_data
                                       (in_ !! Z.to_nat index);
                     Index := index; Bit := Z.shiftl 1 index |})
  /\ (forall enumName enumData value,
        Z.of_nat (length enumData) <= value ->
        Enum.DereferenceEnumData enumName enumData value
        = Panics (PanicError
                    (InvalidEnumValueError enumName value
                       (Z.of_nat (length enumData)))))
  /\ (forall enumName enumData value,
        0 <= value < Z.of_nat (length enumData) ->
        exists row,
          enumData !! Z.to_nat value = Some row
          /\ Enum.DereferenceEnumData enumName enumData value
             = Returns row)
  /\ (forall bitfield,
        Get bitfield 64
        = Panics (PanicError
                    (InvalidBitfieldIndexError (Type_ bitfield) 64 64)))
  /\ (forall enumName enumData,
        Enum.DereferenceEnumData enumName enumData
          (Z.of_nat (length enumData))
        = Panics (PanicError
                    (InvalidEnumValueError enumName
                       (Z.of_nat (length enumData))
                       (Z.of_nat (length enumData))))).
Proof.
  split; [exact Get_out_of_range|].
  split; [exact Get_stored|].
  split; [exact Get_Make|].
  split; [exact Dereference_out_of_range|].
  split; [exact Dereference_stored|].
  split.
  - intros bitfield. apply Get_out_of_range. lia.
  - intros enumName enumData. apply Dereference_out_of_range. lia.
Qed.

(** C9.  For every bitfield type whose [Data] is complete (every
    constructed type is, also one with the empty type name) and every
    value, [ToString] and [ToGoString] return, and what they return is
    not the empty string; the two remnant-token closures never give the
    empty string. *)
Theorem renderings_not_empty (bitfield : BitfieldType) (value : Z) :
  data_ok bitfield ->
  (exists s, ToString bitfield value = Returns s /\ s <> "")
  /\ (exists s, ToGoString bitfield value = Returns s /\ s <> "")
  /\ (forall r, ToString_fn2 r <> "")
  /\ (forall r, ToGoString_fn2 bitfield r <> "").
Proof.
  intros Hok. repeat split.
  - apply toStringImpl_not_empty;
      [exact Hok | apply ToString_fn2_not_empty].
  - apply toStringImpl_not_empty;
      [exact Hok | apply ToGoString_fn2_not_empty].
  - apply ToString_fn2_not_empty.
  - apply ToGoString_fn2_not_empty.
Qed.

(** C10.  Whenever the bitfield [FromString], the bitfield [FromJSON] or
    the enum [UnmarshalEnumFromJSON] returns an error, the value
    returned with it is 0. *)
Theorem error_value_zero (string_literal : string -> option string)
    (bitfield : BitfieldType) (enumName : string)
    (enumData : list Enum.EnumData) (v : Z) (e : error) :
  (forall str, FromString bitfield str = (v, Some e) -> v = 0)
  /\ (forall raw,
        FromJSON string_literal bitfield raw = Returns (v, Some e) ->
        v = 0)
  /\ (forall raw,
        Enum.UnmarshalEnumFromJSON string_literal enumName enumData raw
        = Returns (v, Some e) ->
        v = 0).
Proof.
  repeat split.
  - intros str. apply FromString_error_zero.
  - intros raw. apply FromJSON_error_zero.
  - intros raw. apply UnmarshalEnumFromJSON_error_zero.
Qed.

(* ===================================================================== *)
(** * Part VIII: the claims on concrete tables                           *)
(* ===================================================================== *)

(** The examples of the package documentation. *)
Example perm_FromString :
  FromString Examples.perm "read|write" = (3, None).
Proof. vm_compute. reflexivity. Qed.

Example perm_ToString :
  ToString Examples.perm 3 = Returns "read|write"
  /\ ToString Examples.perm 8 = Returns "0x8".
Proof. vm_compute. split; reflexivity. Qed.

Example color_ParseEnum :
  Enum.ParseEnum "Color" Examples.color "GREEN" = (1, None).
Proof. vm_compute. reflexivity. Qed.

Example color_Dereference :
  Enum.DereferenceEnumData "Color" Examples.color 5
  = Panics (PanicError (InvalidEnumValueError "Color" 5 3)).
Proof. vm_compute. reflexivity. Qed.

(** A remnant token of a type with a name does not parse back; with the
    empty type name it does. *)
Example remnant_token_named :
  ToGoString Examples.perm 8 = Returns "Perm(0x8)"
  /\ FromString Examples.perm "Perm(0x8)"
     = (0, Some (InvalidBitfieldNameError "Perm" "Perm(0x8)"
                   ["read"; "write"; "exec"]))
  /\ ToGoString Examples.perm 0 = Returns "Perm(0)"
  /\ fst (FromString Examples.perm "Perm(0)") = 0
  /\ snd (FromString Examples.perm "Perm(0)") <> None.
Proof. vm_compute. repeat split; discriminate. Qed.

Example remnant_token_unnamed :
  ToGoString (MakeBitfieldType "" []) 9 = Returns "(0x9)"
  /\ FromString (MakeBitfieldType "" []) "(0x9)" = (9, None).
Proof. vm_compute. split; reflexivity. Qed.

(** C1, counterexample: two bits share the symbolic name ["A"]; the
    rendering of bit 0 parses back as bit 1. *)
Lemma round_trip_twins :
  ToGoString Examples.twins 1 = Returns "A"
  /\ FromString Examples.twins "A" = (2, None)
  /\ FromString Examples.twins "A" <> (1, None).
Proof. vm_compute. repeat split; discriminate. Qed.

(** C1, witness: the read and exec bits of ["Perm"]. *)
Lemma symbolic_round_trip_witness :
  exists s,
    ToGoString Examples.perm 5 = Returns s
    /\ FromString Examples.perm s = (5, None).
Proof.
  apply (symbolic_round_trip "Perm" Examples.perm_bits 5);
    [lia | vm_compute; reflexivity | vm_compute; reflexivity].
Defined.

(** C3, counterexample: bit 0 of ["Half"] is set in 1 and its slot is
    named (it has a symbolic name), yet the display rendering gives no
    piece for it: the bit goes to the remnant.  The rendering worded
    with "slot is named" would give one empty piece. *)
Lemma rendering_half_named :
  slot_named (entry Examples.half_bits 0) = true
  /\ bit_set 1 (entry Examples.half_bits 0) = true
  /\ ToString Examples.half_named 1 = Returns "0x1"
  /\ ToString Examples.half_named 1
     <> Returns (render slot_named ToString_fn1 ToString_fn2 1
                   (entries Examples.half_bits)).
Proof. vm_compute. repeat split; discriminate. Qed.

(** C4, witness: two of three pieces are no names. *)
Lemma FromString_composite_witness :
  FromString Examples.perm "a|PermRead|b"
  = (0, Some (MultiError
                [InvalidBitfieldNameError "Perm" "a"
                   ["read"; "write"; "exec"];
                 InvalidBitfieldNameError "Perm" "b"
                   ["read"; "write"; "exec"]])).
Proof.
  destruct (FromString_composite Examples.perm "a|PermRead|b")
    as (_ & _ & _ & _ & H & _); [vm_compute; reflexivity|].
  rewrite H; [vm_compute; reflexivity | vm_compute; lia].
Defined.



(** C6, counterexample: the literal [0] is below the row count of
    ["Level"], but it is the explicit JSON literal of row 1. *)
Lemma enum_literal_row_wins :
  uint_literal "0" 0
  /\ 0 < Z.of_nat (length Examples.level)
  /\ Enum.UnmarshalEnumFromJSON Examples.plain_string_literal "Level"
       Examples.level (Some "0")
     = Returns (1, None).
Proof. vm_compute. repeat split. Qed.

(** C6, witness: the literal [24] sets two unnamed bits of ["Perm"];
    the literal [2] is the third colour, [7] is out of range, and the
    literal [0] is the explicit literal of row 1 of ["Level"], whose
    row 0 has another literal. *)
Lemma FromJSON_integer_witness :
  FromJSON Examples.plain_string_literal Examples.perm (Some "24")
  = Returns (24, None)
  /\ Enum.UnmarshalEnumFromJSON Examples.plain_string_literal "Color"
       Examples.color (Some "2")
     = Returns (2, None)
  /\ Enum.UnmarshalEnumFromJSON Examples.plain_string_literal "Color"
       Examples.color (Some "7")
     = Returns (0, Some (InvalidEnumValueError "Color" 7 3))
  /\ Enum.UnmarshalEnumFromJSON Examples.plain_string_literal "Level"
       Examples.level (Some "0")
     = Returns (1, None).
Proof.
  split; [|split; [|split]].
  - apply (FromJSON_integer Examples.plain_string_literal Examples.perm
             "Color" Examples.color "24" 24).
    split; vm_compute; reflexivity.
  - destruct (FromJSON_integer Examples.plain_string_literal
                Examples.perm "Color" Examples.color "2" 2)
      as (_ & H & _); [split; vm_compute; reflexivity|].
    apply H; [repeat constructor | vm_compute; reflexivity].
  - destruct (FromJSON_integer Examples.plain_string_literal
                Examples.perm "Color" Examples.color "7" 7)
      as (_ & _ & H & _); [split; vm_compute; reflexivity|].
    apply H; [repeat constructor | vm_compute; discriminate].
  - destruct (FromJSON_integer Examples.plain_string_literal
                Examples.perm "Level" Examples.level "0" 0)
      as (_ & _ & _ & H); [split; vm_compute; reflexivity|].
    apply (H [ {| Enum.GoName := "LevelHigh"; Enum.Name := "high";
                  Enum.JSON := Some "1"; Enum.Aliases := [] |} ]
             {| Enum.GoName := "LevelLow"; Enum.Name := "low";
                Enum.JSON := Some "0"; Enum.Aliases := [] |} []);
      [reflexivity | reflexivity | repeat constructor].
Defined.

(** C8, witness: the limit itself. *)
Lemma Get_Dereference_range_witness :
  Get Examples.perm 64
  = Panics (PanicError (InvalidBitfieldIndexError "Perm" 64 64))
  /\ exists row,
       Examples.color !! Z.to_nat 2 = Some row
       /\ Enum.DereferenceEnumData "Color" Examples.color 2 = Returns row.
Proof.
  destruct Get_Dereference_range as (H1 & _ & _ & _ & H5 & _).
  split.
  - apply (H1 Examples.perm 64). lia.
  - apply (H5 "Color" Examples.color 2). vm_compute.
    split; [discriminate | reflexivity].
Defined.

(** C9, witness: the empty type name and the empty table. *)
Lemma renderings_not_empty_witness :
  (exists s, ToString (MakeBitfieldType "" []) 0 = Returns s /\ s <> "")
  /\ (exists s,
        ToGoString (MakeBitfieldType "" []) 0 = Returns s /\ s <> "").
Proof.
  destruct (renderings_not_empty (MakeBitfieldType "" []) 0)
    as (H1 & H2 & _).
  - exists (entries []). split; vm_compute; reflexivity.
  - split; [exact H1 | exact H2].
Defined.

(** C10, witness: an unknown name. *)
Lemma error_value_zero_witness :
  FromString Examples.perm "bogus"
  = (0, Some (InvalidBitfieldNameError "Perm" "bogus"
                ["read"; "write"; "exec"]))
  /\ (0 : Z) = 0.
Proof.
  split; [vm_compute; reflexivity|].
  apply (proj1 (error_value_zero Examples.plain_string_literal
                  Examples.perm "Color" Examples.color 0
                  (InvalidBitfieldNameError "Perm" "bogus"
                     ["read"; "write"; "exec"])) "bogus").
  vm_compute. reflexivity.
Defined.

(* ===================================================================== *)
(** * Part IX: further properties of the constructor                     *)
(* ===================================================================== *)

Lemma indices64_lookup (n : nat) (j : Z) :
  indices64 !! n = Some j <-> j = Z.of_nat n /\ (n < 64)%nat.
Proof.
  unfold indices64. rewrite lookup_seqZ. split; intros [H1 H2]; split; lia.
Qed.

(** The indices after [j] in the loop are the larger ones. *)
Lemma indices64_split (j : Z) :
  0 <= j < 64 ->
  exists l1 l2,
    indices64 = l1 ++ j :: l2
    /\ (forall j', In j' l1 -> 0 <= j' < j)
    /\ (forall j', In j' l2 -> j < j' < 64).
Proof.
  intros Hj.
  destruct (in_split j indices64 (proj2 (In_indices64 j) Hj))
    as (l1 & l2 & Hsplit).
  exists l1, l2. split; [exact Hsplit|].
  assert (Hat : j = Z.of_nat (length l1)).
  { apply (indices64_lookup (length l1) j). rewrite Hsplit.
    rewrite lookup_app_r by lia. rewrite Nat.sub_diag. reflexivity. }
  split.
  - intros j' Hin. apply list_elem_of_In, list_elem_of_lookup in Hin.
    destruct Hin as [p Hp].
    assert (Hlt : (p < length l1)%nat) by (eapply lookup_lt_Some, Hp).
    assert (H : indices64 !! p = Some j').
    { rewrite Hsplit, lookup_app_l by exact Hlt. exact Hp. }
    apply indices64_lookup in H. lia.
  - intros j' Hin. apply list_elem_of_In, list_elem_of_lookup in Hin.
    destruct Hin as [p Hp].
    assert (H : indices64 !! (length l1 + S p)%nat = Some j').
    { rewrite Hsplit, lookup_app_r by lia.
      replace (length l1 + S p - length l1)%nat with (S p) by lia.
      exact Hp. }
    apply indices64_lookup in H. lia.
Qed.

Lemma flat_map_ext_Forall {A B : Type} (P : A -> Prop) (f g : A -> list B)
    (l : list A) :
  Forall P l -> (forall a, P a -> f a = g a) ->
  flat_map f l = flat_map g l.
Proof.
  intros Hl Hfg. induction Hl as [|a l Ha Hl IH]; [reflexivity|].
  cbn [flat_map]. rewrite (Hfg a Ha), IH. reflexivity.
Qed.

Lemma map_ext_Forall {A B : Type} (P : A -> Prop) (f g : A -> B)
    (l : list A) :
  Forall P l -> (forall a, P a -> f a = g a) -> map f l = map g l.
Proof.
  intros Hl Hfg. induction Hl as [|a l Ha Hl IH]; [reflexivity|].
  cbn [map]. rewrite (Hfg a Ha), IH. reflexivity.
Qed.

Lemma slot_take (in_ : list BitfieldData) (i : Z) :
  0 <= i < 64 -> slot (take 64 in_) i = slot in_ i.
Proof.
  intros Hi. unfold slot. rewrite lookup_take_lt by lia. reflexivity.
Qed.

(** X1.  [MakeBitfieldType] ignores the descriptors after the 64th: the
    type built from a table is the type built from its first 64
    entries. *)
Theorem MakeBitfieldType_truncates (typeName : string)
    (in_ : list BitfieldData) :
  MakeBitfieldType typeName in_ = MakeBitfieldType typeName (take 64 in_).
Proof.
  rewrite !MakeBitfieldType_spec.
  assert (He : forall i, 0 <= i < 64 -> entry in_ i = entry (take 64 in_) i).
  { intros i Hi. unfold entry. rewrite slot_take by exact Hi. reflexivity. }
  f_equal.
  - apply (map_ext_Forall _ _ _ _ indices64_range).
    intros i Hi. rewrite (He i Hi). reflexivity.
  - apply (flat_map_ext_Forall _ _ _ _ indices64_range).
    intros i Hi. unfold names_at. rewrite slot_take by exact Hi.
    reflexivity.
  - f_equal. unfold bindings.
    apply (flat_map_ext_Forall _ _ _ _ indices64_range).
    intros i Hi. unfold bindings_at.
    rewrite slot_take, (He i Hi) by exact Hi. reflexivity.
Qed.

(** X2.  The name index of a constructed type and its table of entries
    share their values: every value of [ByName] is the entry of [Data] at
    its own [Index], that index is below 64, its [Bit] is [1 << Index]
    and its slot is named; every registered name of a named slot is a
    key as it is given.  For a table of ASCII names moreover every key
    is one of the registered names of the slot of its value, as given
    or in lower case, and every registered name is a key in lower case
    too.  The aliases of a slot without symbolic and display name are
    no keys on behalf of that slot. *)
Theorem name_index_invariant (typeName : string) (in_ : list BitfieldData) :
  (forall k p,
      ByName (MakeBitfieldType typeName in_) !! k = Some p ->
      0 <= Index p < 64
      /\ Bit p = Z.shiftl 1 (Index p)
      /\ Data (MakeBitfieldType typeName in_) !! Z.to_nat (Index p)
         = Some (Some p)
      /\ named (bitfieldData p) = true
      /\ (ascii_table in_ = true ->
          exists n, In n (registered (bitfieldData p))
                    /\ (k = n \/ k = Go.ToLower n)))
  /\ (forall i n,
        0 <= i < 64 -> named (slot in_ i) = true ->
        In n (registered (slot in_ i)) ->
        is_Some (ByName (MakeBitfieldType typeName in_) !! n)
        /\ (ascii_table in_ = true ->
            is_Some (ByName (MakeBitfieldType typeName in_)
                       !! Go.ToLower n))).
Proof.
  split.
  - intros k p H.
    apply ByName_Some in H as (i & n & Hi & En & Hn & Hk & ->).
    cbn [entry Index Bit bitfieldData].
    repeat split; try lia; try assumption.
    + rewrite MakeBitfieldType_Data.
      change (map Some (entries in_)) with (Some <$> entries in_).
      rewrite list_lookup_fmap, entries_lookup by lia. reflexivity.
    + intros _. exists n. tauto.
  - intros i n Hi En Hn.
    destruct (ByName_registered typeName in_ i n Hi En Hn) as [H1 H2].
    split; [exact H1 | intros _; exact H2].
Qed.

(** ** Last write wins *)

Lemma fold_write_notin (l : list (string * AnnotatedBitfieldData))
    (m : gmap string AnnotatedBitfieldData) (k : string) :
  (forall v, ~ In (k, v) l) -> fold_left write l m !! k = m !! k.
Proof.
  revert m. induction l as [|[k' v'] l IH]; intros m H; [reflexivity|].
  cbn [fold_left]. rewrite IH.
  - unfold write. cbn [fst snd]. apply lookup_insert_ne.
    intros ->. apply (H v'). left. reflexivity.
  - intros v Hv. apply (H v). right. exact Hv.
Qed.

Lemma fold_write_Some_strong (l : list (string * AnnotatedBitfieldData))
    (m : gmap string AnnotatedBitfieldData) (k : string)
    (x : AnnotatedBitfieldData) :
  fold_left write l m !! k = Some x ->
  In (k, x) l \/ (m !! k = Some x /\ forall v, ~ In (k, v) l).
Proof.
  revert m. induction l as [|[k' v'] l IH]; intros m H.
  - right. split; [exact H | intros v []].
  - cbn [fold_left] in H. apply IH in H as [H|[H Hnot]].
    + left. right. exact H.
    + unfold write in H. cbn [fst snd] in H.
      destruct (decide (k' = k)) as [->|Hne].
      * rewrite lookup_insert_eq in H. inversion H; subst.
        left. left. reflexivity.
      * rewrite lookup_insert_ne in H by exact Hne. right.
        split; [exact H|]. intros v [Hv|Hv]; [congruence|].
        apply (Hnot v Hv).
Qed.

Lemma fold_write_const (l : list (string * AnnotatedBitfieldData))
    (m : gmap string AnnotatedBitfieldData) (k : string)
    (v : AnnotatedBitfieldData) :
  (forall k' v', In (k', v') l -> v' = v) ->
  In (k, v) l ->
  fold_left write l m !! k = Some v.
Proof.
  intros Hall Hin.
  destruct (fold_write_is_Some l m k) as [x Hx];
    [right; exists v; exact Hin|].
  rewrite Hx. f_equal.
  apply fold_write_Some_strong in Hx as [Hx|[_ Hnot]].
  - apply (Hall k x Hx).
  - destruct (Hnot v Hin).
Qed.

(** X3.  On a key collision the last write wins.  For a table of ASCII
    names, a key of the named slot [j] that no named slot of higher
    index writes is mapped to bit [j], whatever the slots of lower index
    register; the verbatim lookup of [parseItem] then gives that bit. *)
Theorem last_write_wins (typeName : string) (in_ : list BitfieldData)
    (j : Z) (k : string) :
  ascii_table in_ = true ->
  0 <= j < 64 ->
  named (slot in_ j) = true ->
  In k (keys (slot in_ j)) ->
  (forall j', j < j' < 64 -> named (slot in_ j') = true ->
              ~ In k (keys (slot in_ j'))) ->
  ByName (MakeBitfieldType typeName in_) !! k = Some (entry in_ j)
  /\ parseItem_lookup (MakeBitfieldType typeName in_) k
     = (Z.shiftl 1 j, true).
Proof.
  intros _ Hj En Hk Hlater.
  assert (H : ByName (MakeBitfieldType typeName in_) !! k
              = Some (entry in_ j)).
  { rewrite MakeBitfieldType_spec. cbn [ByName]. unfold bindings.
    destruct (indices64_split j Hj) as (l1 & l2 & -> & _ & Hl2).
    rewrite flat_map_app. cbn [flat_map].
    rewrite !fold_left_app.
    rewrite fold_write_notin.
    - apply fold_write_const.
      + intros k' v' Hin. unfold bindings_at in Hin. rewrite En in Hin.
        apply in_map_iff in Hin as (x & Hx & _). congruence.
      + unfold bindings_at. rewrite En. apply in_map_iff.
        exists k. split; [reflexivity | exact Hk].
    - intros v Hin. apply in_flat_map in Hin as (j' & Hj' & Hin).
      unfold bindings_at in Hin.
      destruct (named (slot in_ j')) eqn:En'; [|destruct Hin].
      apply in_map_iff in Hin as (x & Hx & Hkeys).
      inversion Hx; subst.
      apply (Hlater j' (Hl2 j' Hj') En' Hkeys). }
  split; [exact H|]. unfold parseItem_lookup. rewrite H. reflexivity.
Qed.

(** X3, witness: both slots of ["Twin"] write the key ["A"]; slot 1
    wins. *)
Lemma last_write_wins_witness :
  ByName Examples.twins !! "A" = Some (entry Examples.twin_bits 1)
  /\ parseItem_lookup Examples.twins "A" = (Z.shiftl 1 1, true).
Proof.
  apply (last_write_wins "Twin" Examples.twin_bits 1 "A").
  - reflexivity.
  - lia.
  - reflexivity.
  - vm_compute. auto.
  - intros j' Hj' En. exfalso.
    assert (Hz : slot Examples.twin_bits j' = zero_data).
    { unfold slot. rewrite lookup_ge_None_2; [reflexivity|]. simpl. lia. }
    rewrite Hz in En. discriminate.
Defined.

(* ===================================================================== *)
(** * Part X: further properties of the renderings                       *)
(* ===================================================================== *)

(** The scan of [toStringImpl] over a constructed type, on the table. *)
Lemma scan_Make (typeName : string) (in_ : list BitfieldData)
    (name : BitfieldData -> string) (value : Z) :
  ForEach (MakeBitfieldType typeName in_)
    (toString_visit value (fun d => name (bitfieldData d))) ([], 0)
  = Returns (pieces_of name in_ value, remnant_of name in_ value).
Proof.
  rewrite (ForEach_fold _ (entries in_)).
  - rewrite visit_fold, fold_lor, Z.lor_0_l, app_nil_l.
    unfold pieces_of, remnant_of, set_bits.
    rewrite filter_entries, !filter_map, !map_map.
    unfold has_piece. cbn [entry bitfieldData Bit].
    rewrite filter_negb_is_empty. reflexivity.
  - unfold entries. rewrite length_map. reflexivity.
  - apply MakeBitfieldType_Data.
Qed.

Lemma existsb_eqb_filter (f : Z -> bool) (n : Z) (l : list Z) :
  existsb (Z.eqb n) (List.filter f l) = existsb (Z.eqb n) l && f n.
Proof.
  induction l as [|i l IH]; [reflexivity|]. cbn [List.filter existsb].
  destruct (f i) eqn:E; cbn [existsb]; rewrite IH;
    destruct (Z.eqb_spec n i) as [->|Hne]; cbn [orb].
  - rewrite E. reflexivity.
  - reflexivity.
  - rewrite E, andb_false_r. reflexivity.
  - reflexivity.
Qed.

Lemma existsb_set_bits (value n : Z) :
  0 <= n ->
  existsb (Z.eqb n) (set_bits value) = Z.testbit value n && (n <? 64).
Proof.
  intros Hn. apply eq_true_iff_eq.
  rewrite existsb_exists, andb_true_iff, Z.ltb_lt. split.
  - intros (i & Hi & Heq). apply Z.eqb_eq in Heq. subst i.
    apply In_set_bits in Hi. split; [tauto | lia].
  - intros [Ht Hlt]. exists n. split; [|apply Z.eqb_refl].
    apply In_set_bits. split; [lia | exact Ht].
Qed.

Lemma testbit_mask (f : Z -> bool) (value n : Z) :
  0 <= n ->
  Z.testbit
    (fold_right Z.lor 0
       (map (Z.shiftl 1) (List.filter f (set_bits value)))) n
  = Z.testbit value n && (n <? 64) && f n.
Proof.
  intros Hn. rewrite testbit_fold_lor.
  - rewrite existsb_eqb_filter, existsb_set_bits by exact Hn. reflexivity.
  - exact Hn.
  - apply filter_range, set_bits_range.
Qed.

Lemma mask_range (f : Z -> bool) (value : Z) :
  0 <= fold_right Z.lor 0
         (map (Z.shiftl 1) (List.filter f (set_bits value))) < 2 ^ 64.
Proof.
  set (x := fold_right Z.lor 0 _).
  assert (H0 : 0 <= x).
  { subst x. induction (List.filter f (set_bits value)) as [|i l IH];
      [simpl; lia|].
    cbn [map fold_right]. apply Z.lor_nonneg. split; [|exact IH].
    apply Z.shiftl_nonneg. lia. }
  split; [exact H0|].
  destruct (Z.lt_ge_cases x (2 ^ 64)) as [Hlt|Hge]; [exact Hlt|].
  exfalso.
  assert (Hpos : 0 < x) by lia.
  assert (Hlog : 64 <= Z.log2 x) by (apply Z.log2_le_pow2; lia).
  assert (Hbit := Z.bit_log2 x Hpos).
  subst x. rewrite testbit_mask in Hbit by lia.
  destruct (Z.ltb_spec (Z.log2 (fold_right Z.lor 0
             (map (Z.shiftl 1) (List.filter f (set_bits value))))) 64);
    [lia|].
  rewrite andb_false_r in Hbit. discriminate.
Qed.

(** X4.  The scan of [toStringImpl] over a constructed type splits the
    value without loss: it returns the names of the set bits that have
    the printed name, and a remnant whose bit [n] is set exactly when bit
    [n] of the value is set, [n] is below 64 and slot [n] lacks that
    name.  For a 64-bit value the named bits and the remnant are disjoint
    and their OR is the value, and the remnant is again a 64-bit
    value. *)
Theorem scan_lossless (typeName : string) (in_ : list BitfieldData)
    (name : BitfieldData -> string) (value : Z) :
  0 <= value < 2 ^ 64 ->
  ForEach (MakeBitfieldType typeName in_)
    (toString_visit value (fun d => name (bitfieldData d))) ([], 0)
  = Returns (pieces_of name in_ value, remnant_of name in_ value)
  /\ (forall n, 0 <= n ->
        Z.testbit (remnant_of name in_ value) n
        = Z.testbit value n && (n <? 64)
          && is_empty (name (slot in_ n)))
  /\ Z.lor (named_mask name in_ value) (remnant_of name in_ value) = value
  /\ Z.land (named_mask name in_ value) (remnant_of name in_ value) = 0
  /\ 0 <= remnant_of name in_ value < 2 ^ 64.
Proof.
  intros Hv. split; [apply scan_Make|].
  split; [intros n Hn; apply testbit_mask, Hn|].
  split; [|split; [|apply mask_range]].
  - apply Z.bits_inj'. intros n Hn.
    unfold named_mask, remnant_of.
    rewrite Z.lor_spec, !testbit_mask by exact Hn.
    destruct (Z.ltb_spec n 64).
    + destruct (Z.testbit value n), (is_empty (name (slot in_ n)));
        reflexivity.
    + rewrite (testbit_above value n Hv) by lia. reflexivity.
  - apply Z.bits_inj'. intros n Hn.
    unfold named_mask, remnant_of.
    rewrite Z.land_spec, !testbit_mask, Z.bits_0 by exact Hn.
    destruct (Z.testbit value n), (n <? 64),
      (is_empty (name (slot in_ n))); reflexivity.
Qed.

(** X4, witness: the value 11 over ["Perm"]: bits 0 and 1 are named, bit
    3 is the remnant. *)
Lemma scan_lossless_witness :
  Z.lor (named_mask Name Examples.perm_bits 11)
    (remnant_of Name Examples.perm_bits 11) = 11.
Proof.
  apply (scan_lossless "Perm" Examples.perm_bits Name 11). lia.
Defined.

Lemma all_named_spec (name : BitfieldData -> string)
    (in_ : list BitfieldData) (value : Z) :
  all_named name in_ value = true
  <-> forall i, In i (set_bits value) ->
                is_empty (name (slot in_ i)) = false.
Proof.
  unfold all_named. rewrite forallb_forall.
  split; intros H i Hi; apply negb_true_iff, (H i Hi).
Qed.

(** X5.  When some bit below 64 is set and every set bit has a display
    name, [ToString] of a constructed type is the join of the display
    names of the set bits in ascending index order: one piece per set
    bit and no remnant token; likewise [ToGoString] with the symbolic
    names. *)
Theorem rendering_all_named (typeName : string) (in_ : list BitfieldData)
    (value : Z) :
  set_bits value <> [] ->
  (all_named Name in_ value = true ->
   ToString (MakeBitfieldType typeName in_) value
   = Returns
       (Go.Join (map (fun i => Name (slot in_ i)) (set_bits value)) "|"))
  /\ (all_named GoName in_ value = true ->
      ToGoString (MakeBitfieldType typeName in_) value
      = Returns
          (Go.Join (map (fun i => GoName (slot in_ i)) (set_bits value))
             "|")).
Proof.
  intros Hne. split; intros Hall.
  - rewrite ToString_Make.
    rewrite (with_token_all_named Name in_ (set_bits value));
      [reflexivity | reflexivity | exact Hne |].
    apply all_named_spec, Hall.
  - rewrite ToGoString_Make.
    rewrite (with_token_all_named GoName in_ (set_bits value));
      [reflexivity | reflexivity | exact Hne |].
    apply all_named_spec, Hall.
Qed.

(** X5, witness: read and exec. *)
Lemma rendering_all_named_witness :
  ToString Examples.perm 5 = Returns "read|exec".
Proof.
  destruct (rendering_all_named "Perm" Examples.perm_bits 5) as [H _].
  - vm_compute. discriminate.
  - unfold Examples.perm.
    rewrite H; [vm_compute; reflexivity | vm_compute; reflexivity].
Defined.

(* ===================================================================== *)
(** * Part XI: the display form round trip                               *)
(* ===================================================================== *)

(** ** Digits of FormatUint *)

Lemma digit_avoids_spec (c : ascii) (base d : Z) :
  digit_avoids c base = true -> 0 <= d < base ->
  Ascii.eqb (Go.digit_char d) c = false.
Proof.
  unfold digit_avoids. rewrite forallb_forall. intros H Hd.
  apply negb_true_iff, H, list_elem_of_In, elem_of_seqZ. lia.
Qed.

Lemma format_loop_avoids (c : ascii) (base : Z) (fuel : nat) (x : Z)
    (acc : string) :
  0 < base -> digit_avoids c base = true ->
  Go.has_byte c acc = false ->
  Go.has_byte c (Go.format_loop fuel base x acc) = false.
Proof.
  intros Hbase Hav. revert x acc.
  induction fuel as [|fuel IH]; intros x acc Hacc; [exact Hacc|].
  cbn [Go.format_loop].
  assert (Hd : Go.has_byte c (String (Go.digit_char (x mod base)) acc)
               = false).
  { cbn [Go.has_byte].
    rewrite (digit_avoids_spec c base _ Hav (Z.mod_pos_bound x base Hbase)).
    exact Hacc. }
  destruct (x / base =? 0); [exact Hd | apply IH, Hd].
Qed.

Lemma FormatUint_avoids (c : ascii) (base x : Z) :
  0 < base -> digit_avoids c base = true ->
  Go.has_byte c (Go.FormatUint x base) = false.
Proof.
  intros Hbase Hav. unfold Go.FormatUint.
  apply format_loop_avoids; [exact Hbase | exact Hav | reflexivity].
Qed.

(** [ParseUint] with base 0 reads the hexadecimal rendering back. *)
Lemma ParseUint_hex (r : Z) :
  0 <= r < 2 ^ 64 ->
  Go.ParseUint ("0x" +:+ Go.FormatUint r 16) 0 = Some r.
Proof.
  intros Hr.
  assert (Hp := FormatUint_parse true 16 ltac:(lia) r Hr).
  assert (Hu := FormatUint_avoids "_" 16 r ltac:(lia) eq_refl).
  assert (Hne : Go.FormatUint r 16 <> "")
    by (apply format_loop_not_empty; discriminate).
  destruct (Go.FormatUint r 16) as [|c2 rest'] eqn:E; [congruence|].
  change ("0x" +:+ String c2 rest')
    with (String "0" (String "x" (String c2 rest'))).
  unfold Go.ParseUint. cbn [Z.eqb Ascii.eqb Bool.eqb].
  change (Go.lower "x" =? 98) with false.
  change (Go.lower "x" =? 111) with false.
  change (Go.lower "x" =? 120) with true. cbv iota.
  rewrite Hp, Hu. reflexivity.
Qed.

(** ** Tokens without a parenthesis *)

Lemma HasPrefix_paren (s t : string) :
  Go.has_byte "(" s = false -> Go.HasPrefix s (t +:+ "(") = false.
Proof.
  revert s. induction t as [|c t IH]; intros s Hs.
  - destruct s as [|a s]; [reflexivity|]. cbn [Go.has_byte] in Hs.
    apply orb_false_iff in Hs as [Ha _].
    rewrite append_nil_l. cbn [Go.HasPrefix]. rewrite Ha. reflexivity.
  - rewrite append_cons. destruct s as [|a s]; [reflexivity|].
    cbn [Go.has_byte] in Hs. apply orb_false_iff in Hs as [_ Hs].
    cbn [Go.HasPrefix]. rewrite (IH s Hs). apply andb_false_r.
Qed.

(** [parseItem] strips nothing from a string without a parenthesis. *)
Lemma unwrap_no_paren (bitfield : BitfieldType) (s : string) :
  Go.has_byte "(" s = false -> parseItem_unwrap bitfield s = s.
Proof.
  intros Hs. unfold parseItem_unwrap.
  rewrite (HasPrefix_paren s (Type_ bitfield) Hs). reflexivity.
Qed.

Lemma ToString_fn2_chars (r : Z) :
  Go.has_byte "|" (ToString_fn2 r) = false
  /\ Go.has_byte "(" (ToString_fn2 r) = false.
Proof.
  unfold ToString_fn2. destruct (r =? 0); [split; reflexivity|].
  rewrite !has_byte_app.
  rewrite (FormatUint_avoids "|" 16 r ltac:(lia) eq_refl).
  rewrite (FormatUint_avoids "(" 16 r ltac:(lia) eq_refl).
  split; reflexivity.
Qed.

(** The remnant token of the display form parses to the remnant, unless
    it is a registered name. *)
Lemma parseItem_display_token (typeName : string)
    (in_ : list BitfieldData) (r : Z) :
  0 <= r < 2 ^ 64 ->
  is_registered in_ (ToString_fn2 r) = false ->
  parseItem (MakeBitfieldType typeName in_) (ToString_fn2 r) = (r, true).
Proof.
  intros Hr Hreg. unfold parseItem.
  rewrite unwrap_no_paren by apply ToString_fn2_chars.
  rewrite lookup_unregistered by exact Hreg.
  unfold ToString_fn2. destruct (Z.eqb_spec r 0) as [->|Hne];
    [reflexivity|].
  assert (Hne0 : Go.FormatUint r 16 <> "")
    by (apply format_loop_not_empty; discriminate).
  rewrite ParseUint_hex by exact Hr.
  destruct (Go.FormatUint r 16) as [|c rest]; [congruence|]. reflexivity.
Qed.

(** ** FromString on a join of good pieces *)

Section Pieces.

Variable bitfield : BitfieldType.

Hypothesis Hlookup_bar :
  forall s, Go.has_byte "|" s = true ->
            parseItem_lookup bitfield s = (0, false).

Lemma piece_parse_eq (p : string) (u : Z) (b : bool) :
  parseItem bitfield p = (u, b) ->
  piece_ok bitfield p = b /\ piece_value bitfield p = u.
Proof.
  intros H. unfold piece_ok, piece_value. rewrite H. split; reflexivity.
Qed.

Lemma good_pieces_parse (ps : list (string * Z)) :
  Forall (good_piece bitfield) ps ->
  Forall (fun p => Go.has_byte "|" p = false) (map fst ps)
  /\ List.filter (fun p => negb (piece_ok bitfield p)) (map fst ps) = []
  /\ map (piece_value bitfield)
       (List.filter (piece_ok bitfield) (map fst ps))
     = map snd ps.
Proof.
  induction ps as [|[p u] ps IH]; intros Hps.
  - repeat split; constructor.
  - inversion Hps as [|? ? Hp Hps']; subst.
    destruct (IH Hps') as (IH1 & IH2 & IH3).
    destruct Hp as (Hne & Hbar & Hparse). cbn [fst snd] in *.
    destruct (piece_parse_eq _ _ _ Hparse) as [Hok Hval].
    cbn [map List.filter fst snd]. rewrite Hok. cbn [negb map].
    rewrite Hval, IH2, IH3.
    repeat split. constructor; assumption.
Qed.

Lemma FromString_good_pieces (ps : list (string * Z)) :
  ps <> [] ->
  Forall (good_piece bitfield) ps ->
  FromString bitfield (Go.Join (map fst ps) "|")
  = (fold_right Z.lor 0 (map snd ps), None).
Proof.
  intros Hne Hps.
  destruct (good_pieces_parse ps Hps) as (Hbar & Hbad & Hgood).
  destruct ps as [|[p u] [|[q w] ps]]; [congruence| |].
  - cbn [map Go.Join fold_right fst snd].
    inversion Hps as [|? ? (_ & _ & Hp) _]; subst. cbn [fst snd] in Hp.
    rewrite Z.lor_0_r. apply FromString_ok, Hp.
  - assert (Hfail :
        snd (parseItem bitfield
               (Go.Join (map fst ((p, u) :: (q, w) :: ps)) "|")) = false).
    { inversion Hps as [|? ? (Hp & _ & _) Hps']; subst.
      inversion Hps' as [|? ? (Hq & _ & _) _]; subst.
      cbn [fst snd] in Hp, Hq.
      cbn [map fst]. rewrite Join_cons. unfold parseItem.
      rewrite Hlookup_bar; [reflexivity|].
      apply unwrap_keeps_bar; [exact Hp|].
      apply Join_not_empty, Hq. }
    rewrite FromString_split by exact Hfail.
    unfold bad_pieces, good_pieces.
    rewrite (Split_Join "|" (map fst ((p, u) :: (q, w) :: ps))
               ltac:(discriminate) Hbar).
    rewrite Hbad, Hgood. reflexivity.
Qed.

End Pieces.

Lemma fold_lor_app (l l' : list Z) :
  fold_right Z.lor 0 (l ++ l')
  = Z.lor (fold_right Z.lor 0 l) (fold_right Z.lor 0 l').
Proof.
  induction l as [|x l IH]; [rewrite Z.lor_0_l; reflexivity|].
  cbn [app fold_right]. rewrite IH, Z.lor_assoc. reflexivity.
Qed.

(** The named bits and the remnant of a 64-bit value give it back. *)
Lemma mask_lossless (name : BitfieldData -> string)
    (in_ : list BitfieldData) (value : Z) :
  0 <= value < 2 ^ 64 ->
  Z.lor (named_mask name in_ value) (remnant_of name in_ value) = value.
Proof.
  intros Hv. apply Z.bits_inj'. intros n Hn.
  unfold named_mask, remnant_of.
  rewrite Z.lor_spec, !testbit_mask by exact Hn.
  destruct (Z.ltb_spec n 64).
  - destruct (Z.testbit value n), (is_empty (name (slot in_ n)));
      reflexivity.
  - rewrite (testbit_above value n Hv) by lia. reflexivity.
Qed.

Lemma display_ok_spec (typeName : string) (in_ : list BitfieldData)
    (value : Z) :
  display_ok typeName in_ value = true
  <-> forall i, In i (set_bits value) ->
                display_resolves typeName in_ i = true.
Proof. unfold display_ok. apply forallb_forall. Qed.

Lemma display_resolves_spec (typeName : string) (in_ : list BitfieldData)
    (i : Z) :
  display_resolves typeName in_ i = true ->
  is_empty (Name (slot in_ i)) = false ->
  parseItem (MakeBitfieldType typeName in_) (Name (slot in_ i))
  = (Z.shiftl 1 i, true).
Proof.
  unfold display_resolves. intros H He. rewrite He in H.
  destruct (parseItem _ _) as [u b]. cbn [fst snd orb] in H.
  apply andb_true_iff in H as [Hu ->]. apply Z.eqb_eq in Hu. subst u.
  reflexivity.
Qed.

Lemma token_free_spec (in_ : list BitfieldData) (value : Z) :
  token_free in_ value = true ->
  token_needed in_ value = true ->
  is_registered in_ (ToString_fn2 (remnant_of Name in_ value)) = false.
Proof.
  unfold token_free. intros H Hn. rewrite Hn in H. cbn [negb orb] in H.
  apply negb_true_iff, H.
Qed.

Lemma token_needed_eq (in_ : list BitfieldData) (value : Z) :
  token_needed in_ value
  = negb (remnant_of Name in_ value =? 0)
    || is_nil (pieces_of Name in_ value).
Proof. unfold token_needed. reflexivity. Qed.

Lemma pieces_of_eq (name : BitfieldData -> string)
    (in_ : list BitfieldData) (value : Z) :
  pieces_of name in_ value
  = map (fun i => name (slot in_ i))
      (List.filter (fun i => negb (is_empty (name (slot in_ i))))
         (set_bits value)).
Proof. unfold pieces_of. reflexivity. Qed.

Lemma named_mask_eq (name : BitfieldData -> string)
    (in_ : list BitfieldData) (value : Z) :
  named_mask name in_ value
  = fold_right Z.lor 0
      (map (Z.shiftl 1)
         (List.filter (fun i => negb (is_empty (name (slot in_ i))))
            (set_bits value))).
Proof. unfold named_mask. reflexivity. Qed.

(** Pieces with their values, for any list [N] of named bits, remnant
    [r] and decision [need] to append the token. *)
Lemma pieces_with_values (bitfield : BitfieldType)
    (in_ : list BitfieldData) (N : list Z) (r : Z) (need : bool) :
  (N = [] -> need = true) ->
  (need = false -> r = 0) ->
  (forall i, In i N ->
             good_piece bitfield (Name (slot in_ i), Z.shiftl 1 i)) ->
  (need = true -> good_piece bitfield (ToString_fn2 r, r)) ->
  exists ps,
    ps <> []
    /\ Forall (good_piece bitfield) ps
    /\ map fst ps
       = map (fun i => Name (slot in_ i)) N
         ++ (if need then [ToString_fn2 r] else [])
    /\ fold_right Z.lor 0 (map snd ps)
       = Z.lor (fold_right Z.lor 0 (map (Z.shiftl 1) N)) r.
Proof.
  intros Hnil Hzero HN Htok.
  exists (map (fun i => (Name (slot in_ i), Z.shiftl 1 i)) N
          ++ (if need then [(ToString_fn2 r, r)] else [])).
  repeat split.
  - destruct need.
    + intros H. apply app_eq_nil in H as [_ H]. discriminate.
    + destruct N; [specialize (Hnil eq_refl)|]; discriminate.
  - apply Forall_app. split.
    + apply List.Forall_forall. intros pu Hpu.
      apply in_map_iff in Hpu as (i & <- & Hi). apply HN, Hi.
    + destruct need; [|constructor].
      constructor; [apply Htok; reflexivity | constructor].
  - rewrite map_app, map_map. cbn [fst]. f_equal.
    destruct need; reflexivity.
  - rewrite map_app, map_map. cbn [snd]. rewrite fold_lor_app. f_equal.
    destruct need.
    + cbn [map fold_right snd]. apply Z.lor_0_r.
    + rewrite (Hzero eq_refl). reflexivity.
Qed.

(** The pieces of the display rendering, each with the value it stands
    for. *)
Lemma display_pieces (typeName : string) (in_ : list BitfieldData)
    (value : Z) :
  0 <= value < 2 ^ 64 ->
  bar_free in_ = true ->
  display_ok typeName in_ value = true ->
  token_free in_ value = true ->
  exists ps,
    ps <> []
    /\ Forall (good_piece (MakeBitfieldType typeName in_)) ps
    /\ map fst ps
       = with_token (pieces_of Name in_ value) (remnant_of Name in_ value)
           ToString_fn2
    /\ fold_right Z.lor 0 (map snd ps) = value.
Proof.
  intros Hv Hfree Hok Htok.
  destruct (pieces_with_values (MakeBitfieldType typeName in_) in_
              (List.filter (fun i => negb (is_empty (Name (slot in_ i))))
                 (set_bits value))
              (remnant_of Name in_ value) (token_needed in_ value))
    as (ps & Hne & Hgood & Hfst & Hval).
  - intros HN. rewrite token_needed_eq, pieces_of_eq, HN.
    apply orb_true_r.
  - intros Hn. rewrite token_needed_eq in Hn.
    apply orb_false_iff in Hn as [Hn _].
    apply negb_false_iff, Z.eqb_eq in Hn. exact Hn.
  - intros i Hi. apply filter_In in Hi as [Hi He].
    apply negb_true_iff in He.
    assert (Hr : 0 <= i < 64) by (apply In_set_bits in Hi; tauto).
    unfold good_piece. cbn [fst snd]. repeat split.
    + apply is_empty_false, He.
    + apply (bar_free_spec in_ i); [exact Hfree | exact Hr | |].
      * unfold named. rewrite He. apply negb_true_iff, andb_false_r.
      * unfold registered. rewrite He.
        apply in_or_app. right. left. reflexivity.
    + apply display_resolves_spec; [|exact He].
      apply (proj1 (display_ok_spec typeName in_ value) Hok i Hi).
  - intros Hn. unfold good_piece. cbn [fst snd]. repeat split.
    + apply ToString_fn2_not_empty.
    + apply ToString_fn2_chars.
    + apply parseItem_display_token; [apply mask_range|].
      apply token_free_spec; assumption.
  - exists ps. split; [exact Hne|]. split; [exact Hgood|]. split.
    + rewrite Hfst. unfold with_token.
      rewrite <- token_needed_eq, <- pieces_of_eq.
      destruct (token_needed in_ value); reflexivity.
    + rewrite Hval, <- named_mask_eq. apply mask_lossless, Hv.
Qed.

(** X6.  The display form round trips, remnant included.  For a
    constructed type whose registered names hold no bar, and a 64-bit
    value such that every display name of a set bit resolves to that bit
    and the remnant token (["0"] or ["0x<hex>"], when there is one) is
    no registered name, [FromString] of [ToString] of the value is the
    value, without error. *)
Theorem display_round_trip (typeName : string) (in_ : list BitfieldData)
    (value : Z) :
  0 <= value < 2 ^ 64 ->
  bar_free in_ = true ->
  display_ok typeName in_ value = true ->
  token_free in_ value = true ->
  exists s,
    ToString (MakeBitfieldType typeName in_) value = Returns s
    /\ FromString (MakeBitfieldType typeName in_) s = (value, None).
Proof.
  intros Hv Hfree Hok Htok.
  destruct (display_pieces typeName in_ value Hv Hfree Hok Htok)
    as (ps & Hne & Hgood & Hfst & Hval).
  eexists. split; [apply ToString_Make|].
  rewrite <- Hfst, FromString_good_pieces.
  - rewrite Hval. reflexivity.
  - intros s Hs. apply lookup_bar; assumption.
  - exact Hne.
  - exact Hgood.
Qed.

(** X6, witness: two named bits and a remnant, and the value zero. *)
Lemma display_round_trip_witness :
  (exists s,
     ToString Examples.perm 11 = Returns s
     /\ FromString Examples.perm s = (11, None))
  /\ (exists s,
        ToString Examples.perm 0 = Returns s
        /\ FromString Examples.perm s = (0, None)).
Proof.
  split.
  - apply (display_round_trip "Perm" Examples.perm_bits 11);
      [lia | vm_compute; reflexivity | vm_compute; reflexivity
      | vm_compute; reflexivity].
  - apply (display_round_trip "Perm" Examples.perm_bits 0);
      [lia | vm_compute; reflexivity | vm_compute; reflexivity
      | vm_compute; reflexivity].
Defined.

(** X7.  [ToJSON] and [FromJSON] compose to the identity on the values
    of X6, for any JSON string encoder [quote] and decoder that agree on
    the rendered text: the encoding is not the bytes [null] and decodes
    to the text. *)
Theorem json_round_trip (quote : string -> string)
    (string_literal : string -> option string) (typeName : string)
    (in_ : list BitfieldData) (value : Z) :
  0 <= value < 2 ^ 64 ->
  bar_free in_ = true ->
  display_ok typeName in_ value = true ->
  token_free in_ value = true ->
  (forall s,
      ToString (MakeBitfieldType typeName in_) value = Returns s ->
      String.eqb (quote s) nullBytes = false
      /\ Go.Unmarshal_string string_literal (quote s) = Some s) ->
  exists raw,
    ToJSON quote (MakeBitfieldType typeName in_) value
    = Returns (raw, None)
    /\ FromJSON string_literal (MakeBitfieldType typeName in_) (Some raw)
       = Returns (value, None).
Proof.
  intros Hv Hfree Hok Htok Hcodec.
  destruct (display_pieces typeName in_ value Hv Hfree Hok Htok)
    as (ps & Hne & Hgood & Hfst & Hval).
  assert (Hs := ToString_Make typeName in_ value).
  destruct (Hcodec _ Hs) as [Hnull Hdec].
  eexists. split.
  - unfold ToJSON. rewrite Hs. reflexivity.
  - unfold FromJSON. rewrite Hnull, Hdec.
    rewrite <- Hfst, FromString_good_pieces.
    + rewrite Hval. reflexivity.
    + intros s Hbar. apply lookup_bar; assumption.
    + exact Hne.
    + exact Hgood.
Qed.

(** X7, witness: the value 11 of ["Perm"] through its JSON string. *)
Lemma json_round_trip_witness :
  exists raw,
    ToJSON Examples.plain_quote Examples.perm 11 = Returns (raw, None)
    /\ FromJSON Examples.plain_string_literal Examples.perm (Some raw)
       = Returns (11, None).
Proof.
  apply (json_round_trip Examples.plain_quote
           Examples.plain_string_literal "Perm" Examples.perm_bits 11);
    [lia | vm_compute; reflexivity | vm_compute; reflexivity
    | vm_compute; reflexivity |].
  intros s Hs. vm_compute in Hs. inversion Hs; subst.
  vm_compute. split; reflexivity.
Defined.

(* ===================================================================== *)
(** * Part XII: further properties of the enum helper and of JSON        *)
(* ===================================================================== *)

Lemma ParseEnum_first (enumName : string) (pre post : list Enum.EnumData)
    (row : Enum.EnumData) (str : string) :
  Forall (fun r => row_registers r str = false) pre ->
  row_registers row str = true ->
  Enum.ParseEnum enumName (pre ++ row :: post) str
  = (Z.of_nat (length pre), None).
Proof.
  intros Hpre Hrow.
  destruct (ParseEnum_registered enumName (pre ++ row :: post) str)
    as (pre' & row' & post' & Heq & Hrow' & Hpre' & ->).
  { rewrite existsb_app. cbn [existsb]. rewrite Hrow.
    rewrite orb_true_l. apply orb_true_r. }
  assert (Hlen : length pre' = length pre); [|rewrite Hlen; reflexivity].
  destruct (Nat.lt_trichotomy (length pre) (length pre'))
    as [Hlt|[Heq'|Hgt]]; [| exact (eq_sym Heq') |]; exfalso.
  - assert (Hl : (pre' ++ row' :: post') !! length pre = Some row).
    { rewrite <- Heq, lookup_app_r by lia.
      rewrite Nat.sub_diag. reflexivity. }
    rewrite lookup_app_l in Hl by exact Hlt.
    rewrite List.Forall_forall in Hpre'.
    assert (Hin : In row pre')
      by (apply list_elem_of_In, list_elem_of_lookup; eauto).
    rewrite (Hpre' row Hin) in Hrow. discriminate.
  - assert (Hl : (pre ++ row :: post) !! length pre' = Some row').
    { rewrite Heq, lookup_app_r by lia.
      rewrite Nat.sub_diag. reflexivity. }
    rewrite lookup_app_l in Hl by exact Hgt.
    rewrite List.Forall_forall in Hpre.
    assert (Hin : In row' pre)
      by (apply list_elem_of_In, list_elem_of_lookup; eauto).
    rewrite (Hpre row' Hin) in Hrow'. discriminate.
Qed.

Lemma row_registers_own_name (row : Enum.EnumData) :
  row_registers row (Enum.Name row) = true.
Proof.
  unfold row_registers, enum_names. cbn [existsb].
  unfold case_equal at 1. rewrite String.eqb_refl. reflexivity.
Qed.

Lemma Dereference_at (enumName : string) (pre post : list Enum.EnumData)
    (row : Enum.EnumData) :
  Enum.DereferenceEnumData enumName (pre ++ row :: post)
    (Z.of_nat (length pre))
  = Returns row.
Proof.
  unfold Enum.DereferenceEnumData.
  rewrite length_app. cbn [length].
  destruct (Z.leb_spec (Z.of_nat (length pre + S (length post)))
              (Z.of_nat (length pre))); [lia|].
  rewrite Nat2Z.id, lookup_app_r by lia.
  rewrite Nat.sub_diag. reflexivity.
Qed.

(** X8.  [MarshalEnumToJSON] of the ordinal of a row writes the row's
    explicit literal, or else its display name as a JSON string, and
    [UnmarshalEnumFromJSON] reads that back as the same ordinal when the
    written bytes are not [null], no earlier row has them as its explicit
    literal and, for a row without explicit literal, no row at all has
    them as its literal, they decode to the display name, the display
    name and the names of the earlier rows are ASCII strings, and no
    earlier row carries a name equal to it up to case. *)
Theorem enum_json_round_trip (quote : string -> string)
    (string_literal : string -> option string) (enumName : string)
    (pre post : list Enum.EnumData) (row : Enum.EnumData) :
  Enum.MarshalEnumToJSON quote enumName (pre ++ row :: post)
    (Z.of_nat (length pre))
  = Returns (enum_json quote row, None)
  /\ (String.eqb (enum_json quote row) nullBytes = false ->
      Forall (fun r => has_literal (enum_json quote row) r = false) pre ->
      (Enum.JSON row = None ->
       Forall (fun r => has_literal (enum_json quote row) r = false) post
       /\ Go.Unmarshal_string string_literal (enum_json quote row)
          = Some (Enum.Name row)
       /\ Go.is_ascii (Enum.Name row) = true
       /\ ascii_rows pre = true
       /\ Forall (fun r => row_registers r (Enum.Name row) = false) pre) ->
      Enum.UnmarshalEnumFromJSON string_literal enumName
        (pre ++ row :: post) (Some (enum_json quote row))
      = Returns (Z.of_nat (length pre), None)).
Proof.
  split.
  - unfold Enum.MarshalEnumToJSON. rewrite Dereference_at. cbn [bind].
    unfold enum_json. destruct (Enum.JSON row); reflexivity.
  - intros Hnull Hpre Hnone. unfold Enum.UnmarshalEnumFromJSON.
    rewrite Hnull.
    destruct (Enum.JSON row) as [j|] eqn:Ej.
    + rewrite json_literal_loop_first; [reflexivity | exact Hpre |].
      unfold has_literal, enum_json. rewrite Ej. apply String.eqb_refl.
    + destruct (Hnone eq_refl) as (Hpost & Hdec & _ & _ & Hnames).
      assert (Hloop := json_literal_loop_spec (pre ++ row :: post)
                         (enum_json quote row) 0).
      destruct (Enum.json_literal_loop 0 (pre ++ row :: post)
                  (enum_json quote row)) as [i|].
      * exfalso.
        destruct Hloop as (pre' & row' & post' & Heq & _ & Hrow' & _).
        assert (Hin : In row' (pre ++ row :: post)).
        { rewrite Heq. apply in_or_app. right. left. reflexivity. }
        apply in_app_or in Hin as [Hin|[<-|Hin]].
        -- rewrite List.Forall_forall in Hpre.
           rewrite (Hpre row' Hin) in Hrow'. discriminate.
        -- unfold has_literal in Hrow'. rewrite Ej in Hrow'.
           discriminate.
        -- rewrite List.Forall_forall in Hpost.
           rewrite (Hpost row' Hin) in Hrow'. discriminate.
      * rewrite Hdec. f_equal.
        apply ParseEnum_first; [exact Hnames|].
        apply row_registers_own_name.
Qed.

(** X8, witness: both rows of ["Mode"]: the explicit literal [false] and
    the quoted name ["on"]. *)
Lemma enum_json_round_trip_witness :
  Enum.UnmarshalEnumFromJSON Examples.plain_string_literal "Mode"
    Examples.mode (Some "false")
  = Returns (0, None)
  /\ Enum.UnmarshalEnumFromJSON Examples.plain_string_literal "Mode"
       Examples.mode (Some (Examples.plain_quote "on"))
     = Returns (1, None).
Proof.
  split.
  - apply (proj2 (enum_json_round_trip Examples.plain_quote
                    Examples.plain_string_literal "Mode" []
                    [Examples.mode_on] Examples.mode_off)).
    + reflexivity.
    + constructor.
    + discriminate.
  - apply (proj2 (enum_json_round_trip Examples.plain_quote
                    Examples.plain_string_literal "Mode"
                    [Examples.mode_off] [] Examples.mode_on)).
    + reflexivity.
    + repeat constructor.
    + intros _. repeat split; repeat constructor.
Defined.

(** ** Decoded ordinals are in range *)

Lemma digit_value_nonneg (c : ascii) (d : Z) :
  Go.digit_value c = Some d -> 0 <= d.
Proof.
  unfold Go.digit_value.
  destruct (Z.leb_spec 48 (Go.byte_val c)) as [H48|H48]; cbn [andb].
  - destruct (Go.byte_val c <=? 57).
    + intros H. inversion H. lia.
    + destruct (Z.leb_spec 97 (Go.lower c)) as [H97|H97]; cbn [andb];
        [|discriminate].
      destruct (Go.lower c <=? 122); [|discriminate].
      intros H. inversion H. lia.
  - destruct (Z.leb_spec 97 (Go.lower c)) as [H97|H97]; cbn [andb];
      [|discriminate].
    destruct (Go.lower c <=? 122); [|discriminate].
    intros H. inversion H. lia.
Qed.

Lemma parse_digits_nonneg (base0 : bool) (base : Z) (s : string)
    (n0 n : Z) :
  0 <= base -> 0 <= n0 ->
  Go.parse_digits base0 base s n0 = Some n -> 0 <= n.
Proof.
  intros Hbase. revert n0. induction s as [|c s IH]; intros n0 Hn0.
  - simpl. intros H. inversion H. lia.
  - cbn [Go.parse_digits].
    destruct (Ascii.eqb c "_" && base0); [apply IH, Hn0|].
    destruct (Go.digit_value c) as [d|] eqn:Ed; [|discriminate].
    apply digit_value_nonneg in Ed.
    destruct (base <=? d); [discriminate|].
    destruct (Go.maxUint64 / base + 1 <=? n0); [discriminate|].
    destruct (Go.maxUint64 <? n0 * base + d); [discriminate|].
    apply IH. nia.
Qed.

Lemma ParseUint_nonneg (s : string) (base n : Z) :
  0 <= base -> Go.ParseUint s base = Some n -> 0 <= n.
Proof.
  intros Hbase. unfold Go.ParseUint.
  destruct s as [|c0 rest]; [discriminate|].
  assert (Hd : forall b0 b digits,
             0 <= b ->
             match Go.parse_digits b0 b digits 0 with
             | Some n' =>
                 if b0 && Go.has_byte "_" digits
                    && negb (Go.underscoreOK (String c0 rest))
                 then None else Some n'
             | None => None
             end = Some n -> 0 <= n).
  { intros b0 b digits Hb.
    destruct (Go.parse_digits b0 b digits 0) as [n'|] eqn:E;
      [|discriminate].
    apply parse_digits_nonneg in E; [|exact Hb | lia].
    destruct (_ && _ && _); [discriminate|].
    intros H. inversion H. subst. exact E. }
  destruct (base =? 0); [|apply Hd, Hbase].
  destruct (Ascii.eqb c0 "0"); [|apply Hd; lia].
  destruct rest as [|c1 [|c2 rest']]; try (apply Hd; lia).
  destruct (Go.lower c1 =? 98); [apply Hd; lia|].
  destruct (Go.lower c1 =? 111); [apply Hd; lia|].
  destruct (Go.lower c1 =? 120); apply Hd; lia.
Qed.

Lemma Unmarshal_uint64_nonneg (raw : string) (n : Z) :
  Go.Unmarshal_uint64 raw = Some n -> 0 <= n.
Proof.
  unfold Go.Unmarshal_uint64.
  destruct (String.eqb (Go.json_trim raw) "null").
  - intros H. inversion H. lia.
  - destruct (Go.is_json_uint_literal (Go.json_trim raw));
      [|discriminate].
    apply ParseUint_nonneg. lia.
Qed.

Lemma ParseEnum_success (enumName : string) (rows : list Enum.EnumData)
    (str : string) (i : Z) :
  Enum.ParseEnum enumName rows str = (i, None) ->
  exists pre row post,
    rows = pre ++ row :: post /\ i = Z.of_nat (length pre)
    /\ row_registers row str = true
    /\ Forall (fun r => row_registers r str = false) pre.
Proof.
  unfold Enum.ParseEnum.
  assert (H := ParseEnum_loop_spec rows str 0).
  destruct (Enum.ParseEnum_loop 0 rows str) as [k|]; [|discriminate].
  intros E. inversion E. subst k.
  destruct H as (pre & row & post & Hrows & Hi & Hrow & Hpre).
  exists pre, row, post. repeat split; try assumption; lia.
Qed.

(** X9.  An ordinal returned by [ParseEnum] without error is a valid
    ordinal: it is below the row count and [DereferenceEnumData] on it
    returns a row.  When the input and the names of the rows are ASCII
    strings, that row carries a name equal to the parsed string up to
    case, and no row before it does. *)
Theorem ParseEnum_in_range (enumName : string)
    (rows : list Enum.EnumData) (str : string) (i : Z) :
  Enum.ParseEnum enumName rows str = (i, None) ->
  0 <= i < Z.of_nat (length rows)
  /\ (exists row,
        Enum.DereferenceEnumData enumName rows i = Returns row)
  /\ (Go.is_ascii str = true -> ascii_rows rows = true ->
      exists pre row post,
        rows = pre ++ row :: post
        /\ i = Z.of_nat (length pre)
        /\ Enum.DereferenceEnumData enumName rows i = Returns row
        /\ row_registers row str = true
        /\ Forall (fun r => row_registers r str = false) pre).
Proof.
  intros H.
  apply ParseEnum_success in H as (pre & row & post & -> & -> & Hr & Hp).
  split; [rewrite length_app; cbn [length]; lia|].
  split.
  - exists row. apply Dereference_at.
  - intros _ _. exists pre, row, post. repeat split; try assumption.
    apply Dereference_at.
Qed.

(** X9, witness: an alias of the second colour. *)
Lemma ParseEnum_in_range_witness :
  0 <= 1 < Z.of_nat (length Examples.color)
  /\ exists pre row post,
       Examples.color = pre ++ row :: post
       /\ 1 = Z.of_nat (length pre)
       /\ Enum.DereferenceEnumData "Color" Examples.color 1 = Returns row
       /\ row_registers row "VERDE" = true
       /\ Forall (fun r => row_registers r "VERDE" = false) pre.
Proof.
  destruct (ParseEnum_in_range "Color" Examples.color "VERDE" 1)
    as (H1 & _ & H3); [vm_compute; reflexivity|].
  split; [exact H1 | apply H3; reflexivity].
Defined.

(** X10.  An ordinal returned by [UnmarshalEnumFromJSON] without error,
    by whichever of its three paths (explicit literal, name, number), is
    a valid ordinal: [DereferenceEnumData] on it returns a row. *)
Theorem UnmarshalEnumFromJSON_in_range
    (string_literal : string -> option string) (enumName : string)
    (rows : list Enum.EnumData) (raw : option string) (n : Z) :
  Enum.UnmarshalEnumFromJSON string_literal enumName rows raw
  = Returns (n, None) ->
  0 <= n < Z.of_nat (length rows)
  /\ exists row, Enum.DereferenceEnumData enumName rows n = Returns row.
Proof.
  intros H.
  assert (Hrange : 0 <= n < Z.of_nat (length rows)).
  { unfold Enum.UnmarshalEnumFromJSON in H.
    destruct raw as [raw|]; [|discriminate].
    destruct (String.eqb raw nullBytes); [discriminate|].
    assert (Hloop := json_literal_loop_spec rows raw 0).
    destruct (Enum.json_literal_loop 0 rows raw) as [i|].
    { inversion H. subst i.
      destruct Hloop as (pre & row & post & -> & -> & _).
      rewrite length_app. cbn [length]. lia. }
    destruct (Go.Unmarshal_string string_literal raw) as [str|].
    { inversion H as [H'].
      apply ParseEnum_success in H' as (pre & row & post & -> & -> & _).
      rewrite length_app. cbn [length]. lia. }
    destruct (Go.Unmarshal_uint64 raw) as [num|] eqn:Enum;
      [|discriminate].
    apply Unmarshal_uint64_nonneg in Enum.
    destruct (Z.leb_spec (Z.of_nat (length rows)) num);
      [discriminate|].
    inversion H. subst. lia. }
  split; [exact Hrange|].
  destruct (Dereference_stored enumName rows n Hrange) as (row & _ & Hrow).
  exists row. exact Hrow.
Qed.

(** X10, witness: the number 2 is the third colour. *)
Lemma UnmarshalEnumFromJSON_in_range_witness :
  exists row,
    Enum.DereferenceEnumData "Color" Examples.color 2 = Returns row.
Proof.
  apply (UnmarshalEnumFromJSON_in_range Examples.plain_string_literal
           "Color" Examples.color (Some "2") 2).
  vm_compute. reflexivity.
Defined.

(** ** The null marker *)

Lemma FromString_not_null (bitfield : BitfieldType) (str : string) :
  IsNull (snd (FromString bitfield str)) = false.
Proof.
  destruct (parseItem bitfield str) as [u [|]] eqn:E.
  - rewrite (FromString_ok bitfield str u E). reflexivity.
  - rewrite FromString_split by (rewrite E; reflexivity).
    destruct (bad_pieces bitfield str) as [|p [|q l]]; reflexivity.
Qed.

Lemma ParseEnum_not_null (enumName : string) (rows : list Enum.EnumData)
    (str : string) :
  IsNull (snd (Enum.ParseEnum enumName rows str)) = false.
Proof.
  unfold Enum.ParseEnum.
  destruct (Enum.ParseEnum_loop 0 rows str); reflexivity.
Qed.

(** X11.  The null marker is exact: the error returned by the bitfield
    [FromJSON] or by [UnmarshalEnumFromJSON] is recognised by [IsNull]
    exactly when the raw input is the four bytes [null]; a [null] with
    white space around it, and every other failure, gives another
    error or none. *)
Theorem IsNull_exact (string_literal : string -> option string)
    (bitfield : BitfieldType) (enumName : string)
    (rows : list Enum.EnumData) (raw : string) (v : Z)
    (e : option error) :
  (FromJSON string_literal bitfield (Some raw) = Returns (v, e) ->
   (IsNull e = true <-> raw = "null"))
  /\ (Enum.UnmarshalEnumFromJSON string_literal enumName rows (Some raw)
      = Returns (v, e) ->
      (IsNull e = true <-> raw = "null")).
Proof.
  split.
  - unfold FromJSON, nullBytes.
    destruct (String.eqb_spec raw "null") as [->|Hne].
    + intros H. inversion H. split; reflexivity.
    + destruct (Go.Unmarshal_string string_literal raw) as [str|].
      * intros H. inversion H as [H'].
        assert (Hn := FromString_not_null bitfield str).
        rewrite H' in Hn. cbn [snd] in Hn. rewrite Hn.
        split; [discriminate | contradiction].
      * destruct (Go.Unmarshal_uint64 raw); intros H; inversion H;
          (split; [discriminate | contradiction]).
  - unfold Enum.UnmarshalEnumFromJSON, nullBytes.
    destruct (String.eqb_spec raw "null") as [->|Hne].
    + intros H. inversion H. split; reflexivity.
    + destruct (Enum.json_literal_loop 0 rows raw).
      { intros H; inversion H; split; [discriminate | contradiction]. }
      destruct (Go.Unmarshal_string string_literal raw) as [str|].
      * intros H. inversion H as [H'].
        assert (Hn := ParseEnum_not_null enumName rows str).
        rewrite H' in Hn. cbn [snd] in Hn. rewrite Hn.
        split; [discriminate | contradiction].
      * destruct (Go.Unmarshal_uint64 raw) as [num|].
        -- destruct (Z.of_nat (length rows) <=? num); intros H;
             inversion H; (split; [discriminate | contradiction]).
        -- intros H; inversion H; split; [discriminate | contradiction].
Qed.

(** X11, witness: [null] with a leading space is read as the empty
    string, which is no name of ["Perm"]: an error, but not the null
    marker. *)
Lemma IsNull_exact_witness :
  FromJSON Examples.plain_string_literal Examples.perm (Some " null")
  = Returns (0, Some (InvalidBitfieldNameError "Perm" ""
                        ["read"; "write"; "exec"]))
  /\ ~ (IsNull (Some (InvalidBitfieldNameError "Perm" ""
                        ["read"; "write"; "exec"])) = true).
Proof.
  assert (H : FromJSON Examples.plain_string_literal Examples.perm
                (Some " null")
              = Returns (0, Some (InvalidBitfieldNameError "Perm" ""
                                    ["read"; "write"; "exec"])))
    by (vm_compute; reflexivity).
  split; [exact H|].
  intros Hn.
  apply (proj1 (IsNull_exact Examples.plain_string_literal Examples.perm
                  "Color" Examples.color " null" 0 _) H) in Hn.
  discriminate.
Defined.

(* ===================================================================== *)
(** * Part XIII: what the engine does outside the constructed types      *)
(* ===================================================================== *)

(** ** A type whose Data is incomplete *)

Lemma deref_panics (bitfield : BitfieldType) (k : Z) :
  (forall d, Data bitfield !! Z.to_nat k <> Some (Some d)) ->
  deref bitfield k = Panics RuntimeError.
Proof.
  intros H. unfold deref.
  destruct (Data bitfield !! Z.to_nat k) as [[d|]|] eqn:E;
    [destruct (H d); reflexivity | reflexivity | reflexivity].
Qed.

Lemma deref_panic_value (bitfield : BitfieldType) (k : Z)
    (p : panic_value) :
  deref bitfield k = Panics p -> p = RuntimeError.
Proof.
  unfold deref.
  destruct (Data bitfield !! Z.to_nat k) as [[d|]|]; intros H;
    inversion H; reflexivity.
Qed.

Lemma ForEach_loop_panics {S : Type} (bitfield : BitfieldType)
    (fn : AnnotatedBitfieldData -> S -> S) (idx : list Z) (k : Z) :
  In k idx -> deref bitfield k = Panics RuntimeError ->
  forall st, ForEach_loop bitfield fn idx st = Panics RuntimeError.
Proof.
  intros Hin Hk. induction idx as [|i idx IH]; [destruct Hin|].
  intros st. cbn [ForEach_loop].
  destruct (deref bitfield i) as [d|p] eqn:E; cbn [bind].
  - destruct Hin as [->|Hin]; [congruence|]. apply IH, Hin.
  - rewrite (deref_panic_value bitfield i p E). reflexivity.
Qed.

(** X12.  A [BitfieldType] whose [Data] lacks one of its 64 entries (the
    slice is too short, or the pointer is nil) makes [Get] at that index,
    [ForEach] with any callback that returns on every entry, both
    renderings and [ToJSON] panic with a run-time error of Go, for every
    value: the zero [BitfieldType] cannot render anything.  (A callback
    that panics itself on an earlier entry ends [ForEach] with its own
    panic; the callbacks here are those that return.) *)
Theorem incomplete_data_panics (quote : string -> string)
    (bitfield : BitfieldType) (k value : Z) :
  0 <= k < 64 ->
  (forall d, Data bitfield !! Z.to_nat k <> Some (Some d)) ->
  Get bitfield k = Panics RuntimeError
  /\ (forall (S : Type) (fn : AnnotatedBitfieldData -> S -> S) (st : S),
        ForEach bitfield fn st = Panics RuntimeError)
  /\ ToString bitfield value = Panics RuntimeError
  /\ ToGoString bitfield value = Panics RuntimeError
  /\ ToJSON quote bitfield value = Panics RuntimeError.
Proof.
  intros Hk Hnil.
  assert (Hd := deref_panics bitfield k Hnil).
  assert (Hin : In k indices64) by (apply In_indices64, Hk).
  assert (Hfe : forall (S : Type) (fn : AnnotatedBitfieldData -> S -> S)
                  (st : S),
             ForEach bitfield fn st = Panics RuntimeError).
  { intros S fn st. unfold ForEach.
    apply (ForEach_loop_panics bitfield fn indices64 k Hin Hd). }
  split.
  { unfold Get. destruct (Z.leb_spec 64 k); [lia | exact Hd]. }
  split; [exact Hfe|].
  assert (Hs : ToString bitfield value = Panics RuntimeError).
  { unfold ToString, toStringImpl. rewrite Hfe. reflexivity. }
  split; [exact Hs|]. split.
  - unfold ToGoString, toStringImpl. rewrite Hfe. reflexivity.
  - unfold ToJSON. rewrite Hs. reflexivity.
Qed.

(** X12, witness: the zero value of [BitfieldType]. *)
Lemma incomplete_data_panics_witness :
  ToString {| Type_ := ""; Data := []; Names := []; ByName := ∅ |} 5
  = Panics RuntimeError.
Proof.
  apply (incomplete_data_panics (fun s => s)
           {| Type_ := ""; Data := []; Names := []; ByName := ∅ |} 0 5).
  - lia.
  - intros d. discriminate.
Defined.

(** ** The slice of parseItem *)

Lemma HasSuffix_paren_inv (s : string) :
  Go.HasSuffix s ")" = true -> exists y, s = y +:+ ")".
Proof.
  unfold Go.HasSuffix, Go.slice. cbn [String.length].
  intros H. apply andb_true_iff in H as [Hlen H].
  apply Nat.leb_le in Hlen. apply String.eqb_eq in H.
  replace (String.length s - (String.length s - 1))%nat with 1%nat in H
    by lia.
  revert Hlen H. induction s as [|c s IH]; cbn [String.length];
    [lia|].
  intros _. destruct s as [|c' s'].
  - cbn. intros H. inversion H. exists "". reflexivity.
  - cbn [String.length] in *.
    replace (S (S (String.length s')) - 1)%nat
      with (S (String.length s')) by lia.
    cbn [String.substring].
    replace (S (String.length s') - 1)%nat with (String.length s') in IH
      by lia.
    intros H. destruct (IH ltac:(lia) H) as [y Hy].
    exists (String c y). rewrite Hy. reflexivity.
Qed.

Lemma HasPrefix_nil (p : string) :
  Go.HasPrefix "" (p +:+ "(") = false.
Proof. destruct p; reflexivity. Qed.

Lemma HasPrefix_paren_inv (t y : string) :
  Go.HasPrefix (y +:+ ")") (t +:+ "(") = true ->
  exists inner, y = t +:+ "(" +:+ inner.
Proof.
  revert y. induction t as [|c t IH]; intros y.
  - destruct y as [|a y]; [discriminate|].
    rewrite append_nil_l, append_cons. cbn [Go.HasPrefix].
    intros H. apply andb_true_iff in H as [H _].
    apply Ascii.eqb_eq in H. subst a. exists y. reflexivity.
  - rewrite append_cons. destruct y as [|a y].
    + rewrite append_nil_l. cbn [Go.HasPrefix].
      destruct t; rewrite andb_false_r; discriminate.
    + rewrite append_cons. cbn [Go.HasPrefix].
      intros H. apply andb_true_iff in H as [Ha H].
      apply Ascii.eqb_eq in Ha. subst a.
      destruct (IH y H) as [inner ->]. exists inner.
      rewrite append_cons. reflexivity.
Qed.

(** X13.  The slice expression of [parseItem] is always within bounds:
    when the guard holds (the string starts with the type name and an
    opening parenthesis and ends with a closing one) the two cannot
    overlap, so the string is [T(inner)] for some [inner], the bounds
    satisfy [1 <= len(str) - 1 <= len(str)], and what is looked up is
    the string without its first and last bytes. *)
Theorem parseItem_slice_in_bounds (bitfield : BitfieldType)
    (str : string) :
  Go.HasPrefix str (Type_ bitfield +:+ "(") && Go.HasSuffix str ")"
  = true ->
  (String.length ")" <= String.length str - String.length ")"
   <= String.length str)%nat
  /\ exists inner,
       str = Type_ bitfield +:+ "(" +:+ inner +:+ ")"
       /\ parseItem_unwrap bitfield str
          = tail (Type_ bitfield +:+ "(" +:+ inner)
       /\ String.length (parseItem_unwrap bitfield str)
          = (String.length str - 2)%nat.
Proof.
  intros H. apply andb_true_iff in H as [Hp Hs].
  apply HasSuffix_paren_inv in Hs as [y ->].
  apply HasPrefix_paren_inv in Hp as [inner ->].
  split.
  - rewrite !length_append. cbn [String.length]. lia.
  - exists inner.
    assert (Hstr : (Type_ bitfield +:+ "(" +:+ inner) +:+ ")"
                   = Type_ bitfield +:+ "(" +:+ inner +:+ ")")
      by (rewrite !append_assoc; reflexivity).
    rewrite Hstr, (unwrap_wrapper bitfield inner).
    split; [reflexivity|]. split; [reflexivity|].
    destruct (Type_ bitfield) as [|c t].
    + change ("" +:+ "(" +:+ inner) with (String "(" inner).
      cbn [tail]. rewrite !length_append. cbn [String.length]. lia.
    + rewrite !append_cons. cbn [tail String.length].
      rewrite !length_append. cbn [String.length].
      rewrite !length_append. cbn [String.length]. lia.
Qed.

(** X13, witness: the wrapped hexadecimal form of the flag set 5. *)
Lemma parseItem_slice_in_bounds_witness :
  exists inner,
    "Perm(0x5)" = "Perm" +:+ "(" +:+ inner +:+ ")"
    /\ parseItem_unwrap Examples.perm "Perm(0x5)"
       = tail ("Perm" +:+ "(" +:+ inner)
    /\ String.length (parseItem_unwrap Examples.perm "Perm(0x5)")
       = 7%nat.
Proof.
  apply (parseItem_slice_in_bounds Examples.perm "Perm(0x5)").
  vm_compute. reflexivity.
Defined.

(* ===================================================================== *)
(** * Part XIV: further properties of FromString and ParseEnum           *)
(* ===================================================================== *)

(** ** Integer literals as flag sets *)

Lemma ParseUint_decimal (n : Z) :
  0 < n < 2 ^ 64 ->
  Go.ParseUint (Go.FormatUint n 10) 0 = Some n
  /\ String.eqb (Go.FormatUint n 10) "0" = false.
Proof.
  intros Hn.
  assert (Hp := FormatUint_parse true 10 ltac:(lia) n ltac:(lia)).
  assert (Hu := FormatUint_avoids "_" 10 n ltac:(lia) eq_refl).
  destruct (format_loop_head 64 n "") as (c & s & Hs & Hc).
  { split; [lia|]. apply Z.lt_le_trans with (2 ^ 64); [lia|].
    change (Z.of_nat 64) with 64. apply Z.pow_le_mono_l. lia. }
  unfold Go.FormatUint in *. rewrite Hs in *. split.
  - unfold Go.ParseUint. cbn [Z.eqb]. rewrite Hc, Hp, Hu. reflexivity.
  - cbn [String.eqb]. rewrite Hc. reflexivity.
Qed.

(** X14.  For a constructed type, the decimal and the hexadecimal
    literal of any 64-bit number, when it is not itself a registered
    name, parse to that number: [FromString] accepts every bit pattern,
    also bits that no slot names. *)
Theorem FromString_number (typeName : string) (in_ : list BitfieldData)
    (n : Z) :
  0 <= n < 2 ^ 64 ->
  (is_registered in_ (Go.FormatUint n 10) = false ->
   FromString (MakeBitfieldType typeName in_) (Go.FormatUint n 10)
   = (n, None))
  /\ (is_registered in_ ("0x" +:+ Go.FormatUint n 16) = false ->
      FromString (MakeBitfieldType typeName in_)
        ("0x" +:+ Go.FormatUint n 16)
      = (n, None)).
Proof.
  intros Hn. split; intros Hreg; apply FromString_ok; unfold parseItem.
  - rewrite unwrap_no_paren
      by (apply FormatUint_avoids; [lia | reflexivity]).
    rewrite lookup_unregistered by exact Hreg.
    destruct (Z.eq_dec n 0) as [->|Hne]; [reflexivity|].
    destruct (ParseUint_decimal n ltac:(lia)) as [Hp He].
    rewrite He, Hp. reflexivity.
  - rewrite unwrap_no_paren.
    2:{ rewrite has_byte_app.
        rewrite (FormatUint_avoids "(" 16 n ltac:(lia) eq_refl).
        reflexivity. }
    rewrite lookup_unregistered by exact Hreg.
    rewrite ParseUint_hex by exact Hn.
    change ("0x" +:+ Go.FormatUint n 16)
      with (String "0" (String "x" (Go.FormatUint n 16))).
    reflexivity.
Qed.

(** X14, witness: 255 and 0xff on a type that names three bits. *)
Lemma FromString_number_witness :
  FromString Examples.perm (Go.FormatUint 255 10) = (255, None)
  /\ FromString Examples.perm ("0x" +:+ Go.FormatUint 255 16)
     = (255, None).
Proof.
  unfold Examples.perm.
  destruct (FromString_number "Perm" Examples.perm_bits 255 ltac:(lia))
    as [Hd Hx].
  split; [apply Hd | apply Hx]; vm_compute; reflexivity.
Defined.

(** ** The pieces as a set *)

Lemma fold_lor_testbit (l : list Z) (n : Z) :
  Z.testbit (fold_right Z.lor 0 l) n
  = existsb (fun x => Z.testbit x n) l.
Proof.
  induction l as [|x l IH]; cbn [fold_right existsb].
  - apply Z.bits_0.
  - rewrite Z.lor_spec, IH. reflexivity.
Qed.

Lemma fold_lor_same_set (l1 l2 : list Z) :
  (forall x, In x l1 <-> In x l2) ->
  fold_right Z.lor 0 l1 = fold_right Z.lor 0 l2.
Proof.
  intros H. apply Z.bits_inj. intros n. rewrite !fold_lor_testbit.
  apply eq_true_iff_eq. rewrite !existsb_exists.
  split; intros (x & Hx & Hb); exists x; (split; [apply H, Hx | exact Hb]).
Qed.

Lemma filter_nil_iff {A : Type} (f : A -> bool) (l : list A) :
  List.filter f l = [] <-> (forall x, In x l -> f x = false).
Proof.
  induction l as [|a l IH]; cbn [List.filter].
  - split; [intros _ x [] | reflexivity].
  - destruct (f a) eqn:E.
    + split; [discriminate|]. intros H.
      rewrite (H a (or_introl eq_refl)) in E. discriminate.
    + rewrite IH. split.
      * intros H x [<-|Hx]; [exact E | apply H, Hx].
      * intros H x Hx. apply H. right. exact Hx.
Qed.

Lemma bad_pieces_same_set (bitfield : BitfieldType) (s t : string) :
  (forall p, In p (Go.Split s "|") <-> In p (Go.Split t "|")) ->
  bad_pieces bitfield s = [] -> bad_pieces bitfield t = [].
Proof.
  unfold bad_pieces. rewrite !filter_nil_iff.
  intros H Hs x Hx. apply Hs, H, Hx.
Qed.

Lemma good_values_same_set (bitfield : BitfieldType) (s t : string) :
  (forall p, In p (Go.Split s "|") <-> In p (Go.Split t "|")) ->
  fold_right Z.lor 0 (map (piece_value bitfield) (good_pieces bitfield s))
  = fold_right Z.lor 0
      (map (piece_value bitfield) (good_pieces bitfield t)).
Proof.
  intros H. apply fold_lor_same_set. intros x.
  unfold good_pieces. rewrite !in_map_iff.
  split; intros (p & Hp & Hin); exists p; (split; [exact Hp|]);
    apply filter_In in Hin as [Hin Hok]; apply filter_In;
    (split; [apply H, Hin | exact Hok]).
Qed.

(** X15.  [FromString] on a composite string depends only on the set of
    its pieces: two strings, neither of them a single token, that have
    the same pieces in any order and with any repetition give the same
    value, and fail together. *)
Theorem FromString_piece_set (bitfield : BitfieldType) (s t : string) :
  snd (parseItem bitfield s) = false ->
  snd (parseItem bitfield t) = false ->
  (forall p, In p (Go.Split s "|") <-> In p (Go.Split t "|")) ->
  fst (FromString bitfield s) = fst (FromString bitfield t)
  /\ (snd (FromString bitfield s) = None
      <-> snd (FromString bitfield t) = None).
Proof.
  intros Hs Ht Hset.
  assert (Hst := bad_pieces_same_set bitfield s t Hset).
  assert (Hts := bad_pieces_same_set bitfield t s
                   (fun p => iff_sym (Hset p))).
  assert (Hval := good_values_same_set bitfield s t Hset).
  rewrite (FromString_split bitfield s Hs).
  rewrite (FromString_split bitfield t Ht).
  destruct (bad_pieces bitfield s) as [|p [|p' l]];
    destruct (bad_pieces bitfield t) as [|q [|q' l']];
    try (discriminate (Hst eq_refl)); try (discriminate (Hts eq_refl));
    cbn [fst snd];
    try (split; [reflexivity | split; discriminate]).
  split; [exact Hval | split; reflexivity].
Qed.

(** X15, witness: the same two flags, reordered and repeated. *)
Lemma FromString_piece_set_witness :
  fst (FromString Examples.perm "read|write")
  = fst (FromString Examples.perm "write|read|read").
Proof.
  apply (FromString_piece_set Examples.perm "read|write"
           "write|read|read").
  - vm_compute. reflexivity.
  - vm_compute. reflexivity.
  - intros p.
    change (Go.Split "read|write" "|") with ["read"; "write"].
    change (Go.Split "write|read|read" "|")
      with ["write"; "read"; "read"].
    cbn [In]. tauto.
Defined.

(** ** Parsed values fit in 64 bits *)

Lemma parse_digits_le (base0 : bool) (base : Z) (s : string)
    (n0 n : Z) :
  n0 <= Go.maxUint64 ->
  Go.parse_digits base0 base s n0 = Some n -> n <= Go.maxUint64.
Proof.
  revert n0. induction s as [|c s IH]; intros n0 Hn0.
  - simpl. intros H. inversion H. subst. exact Hn0.
  - cbn [Go.parse_digits].
    destruct (Ascii.eqb c "_" && base0); [apply IH, Hn0|].
    destruct (Go.digit_value c) as [d|]; [|discriminate].
    destruct (base <=? d); [discriminate|].
    destruct (Go.maxUint64 / base + 1 <=? n0); [discriminate|].
    destruct (Z.ltb_spec Go.maxUint64 (n0 * base + d)); [discriminate|].
    apply IH. assumption.
Qed.

Lemma ParseUint_le (s : string) (base n : Z) :
  Go.ParseUint s base = Some n -> n <= Go.maxUint64.
Proof.
  unfold Go.ParseUint.
  destruct s as [|c0 rest]; [discriminate|].
  assert (Hd : forall b0 b digits,
             match Go.parse_digits b0 b digits 0 with
             | Some n' =>
                 if b0 && Go.has_byte "_" digits
                    && negb (Go.underscoreOK (String c0 rest))
                 then None else Some n'
             | None => None
             end = Some n -> n <= Go.maxUint64).
  { intros b0 b digits.
    destruct (Go.parse_digits b0 b digits 0) as [n'|] eqn:E;
      [|discriminate].
    apply parse_digits_le in E; [|unfold Go.maxUint64; lia].
    destruct (_ && _ && _); [discriminate|].
    intros H. inversion H. subst. exact E. }
  destruct (base =? 0); [|apply Hd].
  destruct (Ascii.eqb c0 "0"); [|apply Hd].
  destruct rest as [|c1 [|c2 rest']]; try apply Hd.
  destruct (Go.lower c1 =? 98); [apply Hd|].
  destruct (Go.lower c1 =? 111); [apply Hd|].
  destruct (Go.lower c1 =? 120); apply Hd.
Qed.

Lemma ParseUint_range (s : string) (n : Z) :
  Go.ParseUint s 0 = Some n -> 0 <= n < 2 ^ 64.
Proof.
  intros H. assert (Hle := ParseUint_le s 0 n H).
  apply ParseUint_nonneg in H; [|lia]. unfold Go.maxUint64 in Hle. lia.
Qed.

Lemma Unmarshal_uint64_range (raw : string) (n : Z) :
  Go.Unmarshal_uint64 raw = Some n -> 0 <= n < 2 ^ 64.
Proof.
  intros H. assert (Hn := Unmarshal_uint64_nonneg raw n H).
  split; [exact Hn|]. revert H. unfold Go.Unmarshal_uint64.
  destruct (String.eqb (Go.json_trim raw) "null").
  - intros H. inversion H. lia.
  - destruct (Go.is_json_uint_literal (Go.json_trim raw));
      [|discriminate].
    intros H. apply ParseUint_le in H. unfold Go.maxUint64 in H. lia.
Qed.

Lemma lor_range (a b : Z) :
  0 <= a < 2 ^ 64 -> 0 <= b < 2 ^ 64 -> 0 <= Z.lor a b < 2 ^ 64.
Proof.
  intros Ha Hb.
  assert (Hnn : 0 <= Z.lor a b) by (apply Z.lor_nonneg; lia).
  split; [exact Hnn|].
  destruct (Z.eq_dec a 0) as [->|Ha0]; [rewrite Z.lor_0_l; lia|].
  destruct (Z.eq_dec b 0) as [->|Hb0]; [rewrite Z.lor_0_r; lia|].
  assert (Hne : Z.lor a b <> 0).
  { intros E. apply Z.lor_eq_0_iff in E. lia. }
  apply Z.log2_lt_pow2; [lia|].
  rewrite Z.log2_lor by lia.
  apply Z.max_lub_lt; apply Z.log2_lt_pow2; lia.
Qed.

Lemma fold_lor_range (l : list Z) :
  Forall (fun x => 0 <= x < 2 ^ 64) l ->
  0 <= fold_right Z.lor 0 l < 2 ^ 64.
Proof.
  induction 1 as [|x l Hx Hl IH]; cbn [fold_right]; [lia|].
  apply lor_range; assumption.
Qed.

Lemma entry_Bit_range (in_ : list BitfieldData) (i : Z) :
  0 <= i < 64 -> 0 <= Bit (entry in_ i) < 2 ^ 64.
Proof.
  intros Hi. cbn [entry Bit]. rewrite Z.shiftl_1_l.
  split; [apply Z.pow_nonneg; lia|].
  apply Z.pow_lt_mono_r; lia.
Qed.

Lemma parseItem_range (typeName : string) (in_ : list BitfieldData)
    (str : string) :
  0 <= fst (parseItem (MakeBitfieldType typeName in_) str) < 2 ^ 64.
Proof.
  unfold parseItem, parseItem_lookup.
  destruct (ByName (MakeBitfieldType typeName in_)
              !! parseItem_unwrap (MakeBitfieldType typeName in_) str)
    as [p|] eqn:E1.
  { apply ByName_Some in E1 as (i & n & Hi & _ & _ & _ & ->).
    apply entry_Bit_range, Hi. }
  destruct (ByName (MakeBitfieldType typeName in_)
              !! Go.ToLower
                   (parseItem_unwrap (MakeBitfieldType typeName in_) str))
    as [p|] eqn:E2.
  { apply ByName_Some in E2 as (i & n & Hi & _ & _ & _ & ->).
    apply entry_Bit_range, Hi. }
  destruct (String.eqb _ "0"); [cbn; lia|].
  destruct (Go.ParseUint _ 0) as [u|] eqn:E3; [|cbn; lia].
  apply ParseUint_range in E3. exact E3.
Qed.

Lemma FromString_range (typeName : string) (in_ : list BitfieldData)
    (str : string) :
  0 <= fst (FromString (MakeBitfieldType typeName in_) str) < 2 ^ 64.
Proof.
  destruct (parseItem (MakeBitfieldType typeName in_) str)
    as [u [|]] eqn:E.
  - rewrite (FromString_ok _ str u E). cbn [fst].
    assert (H := parseItem_range typeName in_ str).
    rewrite E in H. exact H.
  - rewrite FromString_split by (rewrite E; reflexivity).
    destruct (bad_pieces _ str) as [|p [|q l]]; cbn [fst]; try lia.
    apply fold_lor_range. apply List.Forall_forall.
    intros x Hx. apply in_map_iff in Hx as (p & <- & _).
    apply parseItem_range.
Qed.

(** X16.  Every value a constructed type parses fits in 64 bits: the
    results of [FromString] and of [FromJSON] lie in [0, 2^64), so the
    OR of the pieces never needs to wrap. *)
Theorem parsed_value_in_range (string_literal : string -> option string)
    (typeName : string) (in_ : list BitfieldData) :
  (forall str,
      0 <= fst (parseItem (MakeBitfieldType typeName in_) str) < 2 ^ 64)
  /\ (forall str,
        0 <= fst (FromString (MakeBitfieldType typeName in_) str) < 2 ^ 64)
  /\ (forall raw v e,
        FromJSON string_literal (MakeBitfieldType typeName in_) raw
        = Returns (v, e) ->
        0 <= v < 2 ^ 64).
Proof.
  split; [apply parseItem_range|]. split; [apply FromString_range|].
  intros raw v e. unfold FromJSON.
  destruct raw as [raw|]; [|discriminate].
  destruct (String.eqb raw nullBytes).
  { intros H. inversion H. lia. }
  destruct (Go.Unmarshal_string string_literal raw) as [str|].
  { intros H. inversion H as [H'].
    assert (Hr := FromString_range typeName in_ str).
    rewrite H' in Hr. exact Hr. }
  destruct (Go.Unmarshal_uint64 raw) as [u|] eqn:E; intros H;
    inversion H; subst; [|lia].
  apply Unmarshal_uint64_range in E. exact E.
Qed.

(** ** ParseEnum ignores case *)

Lemma row_registers_case (row : Enum.EnumData) (s t : string) :
  case_equal s t = true -> row_registers row s = row_registers row t.
Proof.
  unfold case_equal. rewrite String.eqb_eq. intros H.
  unfold row_registers.
  induction (enum_names row) as [|x l IH]; [reflexivity|].
  cbn [existsb]. rewrite IH. unfold case_equal. rewrite H. reflexivity.
Qed.

Lemma ParseEnum_loop_case (rows : list Enum.EnumData) (s t : string)
    (k : Z) :
  case_equal s t = true ->
  Enum.ParseEnum_loop k rows s = Enum.ParseEnum_loop k rows t.
Proof.
  intros H. revert k. induction rows as [|row rows IH]; intros k;
    [reflexivity|].
  cbn [Enum.ParseEnum_loop].
  rewrite !row_matches_spec, (row_registers_case row s t H), IH.
  reflexivity.
Qed.

(** X17.  [ParseEnum] ignores the case of ASCII letters: two strings
    that are equal up to case give the same ordinal, and fail
    together. *)
Theorem ParseEnum_case_insensitive (enumName : string)
    (rows : list Enum.EnumData) (s t : string) :
  case_equal s t = true ->
  fst (Enum.ParseEnum enumName rows s)
  = fst (Enum.ParseEnum enumName rows t)
  /\ (snd (Enum.ParseEnum enumName rows s) = None
      <-> snd (Enum.ParseEnum enumName rows t) = None).
Proof.
  intros H. unfold Enum.ParseEnum.
  rewrite (ParseEnum_loop_case rows s t 0 H).
  destruct (Enum.ParseEnum_loop 0 rows t); cbn [fst snd].
  - split; [reflexivity | split; reflexivity].
  - split; [reflexivity | split; discriminate].
Qed.

(** X17, witness: an alias of the second colour in two spellings. *)
Lemma ParseEnum_case_insensitive_witness :
  fst (Enum.ParseEnum "Color" Examples.color "VERDE")
  = fst (Enum.ParseEnum "Color" Examples.color "Verde").
Proof.
  apply (ParseEnum_case_insensitive "Color" Examples.color
           "VERDE" "Verde").
  vm_compute. reflexivity.
Defined.

(** ** Empty pieces *)

Lemma parseItem_empty (bitfield : BitfieldType) :
  ByName bitfield !! "" = None -> parseItem bitfield "" = (0, false).
Proof.
  intros H. unfold parseItem.
  rewrite unwrap_no_paren by reflexivity.
  unfold parseItem_lookup. change (Go.ToLower "") with "".
  rewrite H. reflexivity.
Qed.

(** X18.  The empty string is no flag set: unless the empty string is
    itself a key of the name index, [FromString] refuses it with the
    [InvalidBitfieldNameError] of the empty name, and refuses every
    composite string that has an empty piece (a leading, a trailing or
    a doubled bar). *)
Theorem FromString_empty_piece (bitfield : BitfieldType) :
  ByName bitfield !! "" = None ->
  FromString bitfield ""
  = (0, Some (InvalidBitfieldNameError (Type_ bitfield) ""
                (Names bitfield)))
  /\ (forall str,
        snd (parseItem bitfield str) = false ->
        In "" (Go.Split str "|") ->
        In "" (bad_pieces bitfield str)
        /\ exists e, FromString bitfield str = (0, Some e)).
Proof.
  intros H. assert (He := parseItem_empty bitfield H). split.
  - unfold FromString. rewrite He. cbn [Go.Split FromString_loop].
    rewrite He. reflexivity.
  - intros str Hstr Hin.
    assert (Hbad : In "" (bad_pieces bitfield str)).
    { unfold bad_pieces. apply filter_In. split; [exact Hin|].
      unfold piece_ok. rewrite He. reflexivity. }
    split; [exact Hbad|].
    rewrite (FromString_split bitfield str Hstr).
    destruct (bad_pieces bitfield str) as [|p [|q l]];
      [destruct Hbad | eexists; reflexivity | eexists; reflexivity].
Qed.

(** X18, witness: the empty string and a trailing bar on ["Perm"]. *)
Lemma FromString_empty_piece_witness :
  FromString Examples.perm ""
  = (0, Some (InvalidBitfieldNameError (Type_ Examples.perm) ""
                (Names Examples.perm)))
  /\ exists e, FromString Examples.perm "read|" = (0, Some e).
Proof.
  destruct (FromString_empty_piece Examples.perm) as [H0 H1].
  - vm_compute. reflexivity.
  - split; [exact H0|].
    apply (H1 "read|").
    + vm_compute. reflexivity.
    + change (Go.Split "read|" "|") with ["read"; ""]. right. left.
      reflexivity.
Defined.

(** ** Wrapped tokens *)

Lemma paren_not_digit (c : ascii) :
  Ascii.eqb c "(" = true ->
  Ascii.eqb c "_" = false
  /\ Go.digit_value c = None
  /\ Ascii.eqb c "0" = false
  /\ (Go.lower c =? 98) = false /\ (Go.lower c =? 111) = false
  /\ (Go.lower c =? 120) = false.
Proof.
  intros H. apply Ascii.eqb_eq in H. subst c. repeat split; reflexivity.
Qed.

(** The digit loop of [ParseUint] refuses a string that holds an opening
    parenthesis. *)
Lemma parse_digits_paren (base0 : bool) (base : Z) (s : string) (n : Z) :
  Go.has_byte "(" s = true -> Go.parse_digits base0 base s n = None.
Proof.
  revert n. induction s as [|c s IH]; intros n H; [discriminate|].
  simpl in H. cbn [Go.parse_digits].
  destruct (Ascii.eqb c "(") eqn:Ec.
  - destruct (paren_not_digit c Ec) as (H1 & H2 & _).
    rewrite H1, H2. reflexivity.
  - simpl in H.
    destruct (Ascii.eqb c "_" && base0); [apply IH, H|].
    destruct (Go.digit_value c) as [d|]; [|reflexivity].
    destruct (base <=? d); [reflexivity|].
    destruct (Go.maxUint64 / base + 1 <=? n); [reflexivity|].
    destruct (Go.maxUint64 <? n * base + d); [reflexivity|].
    apply IH, H.
Qed.

Lemma ParseUint_paren (s : string) (base : Z) :
  Go.has_byte "(" s = true -> Go.ParseUint s base = None.
Proof.
  intros H. unfold Go.ParseUint.
  destruct s as [|c0 rest]; [reflexivity|].
  assert (Hd : forall b0 b digits,
             Go.has_byte "(" digits = true ->
             match Go.parse_digits b0 b digits 0 with
             | Some n =>
                 if b0 && Go.has_byte "_" digits
                    && negb (Go.underscoreOK (String c0 rest))
                 then None else Some n
             | None => None
             end = None).
  { intros b0 b digits Hb. rewrite parse_digits_paren by exact Hb.
    reflexivity. }
  destruct (base =? 0); [|apply Hd, H].
  destruct (Ascii.eqb c0 "0") eqn:E0; [|apply Hd, H].
  simpl in H. destruct (Ascii.eqb c0 "(") eqn:Ec0.
  { destruct (paren_not_digit c0 Ec0) as (_ & _ & H0 & _). congruence. }
  simpl in H.
  destruct rest as [|c1 [|c2 rest']]; try (apply Hd, H).
  assert (Hrest : Go.has_byte "(" (String c1 (String c2 rest')) = true)
    by exact H.
  destruct (Ascii.eqb c1 "(") eqn:Ec1.
  - destruct (paren_not_digit c1 Ec1) as (_ & _ & _ & Hb & Ho & Hx).
    rewrite Hb, Ho, Hx. apply Hd, Hrest.
  - assert (H2 : Go.has_byte "(" (String c2 rest') = true).
    { cbn [Go.has_byte] in H. rewrite Ec1 in H. exact H. }
    destruct (Go.lower c1 =? 98); [apply Hd, H2|].
    destruct (Go.lower c1 =? 111); [apply Hd, H2|].
    destruct (Go.lower c1 =? 120); [apply Hd, H2|].
    apply Hd, Hrest.
Qed.

Lemma tail_wrapper_paren (t inner : string) :
  t <> "" -> Go.has_byte "(" (tail (t +:+ "(" +:+ inner)) = true.
Proof.
  intros Ht. destruct t as [|c t]; [congruence|].
  rewrite append_cons. cbn [tail]. rewrite has_byte_app.
  change ("(" +:+ inner) with (String "(" inner).
  cbn [Go.has_byte Ascii.eqb Bool.eqb]. apply orb_true_r.
Qed.

(** X19.  For a type with a non-empty name, the wrapped form
    [T(inner)] is never read as its inner token: what is looked up still
    holds the opening parenthesis, so it is no number, and when the
    string looked up is ASCII and neither it nor its lower-case form is
    a key of the name index, [parseItem] rejects the token, whatever
    [inner] is; [FromString] then fails on it with the
    [InvalidBitfieldNameError] of the whole token.  The remnant token
    of [ToGoString] has this form: it is the remnant token of
    [ToString] in the wrapper. *)
Theorem wrapped_token_rejected (bitfield : BitfieldType)
    (inner : string) :
  Type_ bitfield <> "" ->
  Go.is_ascii (tail (Type_ bitfield +:+ "(" +:+ inner)) = true ->
  ByName bitfield !! tail (Type_ bitfield +:+ "(" +:+ inner) = None ->
  ByName bitfield !! Go.ToLower (tail (Type_ bitfield +:+ "(" +:+ inner))
  = None ->
  parseItem bitfield (Type_ bitfield +:+ "(" +:+ inner +:+ ")")
  = (0, false)
  /\ (Go.has_byte "|" (Type_ bitfield +:+ "(" +:+ inner +:+ ")") = false ->
      FromString bitfield (Type_ bitfield +:+ "(" +:+ inner +:+ ")")
      = (0, Some (InvalidBitfieldNameError (Type_ bitfield)
                    (Type_ bitfield +:+ "(" +:+ inner +:+ ")")
                    (Names bitfield))))
  /\ (forall r,
        ToGoString_fn2 bitfield r
        = Type_ bitfield +:+ "(" +:+ ToString_fn2 r +:+ ")").
Proof.
  intros Ht _ H1 H2.
  assert (Hp : parseItem bitfield
                 (Type_ bitfield +:+ "(" +:+ inner +:+ ")")
               = (0, false)).
  { unfold parseItem. rewrite unwrap_wrapper.
    unfold parseItem_lookup. rewrite H1, H2.
    assert (Hb := tail_wrapper_paren (Type_ bitfield) inner Ht).
    rewrite (ParseUint_paren _ 0 Hb).
    destruct (String.eqb_spec (tail (Type_ bitfield +:+ "(" +:+ inner))
                "0") as [E|_]; [|reflexivity].
    rewrite E in Hb. discriminate. }
  split; [exact Hp|]. split.
  - intros Hbar.
    apply (FromString_single_token bitfield _ Hbar).
    rewrite Hp. reflexivity.
  - intros r. unfold ToGoString_fn2, ToString_fn2.
    destruct (r =? 0); reflexivity.
Qed.

(** X19, witness: the remnant token of the flag set 8 of ["Perm"]. *)
Lemma wrapped_token_rejected_witness :
  parseItem Examples.perm (Type_ Examples.perm +:+ "(" +:+ "0x8" +:+ ")")
  = (0, false).
Proof.
  apply (wrapped_token_rejected Examples.perm "0x8").
  - vm_compute. discriminate.
  - vm_compute. reflexivity.
  - vm_compute. reflexivity.
  - vm_compute. reflexivity.
Defined.

(** ** Two more instances *)

(** X2, witness: the key ["read"] of ["Perm"] is bound to the entry of
    bit 0, whose display name it is. *)
Lemma name_index_invariant_witness :
  0 <= Index (entry Examples.perm_bits 0) < 64
  /\ Bit (entry Examples.perm_bits 0)
     = Z.shiftl 1 (Index (entry Examples.perm_bits 0))
  /\ exists n,
       In n (registered (bitfieldData (entry Examples.perm_bits 0)))
       /\ ("read" = n \/ "read" = Go.ToLower n).
Proof.
  destruct (proj1 (name_index_invariant "Perm" Examples.perm_bits)
              "read" (entry Examples.perm_bits 0))
    as (Hi & Hb & _ & _ & Hk).
  - vm_compute. reflexivity.
  - split; [exact Hi|]. split; [exact Hb|]. apply Hk. reflexivity.
Defined.

(** X16, witness: the JSON number 7 read by ["Perm"]. *)
Lemma parsed_value_in_range_witness : 0 <= 7 < 2 ^ 64.
Proof.
  apply (proj2 (proj2 (parsed_value_in_range
                         Examples.plain_string_literal "Perm"
                         Examples.perm_bits))
           (Some "7") 7 None).
  vm_compute. reflexivity.
Defined.
